(** * ShredSpace: directory scanning and secure erasure

    A shallow embedding of the two worker threads of
    [pyqt-tree-scanner.py], [FileScannerThread] and [SecureDeleteThread],
    together with the caller [ShredSpaceApp.secure_delete_file], and the
    properties of the specification that concern them.  The second half of
    the definitions covers the windows around the two threads: the
    paginated search list, the main window (recent scans, treemap, sorting,
    deletion), the first window and the Tk window of the notes.

    Python values are modelled as follows: [int] is [Z], [float] is an
    IEEE-754 binary64 number ([spec_float] with precision 53 and maximal
    exponent 1024), [bytes] is [list byte], [str] is [string].  Exceptions
    and the mutable environment are threaded through a state-and-error
    monad: a raised exception keeps the effects performed before it. *)

From Stdlib Require Import ZArith Lia Ascii.
From Stdlib Require Import Floats.SpecFloat.
From stdpp Require Import base option list gmap strings pretty.
From Stdlib Require Import Sorting.Sorted.

Local Open Scope Z_scope.

Abbreviation byte := Byte.byte.

(** ** The Python runtime used by the two threads *)

Module Py.

(** The exceptions the modelled statements can raise. *)
Inductive exn :=
| FileNotFoundError
| PermissionError
| NotADirectoryError
| IsADirectoryError
| ZeroDivisionError
| OverflowError
| ValueError
| AttributeError.

#[global] Instance exn_eq_dec : EqDecision exn.
Proof. solve_decision. Defined.

(** A computation over a mutable environment [S]: it ends normally with
    a value or with a raised exception, and returns the environment as
    it is at that point. *)
Definition M (S A : Type) : Type := S -> (exn + A) * S.

Definition ret {S A} (a : A) : M S A := fun s => (inr a, s).

Definition raise {S A} (e : exn) : M S A := fun s => (inl e, s).

Definition bind {S A B} (m : M S A) (k : A -> M S B) : M S B :=
  fun s => match m s with
           | (inr a, s') => k a s'
           | (inl e, s') => (inl e, s')
           end.

Definition get {S} : M S S := fun s => (inr s, s).

Definition modify {S} (f : S -> S) : M S unit := fun s => (inr tt, f s).

(** Lifting of a pure, fallible operation. *)
Definition lift {S A} (r : exn + A) : M S A := fun s => (r, s).

(** [for x in xs: acc = body x acc]: the loop variables that the body
    rebinds are the accumulator. *)
Fixpoint for_each {S A B} (xs : list A) (body : A -> B -> M S B) (acc : B)
  : M S B :=
  match xs with
  | [] => ret acc
  | x :: rest => bind (body x acc) (for_each rest body)
  end.

(** [for _ in range(n): body]. *)
Fixpoint for_range {S} (n : nat) (body : M S unit) : M S unit :=
  match n with
  | O => ret tt
  | S n' => bind body (fun _ => for_range n' body)
  end.

(** [enumerate(xs)], counting from [i]. *)
Fixpoint enumerate_from {A} (i : Z) (xs : list A) : list (Z * A) :=
  match xs with
  | [] => []
  | x :: rest => (i, x) :: enumerate_from (i + 1) rest
  end.

Definition enumerate {A} (xs : list A) : list (Z * A) := enumerate_from 0 xs.

(** [s.startswith(p)] and [s.endswith(p)]. *)
Definition startswith (s p : string) : bool := String.prefix p s.

Definition endswith (s p : string) : bool :=
  String.prefix (String.rev p) (String.rev s).

(** [os.path.join(a, b)] of [posixpath]: an absolute [b] replaces [a], a
    separator is inserted unless [a] is empty or already ends with one. *)
Definition os_path_join (a b : string) : string :=
  if startswith b "/" then b
  else if (String.eqb a "" || endswith a "/")%bool then (a ++ b)%string
  else (a ++ "/" ++ b)%string.

(** *** Numbers *)

Definition prec : Z := 53.
Definition emax : Z := 1024.

(** A Python number is an [int] or a [float]. *)
Inductive number :=
| PyInt (z : Z)
| PyFloat (x : spec_float).

(** The integer [z] as an exact, not yet rounded, binary value. *)
Definition exact_int (z : Z) : spec_float :=
  match z with
  | Z0 => S754_zero false
  | Zpos p => S754_finite false p 0
  | Zneg p => S754_finite true p 0
  end.

(** [float(z)]: rounding to nearest even; too large an [int] raises. *)
Definition float_of_int (z : Z) : exn + spec_float :=
  match binary_normalize prec emax z 0 false with
  | S754_infinity _ | S754_nan => inl OverflowError
  | x => inr x
  end.

(** [a / b] on two [int]s: the correctly rounded quotient. *)
Definition int_truediv (a b : Z) : exn + number :=
  if b =? 0 then inl ZeroDivisionError
  else match SFdiv prec emax (exact_int a) (exact_int b) with
       | S754_infinity _ | S754_nan => inl OverflowError
       | q => inr (PyFloat q)
       end.

(** [a * b]: an [int] operand is converted when the other is a
    [float]; a [float] product that overflows is [inf], not an error. *)
Definition mul (a b : number) : exn + number :=
  match a, b with
  | PyInt x, PyInt y => inr (PyInt (x * y))
  | PyInt x, PyFloat y =>
      match float_of_int x with
      | inl e => inl e
      | inr x' => inr (PyFloat (SFmul prec emax x' y))
      end
  | PyFloat x, PyInt y =>
      match float_of_int y with
      | inl e => inl e
      | inr y' => inr (PyFloat (SFmul prec emax x y'))
      end
  | PyFloat x, PyFloat y => inr (PyFloat (SFmul prec emax x y))
  end.

(** The integral part of a finite binary value, towards zero. *)
Definition trunc (s : bool) (m : positive) (e : Z) : Z :=
  let a := match e with
           | Z0 => Zpos m
           | Zpos _ => Z.shiftl (Zpos m) e
           | Zneg p => Z.shiftr (Zpos m) (Zpos p)
           end in
  if s then - a else a.

(** [int(x)]. *)
Definition int (x : number) : exn + Z :=
  match x with
  | PyInt z => inr z
  | PyFloat (S754_zero _) => inr 0
  | PyFloat (S754_finite s m e) => inr (trunc s m e)
  | PyFloat (S754_infinity _) => inl OverflowError
  | PyFloat S754_nan => inl ValueError
  end.

(** [round(x)] of a [float] to an [int]: to nearest, ties to even. *)
Definition round (x : spec_float) : exn + Z :=
  match x with
  | S754_zero _ => inr 0
  | S754_finite s m e =>
      let a := match e with
               | Zneg p =>
                   let q := Z.shiftr (Zpos m) (Zpos p) in
                   let r := Zpos m - Z.shiftl q (Zpos p) in
                   match Z.compare (2 * r) (Z.shiftl 1 (Zpos p)) with
                   | Lt => q
                   | Gt => q + 1
                   | Eq => if Z.even q then q else q + 1
                   end
               | _ => Z.shiftl (Zpos m) e
               end in
      inr (if s then - a else a)
  | S754_infinity _ => inl OverflowError
  | S754_nan => inl ValueError
  end.

End Py.

Notation "'let*' x := m 'in' k" := (Py.bind m (fun x => k))
  (at level 10, x pattern, m at level 100, k at level 200,
   format "'[v' 'let*'  x  :=  m  'in' '/' k ']'").
Notation "m >> k" := (Py.bind m (fun _ => k))
  (at level 100, k at level 200, right associativity).

(** ** FileScannerThread *)

Module Scanner.
Import Py.

(** What [os.stat] tells about a path. *)
Inductive kind := regular | folder | special.

#[global] Instance kind_eq_dec : EqDecision kind.
Proof. solve_decision. Defined.

Record inode := { st_kind : kind; st_size : Z }.

(** The part of the file system a scan reads: the names [os.listdir]
    returns for a directory, in enumeration order, and the inode behind a
    path.  The file system does not change while a scan runs. *)
Record world := {
  dirs : gmap string (list string);
  inodes : gmap string inode
}.

(** The [pandas.DataFrame] built from [{'name': ..., 'size': ...}]. *)
Record DataFrame := { file_names : list string; file_sizes : list Z }.

(** The two signals of the thread. *)
Inductive signal :=
| progress (percent : Z)
| result (df : DataFrame).

(** The environment of [run] is the sequence of signals emitted so far. *)
Definition emit (s : signal) : M (list signal) unit :=
  modify (fun out => out ++ [s]).

Definition os_listdir (w : world) (path : string) : exn + list string :=
  match dirs w !! path with
  | Some names => inr names
  | None =>
      match inodes w !! path with
      | Some _ => inl NotADirectoryError
      | None => inl FileNotFoundError
      end
  end.

Definition os_path_isfile (w : world) (path : string) : bool :=
  match inodes w !! path with
  | Some i => bool_decide (st_kind i = regular)
  | None => false
  end.

(** [os.stat(path).st_size]. *)
Definition os_stat_size (w : world) (path : string) : exn + Z :=
  match inodes w !! path with
  | Some i => inr (st_size i)
  | None => inl FileNotFoundError
  end.

Definition visible (f : string) : bool := negb (startswith f ".").

(** The body of the [for index, filename in enumerate(...)] loop; the
    accumulator is the pair of lists [file_sizes], [file_names]. *)
Definition loop_body (w : world) (directory : string) (increment : number)
    (it : Z * string) (acc : list Z * list string)
  : M (list signal) (list Z * list string) :=
  let '(index, filename) := it in
  let '(file_sizes, file_names) := acc in
  if startswith filename "." then ret (file_sizes, file_names)
  else
    let path := os_path_join directory filename in
    let* acc' :=
      (if os_path_isfile w path
       then let* sz := lift (os_stat_size w path) in
            ret (file_sizes ++ [sz], file_names ++ [filename])
       else ret (file_sizes, file_names)) in
    let* x := lift (mul (PyInt (index + 1)) increment) in
    let* pct := lift (int x) in
    emit (progress pct) >>
    ret acc'.

(** [100 / total_files if total_files > 0 else 1]. *)
Definition increment_of (total_files : Z) : exn + number :=
  if 0 <? total_files then int_truediv 100 total_files else inr (PyInt 1).

(** [FileScannerThread.run]. *)
Definition run (w : world) (directory : string) : M (list signal) unit :=
  let* listed := lift (os_listdir w directory) in
  let total_files := Z.of_nat (length (filter (fun f => visible f = true) listed)) in
  let* increment := lift (increment_of total_files) in
  let* names := lift (os_listdir w directory) in
  let* acc := for_each (enumerate names) (loop_body w directory increment) ([], []) in
  let '(file_sizes, file_names) := acc in
  emit (result {| file_names := file_names; file_sizes := file_sizes |}).

(** A scan started on a fresh thread: the signals it emits and how it
    ends. *)
Definition scan (w : world) (directory : string) : (exn + unit) * list signal :=
  run w directory [].

(** The progress values and the results among emitted signals. *)
Definition progress_values (out : list signal) : list Z :=
  omap (fun s => match s with progress p => Some p | result _ => None end) out.

Definition results (out : list signal) : list DataFrame :=
  omap (fun s => match s with result df => Some df | progress _ => None end) out.

(** The value emitted after the entry at position [index] of the
    listing: [int((index + 1) * increment)]. *)
Definition percent (increment : number) (index : Z) : exn + Z :=
  match mul (PyInt (index + 1)) increment with
  | inl e => inl e
  | inr x => int x
  end.

(** The entries a scan measures: visible names that are plain files. *)
Definition plain (w : world) (directory : string) (f : string) : bool :=
  visible f && os_path_isfile w (os_path_join directory f).

Definition size_of (w : world) (directory : string) (f : string) : Z :=
  match inodes w !! os_path_join directory f with
  | Some i => st_size i
  | None => 0
  end.

(** The percentage as the specification words it:
    [round((index + 1) / total * 100)]. *)
Definition spec_percent (index total : Z) : exn + Z :=
  match int_truediv (index + 1) total with
  | inl e => inl e
  | inr q =>
      match mul q (PyInt 100) with
      | inr (PyFloat x) => round x
      | inr (PyInt z) => inr z
      | inl e => inl e
      end
  end.

(** The scenario of the specification: [/tmp/d] holds [a.txt] (10
    bytes), [.hidden] (5 bytes) and the sub-directory [b]; [names] is the
    order in which [os.listdir] enumerates them. *)
Definition tmp_d (names : list string) : world :=
  {| dirs := {[ "/tmp/d" := names ]};
     inodes := {[ "/tmp/d" := {| st_kind := folder; st_size := 4096 |};
                  "/tmp/d/a.txt" := {| st_kind := regular; st_size := 10 |};
                  "/tmp/d/.hidden" := {| st_kind := regular; st_size := 5 |};
                  "/tmp/d/b" := {| st_kind := folder; st_size := 4096 |} ]} |}.

(** A directory [/data] of [n] plain files [f0], [f1], ... of one byte. *)
Definition numbered (n : nat) : list string :=
  map (fun i => String.append "f" (pretty i)) (seq 0 n).

Definition data_dir (n : nat) : world :=
  {| dirs := {[ "/data" := numbered n ]};
     inodes := list_to_map
       (map (fun f => (os_path_join "/data" f, {| st_kind := regular; st_size := 1 |}))
            (numbered n)) |}.

End Scanner.

(** ** SecureDeleteThread *)

Module Eraser.
Import Py.

(** The system calls that touch a file's bytes or its directory entry,
    as an instrumented backing store would record them. *)
Inductive syscall :=
| sys_write (path : string) (offset : nat) (buf : list byte)
| sys_read (path : string) (offset : nat) (count : nat)
| sys_unlink (path : string).

(** An open file object: [open(path, mode, buffering=0)]. *)
Record FileIO := { name : string; appending : bool; pos : nat }.

(** The environment of an erase: the regular files by path; the files
    that may not be opened for writing; the paths whose directory allows
    no creation or removal of the entry; the stream [os.urandom] draws
    from and how much of it was drawn; the table of open files; the
    system calls made so far.  Memory and disk space are unbounded; what
    one [write] call transfers is not (see [write]). *)
Record world := {
  files : gmap string (list byte);
  readonly : gset string;
  sealed : gset string;
  entropy : nat -> byte;
  drawn : nat;
  fds : gmap nat FileIO;
  calls : list syscall
}.

Definition set_files (f : gmap string (list byte) -> gmap string (list byte))
    (w : world) : world :=
  {| files := f (files w); readonly := readonly w; sealed := sealed w;
     entropy := entropy w; drawn := drawn w; fds := fds w; calls := calls w |}.

Definition set_fds (f : gmap nat FileIO -> gmap nat FileIO) (w : world) : world :=
  {| files := files w; readonly := readonly w; sealed := sealed w;
     entropy := entropy w; drawn := drawn w; fds := f (fds w); calls := calls w |}.

Definition set_drawn (n : nat) (w : world) : world :=
  {| files := files w; readonly := readonly w; sealed := sealed w;
     entropy := entropy w; drawn := n; fds := fds w; calls := calls w |}.

Definition log (c : syscall) (w : world) : world :=
  {| files := files w; readonly := readonly w; sealed := sealed w;
     entropy := entropy w; drawn := drawn w; fds := fds w;
     calls := calls w ++ [c] |}.

Definition has_char (c : Ascii.ascii) (s : string) : bool :=
  existsb (fun x => bool_decide (x = c)) (String.list_ascii_of_string s).

(** [open(path, mode, buffering=0)] for the modes with ['r'] or ['a'];
    the result is the descriptor of the file object.  With ['a'] a
    missing file is created, the position starts at the end of the file
    and the descriptor is in append mode. *)
Definition open (path mode : string) : M world nat :=
  let* w := get in
  let a := has_char "a"%char mode in
  let fd := fresh (dom (fds w)) in
  match files w !! path with
  | Some d =>
      if bool_decide (path ∈ readonly w) then raise PermissionError
      else
        modify (set_fds (insert fd {| name := path; appending := a;
                                      pos := if a then length d else O |})) >>
        ret fd
  | None =>
      if a then
        if bool_decide (path ∈ sealed w) then raise PermissionError
        else
          modify (set_files (insert path [])) >>
          modify (set_fds (insert fd {| name := path; appending := a; pos := O |})) >>
          ret fd
      else raise FileNotFoundError
  end.

Definition close (fd : nat) : M world unit := modify (set_fds (delete fd)).

(** [with open(path, mode, buffering=0) as f: body f]: the file is
    closed however the body ends. *)
Definition with_open {A} (path mode : string) (body : nat -> M world A)
  : M world A :=
  let* fd := open path mode in
  fun w => match body fd w with
           | (r, w') => (r, (close fd w').2)
           end.

(** [f.seek(offset)]. *)
Definition seek (fd : nat) (offset : nat) : M world nat :=
  let* w := get in
  match fds w !! fd with
  | None => raise ValueError
  | Some f =>
      modify (set_fds (insert fd {| name := name f; appending := appending f;
                                    pos := offset |})) >>
      ret offset
  end.

(** The bytes of a file after [buf] is written at [offset]; a gap
    beyond the end is filled with zero bytes. *)
Definition splice (d : list byte) (offset : nat) (buf : list byte) : list byte :=
  take offset d ++ replicate (offset - length d)%nat Byte.x00 ++ buf
    ++ drop (offset + length buf)%nat d.

(** The most bytes one [write] system call transfers: [0x7ffff000] on
    Linux. *)
Definition MAX_RW_COUNT : Z := 2147479552.

(** What one system call takes of [buf]: all of it, or its first
    [MAX_RW_COUNT] bytes when it is longer. *)
Definition transferred (buf : list byte) : list byte :=
  if Z.of_nat (length buf) <=? MAX_RW_COUNT then buf
  else take (Z.to_nat MAX_RW_COUNT) buf.
Arguments transferred : simpl never.

(** [f.write(buf)] on a file opened with [buffering=0]: a single system
    call, which may take only a part of [buf]; the result is the number of
    bytes written, and the callers in this file do not look at it.  In
    append mode the bytes go to the end of the file, wherever the position
    is. *)
Definition write (fd : nat) (buf : list byte) : M world nat :=
  let* w := get in
  match fds w !! fd with
  | None => raise ValueError
  | Some f =>
      let d := default [] (files w !! name f) in
      let offset := if appending f then length d else pos f in
      let sent := transferred buf in
      modify (log (sys_write (name f) offset sent)) >>
      modify (set_files (fun m => match m !! name f with
                                  | Some _ => <[name f := splice d offset sent]> m
                                  | None => m
                                  end)) >>
      modify (set_fds (insert fd {| name := name f; appending := appending f;
                                    pos := (offset + length sent)%nat |})) >>
      ret (length sent)
  end.

(** [f.read()]: everything from the position to the end. *)
Definition read (fd : nat) : M world (list byte) :=
  let* w := get in
  match fds w !! fd with
  | None => raise ValueError
  | Some f =>
      let d := default [] (files w !! name f) in
      let data := drop (pos f) d in
      modify (log (sys_read (name f) (pos f) (length data))) >>
      modify (set_fds (insert fd {| name := name f; appending := appending f;
                                    pos := (pos f + length data)%nat |})) >>
      ret data
  end.

(** [os.path.getsize(path)]. *)
Definition os_path_getsize (path : string) : M world Z :=
  let* w := get in
  match files w !! path with
  | Some d => ret (Z.of_nat (length d))
  | None => raise FileNotFoundError
  end.

(** [b'\x00' * n]. *)
Definition zeros (n : Z) : list byte := replicate (Z.to_nat n) Byte.x00.

(** [os.urandom(n)]. *)
Definition os_urandom (n : Z) : M world (list byte) :=
  if n <? 0 then raise ValueError
  else
    let* w := get in
    modify (set_drawn (drawn w + Z.to_nat n)) >>
    ret (map (entropy w) (seq (drawn w) (Z.to_nat n))).

(** [os.remove(path)]. *)
Definition os_remove (path : string) : M world unit :=
  let* w := get in
  match files w !! path with
  | None => raise FileNotFoundError
  | Some _ =>
      if bool_decide (path ∈ sealed w) then raise PermissionError
      else
        modify (log (sys_unlink path)) >>
        modify (set_files (delete path))
  end.

Definition byte_xor (a b : byte) : byte :=
  default Byte.x00 (Byte.of_N (N.lxor (Byte.to_N a) (Byte.to_N b))).

Record SecureDeleteThread := {
  file_path : string;
  method : string;
  passes : Z
}.

Section Cipher.

(** The AES block function of the [cryptography] package: key and
    16-byte block to 16-byte block. *)
Variable aes : list byte -> list byte -> list byte.

(** [Cipher(AES(key), CFB(iv)).encryptor().update(data)]: full-block
    cipher feedback, byte by byte.  [reg] is the feedback register
    and [n] the position in it; the register is encrypted whenever a
    block starts, and each ciphertext byte replaces the register byte
    it was made from.  [finalize()] adds nothing. *)
Fixpoint cfb_update (key reg : list byte) (n : nat) (data : list byte)
  : list byte :=
  match data with
  | [] => []
  | p :: rest =>
      let reg := if Nat.eqb n 0 then aes key reg else reg in
      let c := byte_xor p (nth n reg Byte.x00) in
      c :: cfb_update key (<[n := c]> reg) (S n mod 16)%nat rest
  end.

Definition cfb_finalize : list byte := [].

Definition zero_fill (self : SecureDeleteThread) : M world unit :=
  with_open (file_path self) "ba+" (fun f =>
    for_range (Z.to_nat (passes self))
      (seek f 0 >>
       let* n := os_path_getsize (file_path self) in
       write f (zeros n) >>
       ret tt)).

Definition random_fill (self : SecureDeleteThread) : M world unit :=
  with_open (file_path self) "ba+" (fun f =>
    for_range (Z.to_nat (passes self))
      (seek f 0 >>
       let* n := os_path_getsize (file_path self) in
       let* buf := os_urandom n in
       write f buf >>
       ret tt)).

Definition dod_standard (self : SecureDeleteThread) : M world unit :=
  with_open (file_path self) "ba+" (fun f =>
    for_range 3
      (seek f 0 >>
       let* n := os_path_getsize (file_path self) in
       let* buf := os_urandom n in
       write f buf >>
       ret tt)).

Definition aes_wipe (self : SecureDeleteThread) : M world unit :=
  let* key := os_urandom 32 in
  let* iv := os_urandom 16 in
  with_open (file_path self) "ba+" (fun f =>
    seek f 0 >>
    let* data := read f in
    let encrypted_data := cfb_update key iv 0 data ++ cfb_finalize in
    seek f 0 >>
    write f encrypted_data >>
    ret tt).

(** [SecureDeleteThread.run]. *)
Definition run (self : SecureDeleteThread) : M world unit :=
  (if String.eqb (method self) "zero" then zero_fill self
   else if String.eqb (method self) "random" then random_fill self
   else if String.eqb (method self) "dod" then dod_standard self
   else if String.eqb (method self) "aes" then aes_wipe self
   else ret tt) >>
  os_remove (file_path self).

End Cipher.

(** The writes among system calls, as (offset, buffer) pairs. *)
Definition writes (cs : list syscall) : list (nat * list byte) :=
  omap (fun c => match c with sys_write _ o b => Some (o, b) | _ => None end) cs.

(** A store with the given files and a stream of random bytes, nothing
    open and nothing recorded. *)
Definition store (fs : gmap string (list byte)) (ro se : gset string)
    (rnd : nat -> byte) : world :=
  {| files := fs; readonly := ro; sealed := se; entropy := rnd; drawn := 0;
     fds := ∅; calls := [] |}.

End Eraser.

(** ** The caller: ShredSpaceApp.secure_delete_file *)

Module App.
Import Py.

Inductive ui_event :=
| QMessageBox_warning (title text : string)
| progress_bar_setValue (value : Z).

(** The fields of the window that [secure_delete_file] reads:
    [settings.get('secure_delete_method')] is [None] when the key is
    absent. *)
Record ShredSpaceApp := {
  current_directory : string;
  selected_file : option string;
  secure_delete_method : option string;
  passes_slider : Z
}.

(** What the method can change: the disk, the widgets, and the
    attribute [self.secure_delete_thread]. *)
Record session := {
  disk : Eraser.world;
  ui : list ui_event;
  secure_delete_thread : option Eraser.SecureDeleteThread
}.

Definition show (e : ui_event) : M session unit :=
  modify (fun s => {| disk := disk s; ui := ui s ++ [e];
                      secure_delete_thread := secure_delete_thread s |}).

Definition set_thread (t : Eraser.SecureDeleteThread) : M session unit :=
  modify (fun s => {| disk := disk s; ui := ui s;
                      secure_delete_thread := Some t |}).

(** [self.selected_file if self.selected_file else None]. *)
Definition get_selected_file (self : ShredSpaceApp) : option string :=
  match selected_file self with
  | Some f => if String.eqb f "" then None else Some f
  | None => None
  end.

Definition validate_passes (passes : Z) : M session bool :=
  if negb ((1 <=? passes) && (passes <=? 99)) then
    show (QMessageBox_warning "Invalid Input"
            "Number of passes must be between 1 and 99.") >>
    ret false
  else ret true.

(** [ShredSpaceApp.secure_delete_file].  [SecureDeleteThread] declares
    no [progress] signal, so the attribute access that follows the
    construction of the thread raises and the thread is not started. *)
Definition secure_delete_file (self : ShredSpaceApp) : M session unit :=
  match get_selected_file self with
  | Some selected =>
      let file_path := os_path_join (current_directory self) selected in
      let method := default "dod"%string (secure_delete_method self) in
      let passes := passes_slider self in
      let* valid := validate_passes passes in
      if negb valid then ret tt
      else
        show (progress_bar_setValue 0) >>
        set_thread {| Eraser.file_path := file_path; Eraser.method := method;
                      Eraser.passes := passes |} >>
        raise AttributeError
  | None => ret tt
  end.

Definition fresh_session (w : Eraser.world) : session :=
  {| disk := w; ui := []; secure_delete_thread := None |}.

End App.

(** ** Vocabulary of the properties *)

(** A binary value that is zero, or finite with sign [sx], exponent at
    most [emax - prec] and magnitude below [2 ^ B]. *)
Definition tame (sx : bool) (B : Z) (x : spec_float) : Prop :=
  match x with
  | S754_zero _ => True
  | S754_finite s m e => s = sx /\ e <= Py.emax - Py.prec /\ Zpos (digits2_pos m) + e <= B
  | _ => False
  end.

Section PassVocabulary.
Import Py Eraser.

(** One pass of the three fill loops: [f.seek(0)], then a buffer as long
    as the file is made by [gen] and written. *)
Definition pass (path : string) (fd : nat) (gen : Z -> M world (list byte))
  : M world unit :=
  seek fd 0 >>
  let* n := os_path_getsize path in
  let* buf := gen n in
  write fd buf >>
  ret tt.

(** The state after a pass whose write transferred [buf], given the state
    [w2] in which the buffer was ready. *)
Definition after_write (path : string) (fd : nat) (d buf : list byte) (w2 : world)
  : world :=
  set_fds (insert fd {| name := path; appending := true;
                        pos := (length d + length buf)%nat |})
    (set_files (insert path (d ++ buf))
       (log (sys_write path (length d) buf) w2)).

End PassVocabulary.

(** The content of a file of content [d] after [n] passes in append mode,
    and the writes made: [gen dr len] is the buffer of length [len] made
    when [dr] random bytes were drawn before, of which the write transfers
    what one system call takes. *)
Fixpoint grow (gen : nat -> nat -> list byte) (dr n : nat) (d : list byte)
  : list byte :=
  match n with
  | O => d
  | S n' =>
      grow gen (dr + length d) n' (d ++ Eraser.transferred (gen dr (length d)))
  end.

Fixpoint pass_log (path : string) (gen : nat -> nat -> list byte) (dr n : nat)
    (d : list byte) : list Eraser.syscall :=
  match n with
  | O => []
  | S n' =>
      Eraser.sys_write path (length d) (Eraser.transferred (gen dr (length d)))
        :: pass_log path gen (dr + length d) n'
             (d ++ Eraser.transferred (gen dr (length d)))
  end.

(** Writes that each start where the file ends at that moment, for a
    file of [size] bytes before the first. *)
Fixpoint appended (size : nat) (ws : list (nat * list byte)) : bool :=
  match ws with
  | [] => true
  | (o, buf) :: rest => Nat.eqb o size && appended (size + length buf) rest
  end.

Definition zero_gen (dr len : nat) : list byte := replicate len Byte.x00.

Definition random_gen (rnd : nat -> byte) (dr len : nat) : list byte :=
  map rnd (seq dr len).

(** The dispatch of [run] on the method, before [os.remove]. *)
Definition overwrite (aes : list byte -> list byte -> list byte)
    (self : Eraser.SecureDeleteThread) : Py.M Eraser.world unit :=
  if String.eqb (Eraser.method self) "zero" then Eraser.zero_fill self
  else if String.eqb (Eraser.method self) "random" then Eraser.random_fill self
  else if String.eqb (Eraser.method self) "dod" then Eraser.dod_standard self
  else if String.eqb (Eraser.method self) "aes" then Eraser.aes_wipe aes self
  else Py.ret tt.

(** ** The scenario of the specification on the eraser *)

(** [/tmp/d/a.txt], a file of ten bytes. *)
Definition a_txt : string := "/tmp/d/a.txt".

Definition ten_bytes : list byte := replicate 10 Byte.x61.

(** A stream of bytes standing for [os.urandom]. *)
Definition counting (i : nat) : byte :=
  default Byte.x00 (Byte.of_N (N.of_nat (i mod 256))).

(** A stand-in for the AES block function. *)
Definition xor_block (key block : list byte) : list byte :=
  zip_with Eraser.byte_xor (take 16 key) block.

Definition disk_a : Eraser.world :=
  Eraser.store {[ a_txt := ten_bytes ]} ∅ ∅ counting.

(** The same with a directory that refuses the removal of the entry, and
    with a file that may not be written. *)
Definition disk_sealed : Eraser.world :=
  Eraser.store {[ a_txt := ten_bytes ]} ∅ {[ a_txt ]} counting.

Definition disk_readonly : Eraser.world :=
  Eraser.store {[ a_txt := ten_bytes ]} {[ a_txt ]} ∅ counting.

Definition erase_a (method : string) (passes : Z) : Eraser.SecureDeleteThread :=
  {| Eraser.file_path := a_txt; Eraser.method := method; Eraser.passes := passes |}.

(** [/tmp/d/a.txt] as a file of 2147487744 bytes, 8192 more than one
    [write] call transfers. *)
Definition large_file : list byte := replicate (Z.to_nat 2147487744) Byte.x61.

Definition disk_large : Eraser.world :=
  Eraser.store {[ a_txt := large_file ]} ∅ ∅ counting.

(** The window of the scenario: [a.txt] selected in [/tmp/d], method
    ['zero'], and the given number of passes. *)
Definition window (passes : Z) : App.ShredSpaceApp :=
  {| App.current_directory := "/tmp/d"; App.selected_file := Some "a.txt";
     App.secure_delete_method := Some "zero"; App.passes_slider := passes |}.

(** ** More of the Python runtime: the rest of the windows *)

Module Pyx.

(** The exceptions of the window methods: those of [Py] and four more. *)
Inductive exc :=
| Os (e : Py.exn)
| KeyError
| IndexError
| TypeError
| UnboundLocalError.

Definition M (S A : Type) : Type := S -> (exc + A) * S.

Definition ret {S A} (a : A) : M S A := fun s => (inr a, s).

Definition raise {S A} (e : exc) : M S A := fun s => (inl e, s).

Definition bind {S A B} (m : M S A) (k : A -> M S B) : M S B :=
  fun s => match m s with
           | (inr a, s') => k a s'
           | (inl e, s') => (inl e, s')
           end.

Definition get {S} : M S S := fun s => (inr s, s).

Definition modify {S} (f : S -> S) : M S unit := fun s => (inr tt, f s).

Definition lift {S A} (r : exc + A) : M S A := fun s => (r, s).

(** A pure operation of [Py] inside a window method. *)
Definition of_py {A} (r : Py.exn + A) : exc + A :=
  match r with
  | inl e => inl (Os e)
  | inr a => inr a
  end.

Fixpoint for_each {S A B} (xs : list A) (body : A -> B -> M S B) (acc : B)
  : M S B :=
  match xs with
  | [] => ret acc
  | x :: rest => bind (body x acc) (for_each rest body)
  end.

(** [l[start:stop]]: an index below zero counts from the end, and both
    ends are cut to the list, so that a slice never raises. *)
Definition slice_index (n i : Z) : Z :=
  if i <? 0 then Z.max 0 (i + n) else Z.min i n.

Definition slice {A} (l : list A) (start stop : Z) : list A :=
  let n := Z.of_nat (length l) in
  let s := slice_index n start in
  let e := slice_index n stop in
  take (Z.to_nat (e - s)) (drop (Z.to_nat s) l).

(** [l[i]]. *)
Definition getitem {A} (l : list A) (i : Z) : exc + A :=
  let n := Z.of_nat (length l) in
  let j := if i <? 0 then i + n else i in
  if (j <? 0) || (n <=? j) then inl IndexError
  else match l !! Z.to_nat j with
       | Some a => inr a
       | None => inl IndexError
       end.

(** [a % b] on [int]s: the sign of the result is that of [b]. *)
Definition mod_ (a b : Z) : exc + Z :=
  if b =? 0 then inl (Os Py.ZeroDivisionError) else inr (a mod b).

(** Characters are the code points below 256.  [c.lower()]: the capital
    letters of ASCII and of Latin-1 move by 32. *)
Definition lower_char (c : ascii) : ascii :=
  let n := nat_of_ascii c in
  if ((65 <=? n) && (n <=? 90))%nat
     || ((192 <=? n) && (n <=? 222) && negb (n =? 215))%nat
  then ascii_of_nat (n + 32)
  else c.

Fixpoint lower (s : string) : string :=
  match s with
  | EmptyString => EmptyString
  | String c r => String (lower_char c) (lower r)
  end.

(** [s.replace(a, b)] for one-character [a] and [b]. *)
Fixpoint replace (s : string) (a b : ascii) : string :=
  match s with
  | EmptyString => EmptyString
  | String c r => String (if Ascii.eqb c a then b else c) (replace r a b)
  end.

(** [c.isspace()]. *)
Definition isspace (c : ascii) : bool :=
  let n := nat_of_ascii c in
  (((9 <=? n) && (n <=? 13)) || ((28 <=? n) && (n <=? 32))
   || (n =? 133) || (n =? 160))%nat.

Fixpoint lstrip (s : string) : string :=
  match s with
  | EmptyString => EmptyString
  | String c r => if isspace c then lstrip r else s
  end.

(** [s.strip()]. *)
Definition strip (s : string) : string :=
  String.rev (lstrip (String.rev (lstrip s))).

(** [sub in s]. *)
Fixpoint contains (sub s : string) : bool :=
  String.prefix sub s ||
  match s with
  | EmptyString => false
  | String _ r => contains sub r
  end.

(** [s.split(sep)[0]] for a one-character [sep]. *)
Fixpoint split_first (s : string) (sep : ascii) : string :=
  match s with
  | EmptyString => EmptyString
  | String c r => if Ascii.eqb c sep then EmptyString else String c (split_first r sep)
  end.

(** [str(z)]. *)
Definition str (z : Z) : string := pretty z.

(** [sorted(xs, key=...)] on the keys already computed: a stable sort,
    an element going before the first one whose key is strictly greater
    among those that followed it. *)
Fixpoint insert_sorted {K A} (leb : K -> K -> bool) (x : K * A) (l : list (K * A))
  : list (K * A) :=
  match l with
  | [] => [x]
  | y :: r => if leb x.1 y.1 then x :: y :: r else y :: insert_sorted leb x r
  end.

Fixpoint sorted {K A} (leb : K -> K -> bool) (l : list (K * A)) : list (K * A) :=
  match l with
  | [] => []
  | x :: r => insert_sorted leb x (sorted leb r)
  end.

End Pyx.

Notation "'let+' x := m 'in' k" := (Pyx.bind m (fun x => k))
  (at level 10, x pattern, m at level 100, k at level 200,
   format "'[v' 'let+'  x  :=  m  'in' '/' k ']'").
Notation "m >>> k" := (Pyx.bind m (fun _ => k))
  (at level 100, k at level 200, right associativity).

(** ** PaginatedListWidget and the list it shows *)

Module Paging.
Import Pyx.

(** A [QListWidget]: its rows and the current row, -1 when there is
    none. *)
Record QListWidget := { rows : list string; currentRow : Z }.

Definition clear (lw : QListWidget) : QListWidget :=
  {| rows := []; currentRow := -1 |}.

Definition addItem (lw : QListWidget) (item : string) : QListWidget :=
  {| rows := rows lw ++ [item]; currentRow := currentRow lw |}.

Definition count (lw : QListWidget) : Z := Z.of_nat (length (rows lw)).

(** [setCurrentRow(row)]: a row outside the list leaves no current row. *)
Definition setCurrentRow (lw : QListWidget) (row : Z) : QListWidget :=
  {| rows := rows lw;
     currentRow := if (0 <=? row) && (row <? count lw) then row else -1 |}.

(** [currentItem()]. *)
Definition currentItem (lw : QListWidget) : option string :=
  if currentRow lw <? 0 then None else rows lw !! Z.to_nat (currentRow lw).

Record PaginatedListWidget := {
  list_widget : QListWidget;
  items : list string;
  items_per_page : Z;
  current_page : Z;
  prev_button : bool;
  next_button : bool
}.

(** [PaginatedListWidget.update_display]. *)
Definition update_display (self : PaginatedListWidget) : PaginatedListWidget :=
  let start_index := current_page self * items_per_page self in
  let end_index := start_index + items_per_page self in
  {| list_widget :=
       fold_left addItem (slice (items self) start_index end_index)
                 (clear (list_widget self));
     items := items self;
     items_per_page := items_per_page self;
     current_page := current_page self;
     prev_button := 0 <? current_page self;
     next_button := end_index <? Z.of_nat (length (items self)) |}.

Definition set_page (self : PaginatedListWidget) (page : Z) : PaginatedListWidget :=
  {| list_widget := list_widget self; items := items self;
     items_per_page := items_per_page self; current_page := page;
     prev_button := prev_button self; next_button := next_button self |}.

Definition set_items (self : PaginatedListWidget) (l : list string)
  : PaginatedListWidget :=
  {| list_widget := list_widget self; items := l;
     items_per_page := items_per_page self; current_page := current_page self;
     prev_button := prev_button self; next_button := next_button self |}.

Definition set_list_widget (self : PaginatedListWidget) (lw : QListWidget)
  : PaginatedListWidget :=
  {| list_widget := lw; items := items self;
     items_per_page := items_per_page self; current_page := current_page self;
     prev_button := prev_button self; next_button := next_button self |}.

(** [PaginatedListWidget(items, items_per_page)]; the buttons of a new
    widget are enabled until [update_display] sets them. *)
Definition new (l : list string) (per_page : Z) : PaginatedListWidget :=
  update_display
    {| list_widget := {| rows := []; currentRow := -1 |}; items := l;
       items_per_page := per_page; current_page := 0;
       prev_button := true; next_button := true |}.

Definition next_page (self : PaginatedListWidget) : PaginatedListWidget :=
  update_display (set_page self (current_page self + 1)).

Definition previous_page (self : PaginatedListWidget) : PaginatedListWidget :=
  update_display (set_page self (current_page self - 1)).

(** What a user can do: a click on a button reaches its slot only when
    the button is enabled. *)
Inductive click := Next | Previous.

Definition press (self : PaginatedListWidget) (c : click) : PaginatedListWidget :=
  match c with
  | Next => if next_button self then next_page self else self
  | Previous => if prev_button self then previous_page self else self
  end.

(** The part of the main window around the list: the widget, the
    attribute [file_list], which no method assigns, and the message boxes
    shown. *)
Record window := {
  paginated_list : PaginatedListWidget;
  file_list : option (list string);
  informed : list (string * string)
}.

Definition set_paginated_list (f : PaginatedListWidget -> PaginatedListWidget)
    (w : window) : window :=
  {| paginated_list := f (paginated_list w); file_list := file_list w;
     informed := informed w |}.

Definition information (title text : string) (w : window) : window :=
  {| paginated_list := paginated_list w; file_list := file_list w;
     informed := informed w ++ [(title, text)] |}.

(** The window as [initUI] leaves it. *)
Definition init : window :=
  {| paginated_list := new [] 100; file_list := None; informed := [] |}.

(** [display_search_results] and [clear_search_results]. *)
Definition display_search_results (filtered_files : list string) : M window unit :=
  modify (set_paginated_list (fun p => set_items p filtered_files)) >>>
  modify (set_paginated_list (fun p => set_page p 0)) >>>
  modify (set_paginated_list update_display).

Definition clear_search_results : M window unit :=
  modify (set_paginated_list (fun p => set_items p [])) >>>
  modify (set_paginated_list (fun p => set_page p 0)) >>>
  modify (set_paginated_list update_display).

(** [update_search_results]. *)
Definition update_search_results (text : string) : M window unit :=
  if String.eqb (strip text) "" then clear_search_results
  else
    let+ w := get in
    match file_list w with
    | None => raise (Os Py.AttributeError)
    | Some file_list =>
        let filtered_files :=
          filter (fun filename => contains (lower text) (lower filename) = true)
                 file_list in
        display_search_results filtered_files
    end.

Inductive key := Key_Down | Key_Up | Key_Return | Key_Enter | Key_other.

(** [select_file]. *)
Definition select_file : M window unit :=
  let+ w := get in
  match currentItem (list_widget (paginated_list w)) with
  | Some selected_file =>
      modify (information "File Selected" ("Selected file: " ++ selected_file))
  | None => ret tt
  end.

(** [keyPressEvent]. *)
Definition keyPressEvent (event : key) : M window unit :=
  let+ w := get in
  let lw := list_widget (paginated_list w) in
  match event with
  | Key_Down =>
      let+ row := lift (mod_ (currentRow lw + 1) (count lw)) in
      modify (set_paginated_list (fun p => set_list_widget p (setCurrentRow lw row)))
  | Key_Up =>
      let+ row := lift (mod_ (currentRow lw - 1 + count lw) (count lw)) in
      modify (set_paginated_list (fun p => set_list_widget p (setCurrentRow lw row)))
  | Key_Return | Key_Enter => select_file
  | Key_other => ret tt
  end.

End Paging.
(** ** The main window: settings, treemap, sorting, deletion *)

Module MainWindow.
Import Pyx.

(** [theme_colors], in the order of the source. *)
Definition theme_colors : list (string * list string) :=
  [("Rainbow",
    ["#FFB554"; "#FFA054"; "#FF8054"; "#FF5454"; "#E64C8D"; "#D145C1";
     "#8C3FC0"; "#5240C3"; "#4262C7"; "#438CCB"; "#46ACD3"; "#45D2B0";
     "#4DC742"; "#8CD466"; "#C8E64C"; "#FFFF54"]);
   ("Green Eggs",
    ["#58A866"; "#AAE009"; "#9EFC7D"; "#FFF07A"; "#FBBF51"; "#FFFF00";
     "#009ACD"; "#FF2626"; "#E85AAA"; "#D1C57E"; "#CE95C8"; "#5ABFC6"]);
   ("Olive Sunset",
    ["#990033"; "#CC0033"; "#FF9966"; "#FFFFCC"; "#CCCC99"; "#CCCC33";
     "#999900"; "#666600"; "#003366"; "#006699"; "#3399CC"; "#99CCCC"]);
   ("Lagoon Nebula",
    ["#325086"; "#9ED5AE"; "#D86562"; "#845D4E"; "#F4AD6F"; "#98C8D6";
     "#5A272C"; "#CFAD4B"]);
   ("Monaco",
    ["#EC8921"; "#DB4621"; "#D92130"; "#38B236"; "#3DBFCC"; "#2A91D2";
     "#7378D4"])].

(** [d[k]] on a dictionary kept as a list of items. *)
Fixpoint lookup_key {V} (d : list (string * V)) (k : string) : exc + V :=
  match d with
  | [] => inl KeyError
  | (k', v) :: r => if String.eqb k' k then inr v else lookup_key r k
  end.

(** [self.settings]: the keys the window uses, each present or not. *)
Record settings := {
  color_theme : option string;
  recent_scans : option (list string);
  secure_delete_method : option string;
  secure_delete_passes : option Z
}.

(** The arguments of a call of [squarify.plot]; what the library does
    with them is not part of the program. *)
Record treemap := {
  labels : list string;
  sizes : list Z;
  colors : list string
}.

(** The attributes and the surroundings of the window: [settings_json] is
    the content of the file [settings.json], absent or the dictionary last
    dumped; [file_scanner_thread] is the directory of the thread last
    started; [tree] and [mtimes] are what [os.listdir], [os.stat] and
    [os.path.getmtime] see; [disk] is what [os.remove] acts on;
    [informed] are the message boxes shown and [drawn] the calls of
    [squarify.plot]. *)
Record window := {
  current_directory : option string;
  selected_file : option string;
  the_settings : settings;
  settings_json : option settings;
  progress_bar : Z;
  file_scanner_thread : option string;
  delete_button : bool;
  secure_delete_button : bool;
  tree : Scanner.world;
  mtimes : gmap string spec_float;
  disk : Eraser.world;
  informed : list (string * string);
  drawn : list treemap
}.

Definition set_current_directory (d : option string) (w : window) : window :=
  {| current_directory := d; selected_file := selected_file w;
     the_settings := the_settings w; settings_json := settings_json w;
     progress_bar := progress_bar w; file_scanner_thread := file_scanner_thread w;
     delete_button := delete_button w; secure_delete_button := secure_delete_button w;
     tree := tree w; mtimes := mtimes w; disk := disk w;
     informed := informed w; drawn := drawn w |}.

Definition set_selected_file (f : option string) (w : window) : window :=
  {| current_directory := current_directory w; selected_file := f;
     the_settings := the_settings w; settings_json := settings_json w;
     progress_bar := progress_bar w; file_scanner_thread := file_scanner_thread w;
     delete_button := delete_button w; secure_delete_button := secure_delete_button w;
     tree := tree w; mtimes := mtimes w; disk := disk w;
     informed := informed w; drawn := drawn w |}.

Definition set_settings (s : settings) (w : window) : window :=
  {| current_directory := current_directory w; selected_file := selected_file w;
     the_settings := s; settings_json := settings_json w;
     progress_bar := progress_bar w; file_scanner_thread := file_scanner_thread w;
     delete_button := delete_button w; secure_delete_button := secure_delete_button w;
     tree := tree w; mtimes := mtimes w; disk := disk w;
     informed := informed w; drawn := drawn w |}.

Definition set_settings_json (s : option settings) (w : window) : window :=
  {| current_directory := current_directory w; selected_file := selected_file w;
     the_settings := the_settings w; settings_json := s;
     progress_bar := progress_bar w; file_scanner_thread := file_scanner_thread w;
     delete_button := delete_button w; secure_delete_button := secure_delete_button w;
     tree := tree w; mtimes := mtimes w; disk := disk w;
     informed := informed w; drawn := drawn w |}.

Definition set_progress_bar (v : Z) (w : window) : window :=
  {| current_directory := current_directory w; selected_file := selected_file w;
     the_settings := the_settings w; settings_json := settings_json w;
     progress_bar := v; file_scanner_thread := file_scanner_thread w;
     delete_button := delete_button w; secure_delete_button := secure_delete_button w;
     tree := tree w; mtimes := mtimes w; disk := disk w;
     informed := informed w; drawn := drawn w |}.

Definition set_file_scanner_thread (d : option string) (w : window) : window :=
  {| current_directory := current_directory w; selected_file := selected_file w;
     the_settings := the_settings w; settings_json := settings_json w;
     progress_bar := progress_bar w; file_scanner_thread := d;
     delete_button := delete_button w; secure_delete_button := secure_delete_button w;
     tree := tree w; mtimes := mtimes w; disk := disk w;
     informed := informed w; drawn := drawn w |}.

Definition set_buttons (b : bool) (w : window) : window :=
  {| current_directory := current_directory w; selected_file := selected_file w;
     the_settings := the_settings w; settings_json := settings_json w;
     progress_bar := progress_bar w; file_scanner_thread := file_scanner_thread w;
     delete_button := b; secure_delete_button := b;
     tree := tree w; mtimes := mtimes w; disk := disk w;
     informed := informed w; drawn := drawn w |}.

Definition set_disk (d : Eraser.world) (w : window) : window :=
  {| current_directory := current_directory w; selected_file := selected_file w;
     the_settings := the_settings w; settings_json := settings_json w;
     progress_bar := progress_bar w; file_scanner_thread := file_scanner_thread w;
     delete_button := delete_button w; secure_delete_button := secure_delete_button w;
     tree := tree w; mtimes := mtimes w; disk := d;
     informed := informed w; drawn := drawn w |}.

Definition information (title text : string) (w : window) : window :=
  {| current_directory := current_directory w; selected_file := selected_file w;
     the_settings := the_settings w; settings_json := settings_json w;
     progress_bar := progress_bar w; file_scanner_thread := file_scanner_thread w;
     delete_button := delete_button w; secure_delete_button := secure_delete_button w;
     tree := tree w; mtimes := mtimes w; disk := disk w;
     informed := informed w ++ [(title, text)]; drawn := drawn w |}.

Definition draw (t : treemap) (w : window) : window :=
  {| current_directory := current_directory w; selected_file := selected_file w;
     the_settings := the_settings w; settings_json := settings_json w;
     progress_bar := progress_bar w; file_scanner_thread := file_scanner_thread w;
     delete_button := delete_button w; secure_delete_button := secure_delete_button w;
     tree := tree w; mtimes := mtimes w; disk := disk w;
     informed := informed w; drawn := drawn w ++ [t] |}.

(** [load_settings]: a missing [settings.json] gives the default. *)
Definition load_settings (file : option settings) : settings :=
  match file with
  | Some s => s
  | None => {| color_theme := Some "Monaco"; recent_scans := Some [];
               secure_delete_method := None; secure_delete_passes := None |}
  end.

(** [save_settings]. *)
Definition save_settings : M window unit :=
  let+ w := get in
  modify (set_settings_json (Some (the_settings w))).

(** A run of [os.remove] or of another operation of the eraser on the
    disk of the window. *)
Definition on_disk {A} (m : Py.M Eraser.world A) : M window A :=
  fun w => match m (disk w) with
           | (r, d) => (of_py r, set_disk d w)
           end.

(** The label of a rectangle: [f"{name}\n{size} bytes"]. *)
Definition label_of (name : string) (size : Z) : string :=
  (name ++ String "010" (str size ++ " bytes"))%string.

(** [create_interactive_treemap]; the argument [color_scheme] is not
    read. *)
Definition create_interactive_treemap (data : Scanner.DataFrame)
    (color_scheme : string) : M window unit :=
  let labels :=
    zip_with label_of (Scanner.file_names data) (Scanner.file_sizes data) in
  let sizes := Scanner.file_sizes data in
  let+ colors :=
    for_each (seq 0 (length (Scanner.file_names data)))
      (fun i acc =>
         let+ w := get in
         let+ theme := lift (match color_theme (the_settings w) with
                             | Some t => inr t
                             | None => inl KeyError
                             end) in
         let+ palette := lift (lookup_key theme_colors theme) in
         let+ j := lift (mod_ (Z.of_nat i) (Z.of_nat (length palette))) in
         let+ c := lift (getitem palette j) in
         ret (acc ++ [c])) [] in
  modify (draw {| labels := labels; sizes := sizes; colors := colors |}).

(** [display_data]. *)
Definition display_data (df : Scanner.DataFrame) : M window unit :=
  let+ w := get in
  let+ theme := lift (match color_theme (the_settings w) with
                      | Some t => inr t
                      | None => inl KeyError
                      end) in
  create_interactive_treemap df theme.

(** [scan_directory]: the thread is made for the current directory and
    started; it runs on its own. *)
Definition scan_directory : M window unit :=
  modify (set_progress_bar 0) >>>
  let+ w := get in
  modify (set_file_scanner_thread (current_directory w)).

(** [load_data], given the directory the dialog returns, empty when
    the dialog is cancelled. *)
Definition load_data (directory : string) : M window unit :=
  if String.eqb directory "" then ret tt
  else
    modify (set_current_directory (Some directory)) >>>
    let+ w := get in
    let s := the_settings w in
    let+ scans := lift (match recent_scans s with
                        | Some l => inr l
                        | None => inl KeyError
                        end) in
    (if bool_decide (directory ∈ scans) then ret tt
     else
       let inserted := directory :: scans in
       let kept := if 30 <? Z.of_nat (length inserted)
                   then removelast inserted else inserted in
       modify (set_settings
                 {| color_theme := color_theme s; recent_scans := Some kept;
                    secure_delete_method := secure_delete_method s;
                    secure_delete_passes := secure_delete_passes s |}) >>>
       save_settings) >>>
    scan_directory.

(** [load_recent_scan]. *)
Definition load_recent_scan (directory : string) (dialog : string) : M window unit :=
  modify (set_current_directory (Some directory)) >>>
  load_data dialog.

(** [update_passes]. *)
Definition update_passes (value : Z) : M window unit :=
  let+ w := get in
  let s := the_settings w in
  modify (set_settings
            {| color_theme := color_theme s; recent_scans := recent_scans s;
               secure_delete_method := secure_delete_method s;
               secure_delete_passes := Some value |}) >>>
  save_settings.

(** [on_click]: [event] is absent when the click has no data
    coordinates; otherwise it tells, for each patch of the axes in order,
    whether the patch contains the point, and gives its label. *)
Definition clicked_name (label : string) : string := split_first label "010".

Fixpoint first_hit (patches : list (bool * string)) : option string :=
  match patches with
  | [] => None
  | (contains_point, label) :: r =>
      if contains_point then Some label else first_hit r
  end.

Definition on_click (event : option (list (bool * string))) : M window unit :=
  match event with
  | None => ret tt
  | Some patches =>
      match first_hit patches with
      | None => ret tt
      | Some label =>
          let file_name := clicked_name label in
          modify (set_selected_file (Some file_name)) >>>
          modify (set_buttons true) >>>
          modify (information "File Selected" ("Selected file: " ++ file_name))
      end
  end.

(** [get_selected_file]. *)
Definition get_selected_file (w : window) : option string :=
  match selected_file w with
  | Some f => if String.eqb f "" then None else Some f
  | None => None
  end.

(** [delete_file]. *)
Definition delete_file : M window unit :=
  let+ w := get in
  match get_selected_file w with
  | None => ret tt
  | Some selected =>
      let+ directory := lift (match current_directory w with
                              | Some d => inr d
                              | None => inl TypeError
                              end) in
      let file_path := Py.os_path_join directory selected in
      on_disk (Eraser.os_remove file_path) >>>
      modify (information "Success" ("Deleted " ++ selected)) >>>
      modify (set_buttons false)
  end.

(** [os.path.splitext(p)[1]]: from the last dot of the last component,
    unless only dots precede it there. *)
Fixpoint last_index (c : ascii) (s : string) (i : nat) : option nat :=
  match s with
  | EmptyString => None
  | String x r =>
      match last_index c r (S i) with
      | Some j => Some j
      | None => if Ascii.eqb x c then Some i else None
      end
  end.

Definition splitext_ext (p : string) : string :=
  let sep := match last_index "/" p 0 with Some i => Z.of_nat i | None => -1 end in
  match last_index "." p 0 with
  | None => ""
  | Some dot =>
      if Z.of_nat dot <=? sep then ""
      else
        let name_start := Z.to_nat (sep + 1) in
        let before := String.substring name_start (dot - name_start) p in
        if forallb (fun x => Ascii.eqb x ".") (String.list_ascii_of_string before)
        then ""
        else String.substring dot (String.length p - dot) p
  end.

(** [os.path.getsize] and [os.path.getmtime]. *)
Definition getsize (w : window) (path : string) : exc + Z :=
  of_py (Scanner.os_stat_size (tree w) path).

Definition getmtime (w : window) (path : string) : exc + spec_float :=
  match mtimes w !! path with
  | Some t => inr t
  | None => inl (Os Py.FileNotFoundError)
  end.

(** The keys of a sort, one call of the key function for each element,
    in order. *)
Fixpoint with_keys {K} (key : string -> exc + K) (l : list string)
  : exc + list (K * string) :=
  match l with
  | [] => inr []
  | x :: r =>
      match key x with
      | inl e => inl e
      | inr k =>
          match with_keys key r with
          | inl e => inl e
          | inr kr => inr ((k, x) :: kr)
          end
      end
  end.

Definition sorted_by {K} (leb : K -> K -> bool) (key : string -> exc + K)
    (l : list string) : exc + list string :=
  match with_keys key l with
  | inl e => inl e
  | inr kl => inr (map snd (sorted leb kl))
  end.

(** [apply_sort]. *)
Definition apply_sort (sort_by : string) : M window unit :=
  let+ w := get in
  match current_directory w with
  | None => modify (information "Error" "No directory selected.")
  | Some directory =>
      if String.eqb directory "" then
        modify (information "Error" "No directory selected.")
      else
        let+ files := lift (of_py (Scanner.os_listdir (tree w) directory)) in
        let+ sorted_files :=
          lift (if String.eqb sort_by "name" then
                  sorted_by String.leb (fun x => inr x) files
                else if String.eqb sort_by "size" then
                  sorted_by Z.leb
                    (fun x => getsize w (Py.os_path_join directory x)) files
                else if String.eqb sort_by "type" then
                  sorted_by String.leb (fun x => inr (splitext_ext x)) files
                else if String.eqb sort_by "date" then
                  sorted_by (SFleb)
                    (fun x => getmtime w (Py.os_path_join directory x)) files
                else inl UnboundLocalError) in
        let+ file_details :=
          lift (with_keys (fun f => getsize w (Py.os_path_join directory f))
                          sorted_files) in
        let df := {| Scanner.file_names := map snd file_details;
                     Scanner.file_sizes := map fst file_details |} in
        display_data df
  end.

End MainWindow.
(** ** The first window: walking a tree, dark mode, secure deletion *)

Module FirstWindow.
Import Pyx.

(** How a loop that may not end is run: with a bound on the number of
    turns of its inner loop. *)
Inductive outcome (A : Type) :=
| Done (a : A)
| Raised (e : exc)
| OutOfFuel.
Arguments Done {A} a.
Arguments Raised {A} e.
Arguments OutOfFuel {A}.

(** The table [pd.DataFrame({'File': files, 'Size': sizes})]. *)
Record table := { File : list string; Size : list Z }.

Inductive plot :=
| matplotlib_treemap (data : table)
| plotly_treemap (data : table).

(** The attributes and the surroundings of the window: the current texts
    of the two combo boxes and the value of the spin box; the style sheet;
    the content of [dark_mode.qss], if the file exists; what [os.walk]
    yields for a top directory, as triples (root, dirs, files); the inodes
    [os.path.getsize] reads; the thread last started; the warnings shown
    and the calls of the two plotting methods. *)
Record window := {
  current_directory : option string;
  deletion_method : string;
  passes_spinbox : Z;
  visualization_type : string;
  styleSheet : string;
  dark_mode_qss : option string;
  os_walk : string -> list (string * (list string * list string));
  tree : Scanner.world;
  secure_delete_thread : option Eraser.SecureDeleteThread;
  warned : list (string * string);
  plotted : list plot
}.

Definition set_current_directory (d : option string) (w : window) : window :=
  {| current_directory := d; deletion_method := deletion_method w;
     passes_spinbox := passes_spinbox w; visualization_type := visualization_type w;
     styleSheet := styleSheet w; dark_mode_qss := dark_mode_qss w;
     os_walk := os_walk w; tree := tree w;
     secure_delete_thread := secure_delete_thread w;
     warned := warned w; plotted := plotted w |}.

Definition setStyleSheet (s : string) (w : window) : window :=
  {| current_directory := current_directory w; deletion_method := deletion_method w;
     passes_spinbox := passes_spinbox w; visualization_type := visualization_type w;
     styleSheet := s; dark_mode_qss := dark_mode_qss w;
     os_walk := os_walk w; tree := tree w;
     secure_delete_thread := secure_delete_thread w;
     warned := warned w; plotted := plotted w |}.

Definition set_secure_delete_thread (t : Eraser.SecureDeleteThread) (w : window)
  : window :=
  {| current_directory := current_directory w; deletion_method := deletion_method w;
     passes_spinbox := passes_spinbox w; visualization_type := visualization_type w;
     styleSheet := styleSheet w; dark_mode_qss := dark_mode_qss w;
     os_walk := os_walk w; tree := tree w;
     secure_delete_thread := Some t;
     warned := warned w; plotted := plotted w |}.

Definition warning (title text : string) (w : window) : window :=
  {| current_directory := current_directory w; deletion_method := deletion_method w;
     passes_spinbox := passes_spinbox w; visualization_type := visualization_type w;
     styleSheet := styleSheet w; dark_mode_qss := dark_mode_qss w;
     os_walk := os_walk w; tree := tree w;
     secure_delete_thread := secure_delete_thread w;
     warned := warned w ++ [(title, text)]; plotted := plotted w |}.

Definition show_plot (p : plot) (w : window) : window :=
  {| current_directory := current_directory w; deletion_method := deletion_method w;
     passes_spinbox := passes_spinbox w; visualization_type := visualization_type w;
     styleSheet := styleSheet w; dark_mode_qss := dark_mode_qss w;
     os_walk := os_walk w; tree := tree w;
     secure_delete_thread := secure_delete_thread w;
     warned := warned w; plotted := plotted w ++ [p] |}.

(** The items of the combo box [deletion_method]. *)
Definition deletion_methods : list string :=
  ["Zero Fill"; "Random Fill"; "DoD 5220.22-M"; "AES Wipe"].

(** [if not self.current_directory]. *)
Definition directory_of (w : window) : option string :=
  match current_directory w with
  | Some d => if String.eqb d "" then None else Some d
  | None => None
  end.

(** The inner loop of [update_visualization], [for file in files], where
    [files] is the list the loop itself appends to: the iterator reads the
    element at position [i] of the list as it is at that moment. *)
Fixpoint inner_loop (fuel : nat) (w : window) (root : string) (i : nat)
    (files : list string) (sizes : list Z) : outcome (list string * list Z) :=
  match files !! i with
  | None => Done (files, sizes)
  | Some file =>
      match fuel with
      | O => OutOfFuel
      | S fuel' =>
          let file_path := Py.os_path_join root file in
          match of_py (Scanner.os_stat_size (tree w) file_path) with
          | inl e => Raised e
          | inr size =>
              inner_loop fuel' w root (S i) (files ++ [file_path]) (sizes ++ [size])
          end
      end
  end.

(** The outer loop, [for root, dirs, files in os.walk(...)]: each turn
    binds [files] anew. *)
Fixpoint outer_loop (fuel : nat) (w : window)
    (walk : list (string * (list string * list string)))
    (files : list string) (sizes : list Z) : outcome (list string * list Z) :=
  match walk with
  | [] => Done (files, sizes)
  | (root, (dirs, files')) :: rest =>
      match inner_loop fuel w root 0 files' sizes with
      | Done (files'', sizes') => outer_loop fuel w rest files'' sizes'
      | Raised e => Raised e
      | OutOfFuel => OutOfFuel
      end
  end.

(** [update_visualization]. *)
Definition update_visualization (fuel : nat) (w : window) : outcome window :=
  match directory_of w with
  | None => Done w
  | Some directory =>
      match outer_loop fuel w (os_walk w directory) [] [] with
      | Raised e => Raised e
      | OutOfFuel => OutOfFuel
      | Done (files, sizes) =>
          let data := {| File := files; Size := sizes |} in
          if String.eqb (visualization_type w) "Matplotlib Treemap" then
            Done (show_plot (matplotlib_treemap data) w)
          else if String.eqb (visualization_type w) "Plotly Treemap" then
            Done (show_plot (plotly_treemap data) w)
          else Done w
      end
  end.

(** [load_data], given the directory the dialog returns. *)
Definition load_data (fuel : nat) (directory : string) (w : window) : outcome window :=
  if String.eqb directory "" then Done w
  else update_visualization fuel (set_current_directory (Some directory) w).

(** [toggle_dark_mode]. *)
Definition toggle_dark_mode : M window unit :=
  let+ w := get in
  if negb (String.eqb (styleSheet w) "") then modify (setStyleSheet "")
  else
    match dark_mode_qss w with
    | None => raise (Os Py.FileNotFoundError)
    | Some content => modify (setStyleSheet content)
    end.

(** [start_secure_delete]: the thread is made and started; it runs on
    its own. *)
Definition start_secure_delete (file_path method : string) (passes : Z)
  : M window unit :=
  modify (set_secure_delete_thread
            {| Eraser.file_path := file_path; Eraser.method := method;
               Eraser.passes := passes |}).

(** The first directory of the walk that has a file. *)
Fixpoint first_with_files (walk : list (string * (list string * list string)))
  : option (string * string) :=
  match walk with
  | [] => None
  | (root, (dirs, files)) :: rest =>
      match files with
      | f :: _ => Some (root, f)
      | [] => first_with_files rest
      end
  end.

(** [secure_delete]. *)
Definition secure_delete : M window unit :=
  let+ w := get in
  match directory_of w with
  | None => modify (warning "Error" "No directory selected.")
  | Some directory =>
      let selected_method := replace (lower (deletion_method w)) " " "_" in
      let passes := passes_spinbox w in
      match first_with_files (os_walk w directory) with
      | Some (root, file) =>
          start_secure_delete (Py.os_path_join root file) selected_method passes
      | None => ret tt
      end
  end.

End FirstWindow.

(** ** The Tk window of the notes: load_data *)

Module TkWindow.
Import Pyx.

(** [a + b]. *)
Definition add (a b : Py.number) : exc + Py.number :=
  match a, b with
  | Py.PyInt x, Py.PyInt y => inr (Py.PyInt (x + y))
  | Py.PyInt x, Py.PyFloat y =>
      match Py.float_of_int x with
      | inl e => inl (Os e)
      | inr x' => inr (Py.PyFloat (SFadd Py.prec Py.emax x' y))
      end
  | Py.PyFloat x, Py.PyInt y =>
      match Py.float_of_int y with
      | inl e => inl (Os e)
      | inr y' => inr (Py.PyFloat (SFadd Py.prec Py.emax x y'))
      end
  | Py.PyFloat x, Py.PyFloat y => inr (Py.PyFloat (SFadd Py.prec Py.emax x y))
  end.

(** The window: the values the progress bar was given, the last one
    being its value; the table [self.data]; the calls of
    [create_interactive_treemap], whose text is cut short in the notes. *)
Record window := {
  progress : list Py.number;
  data : option Scanner.DataFrame;
  treemaps : list (Scanner.DataFrame * string);
  tree : Scanner.world
}.

Definition set_progress (v : Py.number) (w : window) : window :=
  {| progress := progress w ++ [v]; data := data w; treemaps := treemaps w;
     tree := tree w |}.

Definition set_data (d : Scanner.DataFrame) (w : window) : window :=
  {| progress := progress w; data := Some d; treemaps := treemaps w;
     tree := tree w |}.

Definition request_treemap (d : Scanner.DataFrame) (scheme : string) (w : window)
  : window :=
  {| progress := progress w; data := data w;
     treemaps := treemaps w ++ [(d, scheme)]; tree := tree w |}.

Definition progress_value (w : window) : Py.number :=
  List.last (progress w) (Py.PyInt 0).

(** The body of the loop of [load_data]. *)
Definition loop_body (directory : string) (increment : Py.number)
    (it : Z * string) (acc : list Z * list string)
  : M window (list Z * list string) :=
  let '(index, filename) := it in
  let '(file_sizes, file_names) := acc in
  let+ w := get in
  let path := Py.os_path_join directory filename in
  let+ acc' :=
    (if Scanner.os_path_isfile (tree w) path
     then let+ sz := lift (of_py (Scanner.os_stat_size (tree w) path)) in
          ret (file_sizes ++ [sz], file_names ++ [filename])
     else ret (file_sizes, file_names)) in
  let+ v := lift (add (progress_value w) increment) in
  modify (set_progress v) >>>
  ret acc'.

(** [load_data], given the directory the dialog returns. *)
Definition load_data (directory : string) : M window unit :=
  if String.eqb directory "" then ret tt
  else
    modify (set_progress (Py.PyInt 0)) >>>
    let+ w := get in
    let+ listed := lift (of_py (Scanner.os_listdir (tree w) directory)) in
    let total_files := Z.of_nat (length listed) in
    let+ increment := lift (of_py (Py.int_truediv 100 total_files)) in
    let+ names := lift (of_py (Scanner.os_listdir (tree w) directory)) in
    let+ acc := for_each (Py.enumerate names) (loop_body directory increment) ([], []) in
    let '(file_sizes, file_names) := acc in
    let df := {| Scanner.file_names := file_names; Scanner.file_sizes := file_sizes |} in
    modify (set_data df) >>>
    modify (request_treemap df "Rainbow").

End TkWindow.

(** ** Vocabulary of the properties of the windows *)

(** What [update_display] leaves depends on the list, the page size and
    the page only. *)
Definition page_of (l : list string) (per page : Z) : Paging.PaginatedListWidget :=
  {| Paging.list_widget :=
       {| Paging.rows := Pyx.slice l (page * per) (page * per + per);
          Paging.currentRow := -1 |};
     Paging.items := l; Paging.items_per_page := per; Paging.current_page := page;
     Paging.prev_button := 0 <? page;
     Paging.next_button := page * per + per <? Z.of_nat (length l) |}.

(** The pages seen by pressing Next for as long as the button is
    enabled, at most [fuel] times. *)
Fixpoint browse (fuel : nat) (self : Paging.PaginatedListWidget) : list (list string) :=
  Paging.rows (Paging.list_widget self) ::
  (if Paging.next_button self then
     match fuel with
     | O => []
     | S fuel' => browse fuel' (Paging.next_page self)
     end
   else []).

(** The window with the given current row in its list. *)
Definition with_row (w : Paging.window) (row : Z) : Paging.window :=
  Paging.set_paginated_list
    (fun p => Paging.set_list_widget p
                (Paging.setCurrentRow (Paging.list_widget (Paging.paginated_list w)) row))
    w.

(** The settings with the given recent scans. *)
Definition with_recent_scans (s : MainWindow.settings) (l : list string)
  : MainWindow.settings :=
  {| MainWindow.color_theme := MainWindow.color_theme s;
     MainWindow.recent_scans := Some l;
     MainWindow.secure_delete_method := MainWindow.secure_delete_method s;
     MainWindow.secure_delete_passes := MainWindow.secure_delete_passes s |}.

(** What [scan_directory] leaves. *)
Definition scan_started (directory : string) (w : MainWindow.window)
  : MainWindow.window :=
  MainWindow.set_file_scanner_thread (Some directory)
    (MainWindow.set_progress_bar 0 w).

(** The colour of row [i]: the palette taken round and round. *)
Definition color_at (palette : list string) (i : nat) : string :=
  nth (i mod length palette) palette "".

(** [n] clicks on the dark mode action, one after the other. *)
Fixpoint toggles (n : nat) : Pyx.M FirstWindow.window unit :=
  match n with
  | O => Pyx.ret tt
  | S n' => FirstWindow.toggle_dark_mode >>> toggles n'
  end.

(** What [update_visualization] leaves for a table with no row: the call
    of the plotting method of the chosen kind, if any. *)
Definition plot_nothing (w : FirstWindow.window) : FirstWindow.window :=
  let data := {| FirstWindow.File := []; FirstWindow.Size := [] |} in
  if String.eqb (FirstWindow.visualization_type w) "Matplotlib Treemap" then
    FirstWindow.show_plot (FirstWindow.matplotlib_treemap data) w
  else if String.eqb (FirstWindow.visualization_type w) "Plotly Treemap" then
    FirstWindow.show_plot (FirstWindow.plotly_treemap data) w
  else w.

(** The values a progress bar takes when [q] is added [n] times to a bar
    at [x]. *)
Fixpoint steps (q x : spec_float) (n : nat) : list spec_float :=
  match n with
  | O => []
  | S n' => SFadd Py.prec Py.emax x q :: steps q (SFadd Py.prec Py.emax x q) n'
  end.

(** The regular files of a listing, hidden ones included. *)
Definition regular_files (w : Scanner.world) (directory : string)
    (names : list string) : list string :=
  filter (fun f => Scanner.os_path_isfile w (Py.os_path_join directory f) = true) names.

(** ** Scenarios of the windows *)

Definition five_items : list string := ["a"; "b"; "c"; "d"; "e"].

(** The search list showing the five items on one page. *)
Definition search_window : Paging.window :=
  Paging.set_paginated_list (fun _ => Paging.new five_items 100) Paging.init.

(** The listing of [/tmp/d] used for the windows. *)
Definition listing : list string := ["b"; ".hidden"; "a.txt"].

(** The main window on [/tmp/d] with [a.txt] selected, the given theme
    and [/tmp/d] as its one recent scan. *)
Definition main_window (theme : string) : MainWindow.window :=
  {| MainWindow.current_directory := Some "/tmp/d";
     MainWindow.selected_file := Some "a.txt";
     MainWindow.the_settings :=
       {| MainWindow.color_theme := Some theme;
          MainWindow.recent_scans := Some ["/tmp/d"];
          MainWindow.secure_delete_method := None;
          MainWindow.secure_delete_passes := None |};
     MainWindow.settings_json := None;
     MainWindow.progress_bar := 42;
     MainWindow.file_scanner_thread := None;
     MainWindow.delete_button := true;
     MainWindow.secure_delete_button := true;
     MainWindow.tree := Scanner.tmp_d listing;
     MainWindow.mtimes := ∅;
     MainWindow.disk := disk_a;
     MainWindow.informed := [];
     MainWindow.drawn := [] |}.

(** The first window on [/tmp/d], with the given item of the method
    menu and the given walk. *)
Definition first_window (method : string)
    (walk : list (string * (list string * list string))) : FirstWindow.window :=
  {| FirstWindow.current_directory := Some "/tmp/d";
     FirstWindow.deletion_method := method;
     FirstWindow.passes_spinbox := 3;
     FirstWindow.visualization_type := "Matplotlib Treemap";
     FirstWindow.styleSheet := "";
     FirstWindow.dark_mode_qss := Some "QWidget { color: white; }";
     FirstWindow.os_walk := fun _ => walk;
     FirstWindow.tree := Scanner.tmp_d listing;
     FirstWindow.secure_delete_thread := None;
     FirstWindow.warned := [];
     FirstWindow.plotted := [] |}.

Definition walk_d : list (string * (list string * list string)) :=
  [("/tmp/d", (["b"], [".hidden"; "a.txt"])); ("/tmp/d/b", ([], []))].

Definition walk_empty : list (string * (list string * list string)) :=
  [("/tmp/d", (["b"], [])); ("/tmp/d/b", ([], []))].

(** The Tk window before any load, on [/tmp/d] with the given listing. *)
Definition tk_window (names : list string) : TkWindow.window :=
  {| TkWindow.progress := []; TkWindow.data := None; TkWindow.treemaps := [];
     TkWindow.tree := Scanner.tmp_d names |}.

(** * Properties *)

(** ** The monad *)

Section MonadFacts.
Import Py.
Context {S : Type}.

Lemma bind_inr {A B} (m : M S A) (k : A -> M S B) s a s' :
  m s = (inr a, s') -> bind m k s = k a s'.
Proof. unfold bind. intros ->. reflexivity. Qed.

Lemma bind_inl {A B} (m : M S A) (k : A -> M S B) s e s' :
  m s = (inl e, s') -> bind m k s = (inl e, s').
Proof. unfold bind. intros ->. reflexivity. Qed.

Lemma bind_inv {A B} (m : M S A) (k : A -> M S B) s r s'' :
  bind m k s = (r, s'') ->
  (exists e, m s = (inl e, s'') /\ r = inl e) \/
  (exists a s', m s = (inr a, s') /\ k a s' = (r, s'')).
Proof.
  unfold bind. destruct (m s) as [[e|a] s'] eqn:E; intros H.
  - left. exists e. inversion H; subst. auto.
  - right. exists a, s'. auto.
Qed.

End MonadFacts.

(** ** FileScannerThread *)

Section ScanLoop.
Import Py Scanner.
Variable w : world.
Variable directory : string.
Variable increment : number.

Lemma stat_of_plain f :
  os_path_isfile w (os_path_join directory f) = true ->
  os_stat_size w (os_path_join directory f) = inr (size_of w directory f).
Proof.
  unfold os_path_isfile, os_stat_size, size_of.
  destruct (inodes w !! os_path_join directory f); [reflexivity|discriminate].
Qed.

(** One turn of the loop, by cases. *)
Lemma loop_body_hidden i f acc out :
  visible f = false -> loop_body w directory increment (i, f) acc out = (inr acc, out).
Proof.
  unfold visible, loop_body. destruct acc as [fs fn].
  destruct (startswith f "."); [reflexivity|discriminate].
Qed.

Lemma loop_body_visible i f fs fn out :
  visible f = true ->
  loop_body w directory increment (i, f) (fs, fn) out =
  match percent increment i with
  | inl e => (inl e, out)
  | inr p =>
      (inr (if plain w directory f
            then (fs ++ [size_of w directory f], fn ++ [f])
            else (fs, fn)),
       out ++ [progress p])
  end.
Proof.
  unfold visible, loop_body, plain, visible, percent. intros Hv.
  destruct (startswith f "."); [discriminate|]. simpl negb. cbn [andb].
  destruct (os_path_isfile w (os_path_join directory f)) eqn:Hf.
  - rewrite (stat_of_plain _ Hf). unfold bind, lift, ret, emit, modify.
    destruct (mul (PyInt (i + 1)) increment) as [e|x]; [reflexivity|].
    destruct (int x); reflexivity.
  - unfold bind, lift, ret, emit, modify.
    destruct (mul (PyInt (i + 1)) increment) as [e|x]; [reflexivity|].
    destruct (int x); reflexivity.
Qed.

(** What the loop has collected when it ends normally, and the fact that
    it emits no result. *)
Lemma loop_collects names : forall i fs fn out r out',
  for_each (enumerate_from i names) (loop_body w directory increment) (fs, fn) out
    = (r, out') ->
  results out' = results out /\
  forall acc, r = inr acc ->
    acc = (fs ++ map (size_of w directory) (filter (fun f => plain w directory f = true) names),
           fn ++ filter (fun f => plain w directory f = true) names).
Proof.
  induction names as [|f names IH]; intros i fs fn out r out' H.
  - cbn in H. inversion H; subst. split; [reflexivity|].
    intros acc [= <-]. cbn. rewrite !app_nil_r. reflexivity.
  - cbn [enumerate_from for_each] in H.
    destruct (visible f) eqn:Hv.
    + apply bind_inv in H as [(e & H & ->)|(a & s' & H & Hk)];
        rewrite (loop_body_visible _ _ _ _ _ Hv) in H;
        destruct (percent increment i) as [e'|p]; inversion H; subst.
      * split; [reflexivity|discriminate].
      * assert (Hres : results (out ++ [progress p]) = results out).
        { unfold results. rewrite omap_app. cbn. apply app_nil_r. }
        rewrite filter_cons.
        destruct (plain w directory f) eqn:Hp.
        -- apply IH in Hk as [Ho Ha]. split; [congruence|].
           intros acc Hacc. rewrite (Ha _ Hacc).
           rewrite decide_True by reflexivity. cbn. rewrite <- !app_assoc. reflexivity.
        -- apply IH in Hk as [Ho Ha]. split; [congruence|].
           intros acc Hacc. rewrite (Ha _ Hacc).
           rewrite decide_False by discriminate. reflexivity.
    + rewrite (bind_inr _ _ _ _ _ (loop_body_hidden i f (fs, fn) out Hv)) in H.
      apply IH in H as [Ho Ha]. split; [exact Ho|].
      intros acc Hacc. rewrite (Ha _ Hacc). rewrite filter_cons.
      assert (plain w directory f = false) as Hp by (unfold plain; rewrite Hv; reflexivity).
      rewrite decide_False by (rewrite Hp; discriminate). reflexivity.
Qed.

(** When the arithmetic of every visible entry succeeds, the loop ends
    normally and has emitted exactly those values, in order. *)
Lemma loop_emits names : forall i acc out ps,
  Forall2 (fun it p => percent increment it.1 = inr p)
          (filter (fun it => visible it.2 = true) (enumerate_from i names)) ps ->
  exists acc',
    for_each (enumerate_from i names) (loop_body w directory increment) acc out
      = (inr acc', out ++ map progress ps).
Proof.
  induction names as [|f names IH]; intros i acc out ps H.
  - cbn in H. inversion H; subst. exists acc. cbn. rewrite app_nil_r. reflexivity.
  - cbn [enumerate_from for_each] in *. rewrite filter_cons in H. cbn [snd] in H.
    destruct acc as [fs fn].
    destruct (visible f) eqn:Hv.
    + rewrite decide_True in H by reflexivity.
      inversion H as [|it p its ps' Hp Hrest]; subst. cbn [fst] in Hp.
      destruct (IH (i + 1) (if plain w directory f
            then (fs ++ [size_of w directory f], fn ++ [f])
            else (fs, fn)) (out ++ [progress p]) ps' Hrest) as [acc' Hacc].
      exists acc'. erewrite bind_inr.
      2:{ rewrite (loop_body_visible _ _ _ _ _ Hv), Hp. reflexivity. }
      rewrite Hacc. cbn. rewrite <- app_assoc. reflexivity.
    + rewrite decide_False in H by discriminate.
      destruct (IH (i + 1) (fs, fn) out ps H) as [acc' Hacc].
      exists acc'. erewrite bind_inr by (apply loop_body_hidden; exact Hv).
      exact Hacc.
Qed.

End ScanLoop.

(** ** Binary64 arithmetic never fails on the sizes of a listing

    [binary_round_aux] yields a finite number whenever its argument is
    below [2 ^ emax]; this bounds the results of the conversion, the
    division and the product that [run] evaluates. *)

Section FloatFacts.
Import Py.

Lemma digits2_pos_size p : digits2_pos p = Pos.size p.
Proof. induction p; cbn; congruence. Qed.

Lemma digits_upper m : 0 <= m -> m < 2 ^ Zdigits2 m.
Proof.
  destruct m as [|p|p]; intros H; [cbn; lia| |lia].
  cbn [Zdigits2]. rewrite digits2_pos_size.
  pose proof (Pos.size_gt p) as G.
  rewrite <- Pos2Z.inj_pow. lia.
Qed.

Lemma digits_lower p : 2 ^ (Zpos (digits2_pos p) - 1) <= Zpos p.
Proof.
  rewrite digits2_pos_size.
  pose proof (Pos.size_le p) as G.
  assert (2 ^ Z.pos (Pos.size p) <= 2 * Z.pos p).
  { rewrite <- Pos2Z.inj_pow. lia. }
  replace (Z.pos (Pos.size p)) with (Z.succ (Z.pos (Pos.size p) - 1)) in H by lia.
  rewrite Z.pow_succ_r in H by lia. lia.
Qed.

Lemma digits_nonneg m : 0 <= Zdigits2 m.
Proof. destruct m; cbn; lia. Qed.

(** [m < 2^k] bounds the number of digits by [k]. *)
Lemma digits_le m k : 0 <= m -> 0 <= k -> m < 2 ^ k -> Zdigits2 m <= k.
Proof.
  intros Hm Hk H. destruct m as [|p|p]; [cbn; lia| |lia].
  cbn [Zdigits2]. pose proof (digits_lower p) as L.
  destruct (Z_lt_le_dec k (Zpos (digits2_pos p))) as [C|C]; [|exact C].
  exfalso. assert (2 ^ k <= 2 ^ (Zpos (digits2_pos p) - 1)) by (apply Z.pow_le_mono_r; lia).
  lia.
Qed.

Lemma shr_1_m r : 0 <= shr_m r -> shr_m (shr_1 r) = shr_m r / 2.
Proof.
  destruct r as [m b s]. cbn [shr_m]. intros H.
  destruct m as [|[p|p|]|p]; cbn [shr_1 shr_m]; try lia.
  - reflexivity.
  - apply Z.div_unique with 1; lia.
  - apply Z.div_unique with 0; lia.
  - reflexivity.
Qed.

Lemma iter_shr_m p : forall r, 0 <= shr_m r ->
  shr_m (SpecFloat.iter_pos shr_1 p r) = shr_m r / 2 ^ Zpos p.
Proof.
  induction p as [p IH|p IH|]; intros r H; cbn [SpecFloat.iter_pos].
  - assert (0 < 2 ^ Z.pos p) as P by (apply Z.pow_pos_nonneg; lia).
    assert (0 <= shr_m (shr_1 r)) by (rewrite shr_1_m by exact H; apply Z.div_pos; lia).
    assert (0 <= shr_m (SpecFloat.iter_pos shr_1 p (shr_1 r))) by (rewrite IH by assumption; apply Z.div_pos; lia).
    rewrite IH, IH, shr_1_m by assumption.
    replace (Z.pos p~1) with (1 + Z.pos p + Z.pos p) by lia.
    rewrite !Z.pow_add_r, Z.pow_1_r by lia.
    rewrite !Z.div_div by lia. f_equal. lia.
  - assert (0 < 2 ^ Z.pos p) as P by (apply Z.pow_pos_nonneg; lia).
    assert (0 <= shr_m (SpecFloat.iter_pos shr_1 p r)) by (rewrite IH by assumption; apply Z.div_pos; lia).
    rewrite IH, IH by assumption.
    replace (Z.pos p~0) with (Z.pos p + Z.pos p) by lia.
    rewrite Z.pow_add_r by lia. rewrite Z.div_div by lia. reflexivity.
  - rewrite shr_1_m by exact H. reflexivity.
Qed.

Lemma shr_record_of_loc_m m l : shr_m (shr_record_of_loc m l) = m.
Proof. destruct l as [|[]]; reflexivity. Qed.

(** The shifted mantissa and exponent of [shr_fexp]. *)
Lemma shr_fexp_spec m e l : 0 <= m ->
  let '(r, e') := shr_fexp prec emax m e l in
  0 <= shr_m r /\
  ((e' = e /\ shr_m r = m /\ fexp prec emax (Zdigits2 m + e) <= e) \/
 (e' = fexp prec emax (Zdigits2 m + e) /\ e < e' /\ shr_m r = m / 2 ^ (e' - e))).
Proof.
  intros Hm. unfold shr_fexp, shr.
  destruct (fexp prec emax (Zdigits2 m + e) - e) as [|n|n] eqn:En.
  - rewrite shr_record_of_loc_m. split; [exact Hm|]. left. repeat split; lia.
  - rewrite iter_shr_m by (rewrite shr_record_of_loc_m; exact Hm).
    rewrite shr_record_of_loc_m. split; [apply Z.div_pos; lia|].
    right. split; [lia|]. split; [lia|]. f_equal. f_equal. lia.
  - rewrite shr_record_of_loc_m. split; [exact Hm|]. left. repeat split; lia.
Qed.

Lemma round_nearest_even_bounds m l : 0 <= m ->
  m <= round_nearest_even m l <= m + 1.
Proof.
  intros H. destruct l as [|[]]; cbn [round_nearest_even]; try lia.
  destruct (Z.even m); lia.
Qed.


Lemma digits_div m k : 0 <= m -> 0 <= k ->
  Zdigits2 (m / 2 ^ k) <= Z.max 0 (Zdigits2 m - k).
Proof.
  intros Hm Hk.
  assert (0 <= m / 2 ^ k) by (apply Z.div_pos; lia).
  pose proof (digits_upper m Hm) as U. pose proof (digits_nonneg m) as N.
  destruct (Z_le_gt_dec k (Zdigits2 m)) as [C|C].
  - rewrite Z.max_r by lia. apply digits_le; [assumption|lia|].
    apply Z.div_lt_upper_bound; [lia|]. rewrite <- Z.pow_add_r by lia.
    replace (k + (Zdigits2 m - k)) with (Zdigits2 m) by lia. exact U.
  - rewrite Z.max_l by lia.
    assert (m / 2 ^ k = 0) as ->; [|reflexivity].
    apply Z.div_small. split; [lia|].
    assert (2 ^ Zdigits2 m <= 2 ^ k) by (apply Z.pow_le_mono_r; lia). lia.
Qed.

Lemma digits_mono a b : 0 <= a <= b -> Zdigits2 a <= Zdigits2 b.
Proof.
  intros H. apply digits_le; [lia|apply digits_nonneg|].
  pose proof (digits_upper b). lia.
Qed.

Lemma digits_succ m : 0 <= m -> Zdigits2 (m + 1) <= Zdigits2 m + 1.
Proof.
  intros H. pose proof (digits_nonneg m). apply digits_le; [lia|lia|].
  pose proof (digits_upper m H). rewrite Z.pow_add_r by lia. lia.
Qed.

Lemma binary_round_aux_tame sx m e l :
  0 <= m -> Zdigits2 m + e <= emax - 1 -> e <= emax - prec ->
  tame sx (Z.max (Zdigits2 m + e + 1) (-1000)) (binary_round_aux prec emax sx m e l).
Proof.
  intros Hm HD He. unfold binary_round_aux.
  pose proof (shr_fexp_spec m e l Hm) as S1.
  destruct (shr_fexp prec emax m e l) as [r1 e1].
  destruct S1 as [Hr1 S1].
  set (m2 := round_nearest_even (shr_m r1) (loc_of_shr_record r1)).
  pose proof (round_nearest_even_bounds (shr_m r1) (loc_of_shr_record r1) Hr1) as Hm2.
  fold m2 in Hm2.
  assert (0 <= m2) as Hm2' by lia.
  pose proof (shr_fexp_spec m2 e1 loc_Exact Hm2') as S2.
  destruct (shr_fexp prec emax m2 e1 loc_Exact) as [r2 e2].
  destruct S2 as [Hr2 S2].
  assert (Zdigits2 m2 <= Zdigits2 (shr_m r1) + 1) as Hd2.
  { etransitivity; [apply digits_mono|apply digits_succ]; lia. }
  assert (e1 <= emax - prec - 1 \/ e1 = e) as He1.
  { destruct S1 as [(-> & _ & _)|(-> & _ & _)]; [right; reflexivity|left].
    unfold fexp, emin, emax, prec in *. lia. }
  assert (Zdigits2 (shr_m r1) + e1 <= Z.max (Zdigits2 m + e) (-1074)) as Hd1.
  { destruct S1 as [(-> & -> & _)|(-> & Hlt & ->)]; [lia|].
    pose proof (digits_div m (fexp prec emax (Zdigits2 m + e) - e) Hm ltac:(lia)).
    unfold fexp, emin, emax, prec in *. lia. }
  assert (Zdigits2 (shr_m r2) + e2 <= Z.max (Zdigits2 m2 + e1) (-1074) /\ e2 <= emax - prec) as [Hd3 He2].
  { destruct S2 as [(-> & -> & _)|(-> & Hlt & ->)].
    - split; [lia|]. unfold emax, prec in *. lia.
    - pose proof (digits_div m2 (fexp prec emax (Zdigits2 m2 + e1) - e1) Hm2' ltac:(lia)).
      unfold fexp, emin, emax, prec in *. lia. }
  destruct (shr_m r2) as [|p|p] eqn:E2; [exact I| |lia].
  replace (e2 <=? emax - prec) with true by (symmetry; apply Z.leb_le; exact He2).
  cbn [tame]. split; [reflexivity|]. split; [exact He2|].
  cbn [Zdigits2] in Hd3. unfold emax, prec in *. lia.
Qed.

Lemma tame_exponent sx B s m e : tame sx B (S754_finite s m e) -> e <= B - 1.
Proof. cbn. intros (_ & _ & H). lia. Qed.

Lemma tame_weaken sx B B' x : B <= B' -> tame sx B x -> tame sx B' x.
Proof. destruct x; cbn; try tauto. intros ? (? & ? & ?). repeat split; try assumption. lia. Qed.

(** [Pos.iter xO m d] is [m] shifted left by [d]. *)
Lemma iter_xO_digits d m :
  Zdigits2 (Zpos (Pos.iter xO m d)) <= Zpos (digits2_pos m) + Zpos d.
Proof.
  assert (Zpos (Pos.iter xO m d) = Zpos m * 2 ^ Zpos d) as ->.
  { change (Pos.iter xO m d) with (shift_pos d m).
    rewrite shift_pos_correct, Zpower_pos_nat, Zpower_nat_Z, positive_nat_Z. lia. }
  assert (0 < 2 ^ Z.pos d) by (apply Z.pow_pos_nonneg; lia).
  apply digits_le; [lia|lia|].
  rewrite Z.pow_add_r by lia.
  pose proof (digits_upper (Zpos m) ltac:(lia)) as U. cbn [Zdigits2] in U. nia.
Qed.

(** [float(k)] for a positive [k] of at most [B] binary digits. *)
Lemma float_of_int_tame k B :
  0 < k -> Zdigits2 k <= B -> B <= emax - 1 ->
  exists x, float_of_int k = inr x /\ tame false (B + 1) x.
Proof.
  intros Hk HB HB'. destruct k as [|p|p]; try lia. cbn [Zdigits2] in HB.
  unfold float_of_int, binary_normalize, binary_round.
  assert (tame false (B + 1)
            (let '(mz, ez) := shl_align p 0 (fexp prec emax (Z.pos (digits2_pos p) + 0)) in
             binary_round_aux prec emax false (Z.pos mz) ez loc_Exact)) as T.
  { unfold shl_align.
    destruct (fexp prec emax (Z.pos (digits2_pos p) + 0) - 0) as [|d|d] eqn:E.
    - eapply tame_weaken; [|apply binary_round_aux_tame]; cbn [Zdigits2];
        unfold emax, prec in *; lia.
    - eapply tame_weaken; [|apply binary_round_aux_tame]; cbn [Zdigits2];
        unfold emax, prec in *; lia.
    - pose proof (iter_xO_digits d p) as I.
      eapply tame_weaken; [|apply binary_round_aux_tame]; [| lia | |];
        unfold emax, prec in *; lia. }
  destruct (let '(mz, ez) := shl_align p 0 (fexp prec emax (Z.pos (digits2_pos p) + 0)) in
            binary_round_aux prec emax false (Z.pos mz) ez loc_Exact) as [s|s| |s m e] eqn:E;
    cbn in T; try contradiction; eexists; (split; [reflexivity|]); cbn; try exact I; exact T.
Qed.

(** [a / b] for positive [a] and [b]: the quotient is at most [a]. *)
Lemma int_truediv_tame a b :
  0 < a -> 0 < b -> Zdigits2 a <= emax - 1 ->
  exists q, int_truediv a b = inr (PyFloat q) /\ tame false (Zdigits2 a + 1) q.
Proof.
  intros Ha Hb HB. unfold int_truediv.
  destruct (Z.eqb_spec b 0) as [->|_]; [lia|].
  destruct a as [|pa|pa]; try lia. destruct b as [|pb|pb]; try lia.
  cbn [exact_int SFdiv xorb].
  assert (tame false (Zdigits2 (Zpos pa) + 1)
            (let '(mz, ez, lz) := SFdiv_core_binary prec emax (Z.pos pa) 0 (Z.pos pb) 0 in
             binary_round_aux prec emax false mz ez lz)) as T.
  { unfold SFdiv_core_binary.
    set (e' := Z.min (fexp prec emax (Zdigits2 (Z.pos pa) + 0 - (Zdigits2 (Z.pos pb) + 0))) (0 - 0)).
    assert (e' <= 0) as He' by (unfold e'; lia).
    set (m' := match 0 - 0 - e' with
               | 0 => Z.pos pa
               | Z.pos _ => Z.shiftl (Z.pos pa) (0 - 0 - e')
               | Z.neg _ => 0
               end).
    assert (m' = Zpos pa * 2 ^ (- e')) as Hm'.
    { unfold m'. destruct (0 - 0 - e') as [|s|s] eqn:Es; try lia.
      - replace (- e') with 0 by lia. lia.
      - rewrite Z.shiftl_mul_pow2 by lia. f_equal. f_equal. lia. }
    assert (0 < 2 ^ (- e')) as P by (apply Z.pow_pos_nonneg; lia).
    pose proof (Z_div_mod m' (Zpos pb) ltac:(lia)) as DM.
    destruct (Z.div_eucl m' (Z.pos pb)) as [q r]. destruct DM as [DM Hr].
    assert (0 <= q) as Hq by nia.
    assert (q <= m') as Hqm by nia.
    assert (Zdigits2 q + e' <= Zdigits2 (Zpos pa)) as Hd.
    { assert (Zdigits2 q <= Zdigits2 (Zpos pa) + - e'); [|lia].
      pose proof (digits_nonneg (Zpos pa)).
      apply digits_le; [lia|lia|]. rewrite Z.pow_add_r by lia.
      pose proof (digits_upper (Zpos pa) ltac:(lia)). nia. }
    pose proof (digits_nonneg (Zpos pa)).
    eapply tame_weaken; [|apply binary_round_aux_tame]; unfold emax, prec in *; lia. }
  destruct (let '(mz, ez, lz) := SFdiv_core_binary prec emax (Z.pos pa) 0 (Z.pos pb) 0 in
            binary_round_aux prec emax false mz ez lz) as [s|s| |s m e] eqn:E;
    cbn in T; try contradiction; eexists; (split; [reflexivity|]); cbn; try exact I; exact T.
Qed.

Lemma digits_mul a b :
  Zdigits2 (Zpos (a * b)) <= Zdigits2 (Zpos a) + Zdigits2 (Zpos b).
Proof.
  pose proof (digits_nonneg (Zpos a)). pose proof (digits_nonneg (Zpos b)).
  apply digits_le; [lia|lia|]. rewrite Z.pow_add_r by lia.
  pose proof (digits_upper (Zpos a) ltac:(lia)).
  pose proof (digits_upper (Zpos b) ltac:(lia)). nia.
Qed.

(** The product of two small non-negative numbers is finite. *)
Lemma SFmul_tame B1 B2 x y :
  tame false B1 x -> tame false B2 y -> B1 + B2 <= emax - prec -> -1000 <= B1 + B2 ->
  tame false (B1 + B2 + 1) (SFmul prec emax x y).
Proof.
  intros Hx Hy HB HB'.
  destruct x as [sx|sx| |sx mx ex], y as [sy|sy| |sy my ey]; cbn in Hx, Hy;
    try contradiction; cbn [SFmul]; try exact I.
  destruct Hx as (-> & Hex & Hdx), Hy as (-> & Hey & Hdy). cbn [xorb].
  pose proof (digits_mul mx my) as Dm. cbn [Zdigits2] in Dm.
  eapply tame_weaken; [|apply binary_round_aux_tame]; cbn [Zdigits2];
    unfold emax, prec in *; lia.
Qed.

(** [int(x)] of a finite non-negative number is a non-negative [int]. *)
Lemma int_tame B x : tame false B x -> exists p, int (PyFloat x) = inr p /\ 0 <= p.
Proof.
  destruct x as [s|s| |s m e]; cbn; try contradiction.
  - intros _. exists 0. split; [reflexivity|lia].
  - intros (-> & _ & _). eexists. split; [reflexivity|].
    unfold trunc. destruct e as [|e|e].
    + lia.
    + apply Z.shiftl_nonneg. lia.
    + apply Z.shiftr_nonneg. lia.
Qed.

End FloatFacts.

(** ** What a scan emits *)

Section ScanFacts.
Import Py Scanner.

(** The visible entries of the enumerated listing are the visible names. *)
Lemma visible_enumerate (names : list string) : forall i,
  map snd (filter (fun it : Z * string => visible it.2 = true) (enumerate_from i names))
  = filter (fun f => visible f = true) names.
Proof.
  induction names as [|f names IH]; intros i; [reflexivity|].
  cbn [enumerate_from]. rewrite !filter_cons. cbn [snd].
  destruct (decide (visible f = true)); cbn [map]; rewrite IH; reflexivity.
Qed.

Lemma plain_visible w d f : plain w d f = true -> visible f = true.
Proof. unfold plain. destruct (visible f); [reflexivity|discriminate]. Qed.

Lemma no_visible_no_plain w d (names : list string) :
  filter (fun f => visible f = true) names = [] ->
  filter (fun f => plain w d f = true) names = [].
Proof.
  induction names as [|f names IH]; [reflexivity|].
  rewrite !filter_cons. destruct (decide (visible f = true)) as [Hv|Hv]; [discriminate|].
  intros H. rewrite decide_False; [auto|].
  intros Hp. apply Hv. eapply plain_visible; exact Hp.
Qed.

(** The value emitted after any entry of a listing of fewer than [2^63]
    names is computed without error and is not negative. *)
Lemma percent_defined total j :
  0 < total -> 0 <= j -> j + 1 < 2 ^ 63 ->
  exists q, int_truediv 100 total = inr (PyFloat q) /\
            exists p, percent (PyFloat q) j = inr p /\ 0 <= p.
Proof.
  intros Ht Hj Hb.
  destruct (int_truediv_tame 100 total) as (q & Hq & Tq); [lia|lia|cbn; unfold emax; lia|].
  exists q. split; [exact Hq|].
  destruct (float_of_int_tame (j + 1) 63) as (x & Hx & Tx);
    [lia|apply digits_le; lia|unfold emax; lia|].
  unfold percent, mul. rewrite Hx.
  apply (int_tame (63 + 1 + (Zdigits2 100 + 1) + 1)).
  apply SFmul_tame; try assumption; cbn; unfold emax, prec; lia.
Qed.

Lemma percents_defined total q (names : list string) : forall i,
  int_truediv 100 total = inr (PyFloat q) ->
  0 < total -> 0 <= i -> i + Z.of_nat (length names) < 2 ^ 63 ->
  exists ps,
    Forall2 (fun (it : Z * string) p => percent (PyFloat q) it.1 = inr p /\ 0 <= p)
            (filter (fun it : Z * string => visible it.2 = true) (enumerate_from i names)) ps.
Proof.
  intros i Hq Ht. revert i.
  induction names as [|f names IH]; intros i Hi Hb.
  - exists []. constructor.
  - cbn [enumerate_from]. rewrite filter_cons. cbn [snd].
    cbn [length] in Hb.
    destruct (IH (i + 1)) as [ps Hps]; [lia|lia|].
    destruct (decide (visible f = true)); [|exists ps; exact Hps].
    destruct (percent_defined total i) as (q' & Hq' & p & Hp & Hp0); [lia|lia|lia|].
    rewrite Hq in Hq'. injection Hq' as <-.
    exists (p :: ps). constructor; [split; assumption|exact Hps].
Qed.

(** [run] when the listing succeeds and the increment is computed. *)
Lemma run_unfold w d names increment :
  dirs w !! d = Some names ->
  increment_of (Z.of_nat (length (filter (fun f => visible f = true) names)))
    = inr increment ->
  scan w d =
  match for_each (enumerate names) (loop_body w d increment) ([], []) [] with
  | (inl e, out) => (inl e, out)
  | (inr (file_sizes, file_names), out) =>
      (inr tt, out ++ [result {| file_names := file_names; file_sizes := file_sizes |}])
  end.
Proof.
  intros Hl Hinc. unfold scan, run, os_listdir. rewrite Hl.
  unfold bind at 1. cbn [lift].
  unfold bind at 1. unfold lift at 1. rewrite Hinc.
  unfold bind at 1. cbn [lift]. unfold bind at 1.
  destruct (for_each _ _ _ _) as [[e|[fs fn]] out]; reflexivity.
Qed.

End ScanFacts.

Section ScanTheorems.
Import Py Scanner.

Lemma scan_listing_fails w d e :
  os_listdir w d = inl e -> scan w d = (inl e, []).
Proof. intros H. unfold scan, run. unfold bind at 1. unfold lift. rewrite H. reflexivity. Qed.

Lemma scan_division_fails w d names e :
  dirs w !! d = Some names ->
  increment_of (Z.of_nat (length (filter (fun f => visible f = true) names))) = inl e ->
  scan w d = (inl e, []).
Proof.
  intros Hl Hinc. unfold scan, run, os_listdir. rewrite Hl.
  unfold bind at 1. cbn [lift]. unfold bind at 1. unfold lift at 1.
  rewrite Hinc. reflexivity.
Qed.

Lemma results_app out out' : results (out ++ out') = results out ++ results out'.
Proof. unfold results. apply omap_app. Qed.

Lemma results_progress ps : results (map progress ps) = [].
Proof. induction ps; [reflexivity|exact IHps]. Qed.

Lemma progress_values_progress ps : progress_values (map progress ps) = ps.
Proof. induction ps as [|p ps IH]; [reflexivity|]. cbn. f_equal. exact IH. Qed.

(** C7. The result of a scan holds no hidden name and no name that is
    not a plain regular file: every name in it does not start with a
    dot and its path has a regular inode, so no sub-directory appears. *)
Theorem scan_result_only_plain_files (w : world) (d : string) :
  Forall (fun df =>
            Forall (fun f => startswith f "." = false /\
                             exists i, inodes w !! os_path_join d f = Some i /\
                                       st_kind i = regular)
                   (file_names df))
         (results (scan w d).2).
Proof.
  destruct (os_listdir w d) as [e|names] eqn:Hl.
  { rewrite (scan_listing_fails _ _ _ Hl). constructor. }
  assert (dirs w !! d = Some names) as Hd.
  { unfold os_listdir in Hl. destruct (dirs w !! d); [congruence|].
    destruct (inodes w !! d); discriminate. }
  destruct (increment_of (Z.of_nat (length (filter (fun f => visible f = true) names))))
    as [e|increment] eqn:Hinc.
  { rewrite (scan_division_fails _ _ _ _ Hd Hinc). constructor. }
  rewrite (run_unfold _ _ _ _ Hd Hinc). unfold enumerate.
  destruct (for_each _ _ _ _) as [r out] eqn:Hloop.
  apply loop_collects in Hloop as [Hres Hacc].
  destruct r as [e|[fs fn]]; cbn [snd].
  - rewrite Hres. constructor.
  - rewrite results_app, Hres. cbn. constructor; [|constructor].
    specialize (Hacc _ eq_refl). injection Hacc as -> ->. cbn.
    apply Forall_forall. intros f Hf. apply list_elem_of_filter in Hf as [Hp _].
    unfold plain, visible, os_path_isfile in Hp.
    apply andb_prop in Hp as [Hv Hi]. split.
    + destruct (startswith f "."); [discriminate|reflexivity].
    + destruct (inodes w !! os_path_join d f) as [i|]; [|discriminate].
      exists i. split; [reflexivity|]. apply bool_decide_eq_true in Hi. exact Hi.
Qed.

Lemma enumerate_from_app (pre rest : list string) : forall i,
  enumerate_from i (pre ++ rest)
  = enumerate_from i pre ++ enumerate_from (i + Z.of_nat (length pre)) rest.
Proof.
  induction pre as [|f pre IH]; intros i; cbn [app enumerate_from length].
  - rewrite Z.add_0_r. reflexivity.
  - rewrite IH.
    replace (i + Z.of_nat (S (length pre))) with (i + 1 + Z.of_nat (length pre)) by lia.
    reflexivity.
Qed.

Lemma enumerate_from_length (names : list string) : forall i,
  length (enumerate_from i names) = length names.
Proof.
  induction names as [|f names IH]; intros i; cbn [enumerate_from length];
    [reflexivity|].
  rewrite IH. reflexivity.
Qed.

Lemma filter_visible_all (pre : list string) : forall i,
  Forall (fun f => visible f = true) pre ->
  filter (fun it : Z * string => visible it.2 = true) (enumerate_from i pre)
  = enumerate_from i pre.
Proof.
  induction pre as [|f pre IH]; intros i Hall; [reflexivity|].
  inversion Hall as [|? ? Hf Hpre]; subst.
  cbn [enumerate_from]. rewrite filter_cons. cbn [snd].
  rewrite decide_True by exact Hf. rewrite (IH _ Hpre). reflexivity.
Qed.

(** C5 (amended). For a directory whose listing has fewer than [2^63]
    names of which at least one is not hidden, a scan ends normally; it
    emits one progress update after each non-hidden entry, sub-directories
    included, in enumeration order, then exactly one result.  For the
    entries that no hidden name precedes in the listing, the update after
    the entry at position [index] is the non-negative integer
    [int((index + 1) * (100 / total))], the binary64 product cut towards
    zero, where [total] counts the non-hidden entries; the values after a
    hidden name are left open.  The result lists the non-hidden regular
    files in enumeration order with their [stat] sizes. *)
Theorem scan_progress_per_visible_entry (w : world) (d : string) (names : list string) :
  dirs w !! d = Some names ->
  (0 < length (filter (fun f => visible f = true) names))%nat ->
  Z.of_nat (length names) < 2 ^ 63 ->
  exists increment ps,
    int_truediv 100 (Z.of_nat (length (filter (fun f => visible f = true) names)))
      = inr increment /\
    length ps = length (filter (fun f => visible f = true) names) /\
    scan w d =
      (inr tt,
       map progress ps ++
       [result {| file_names := filter (fun f => plain w d f = true) names;
                  file_sizes := map (size_of w d)
                                    (filter (fun f => plain w d f = true) names) |}]) /\
    forall pre rest,
      names = pre ++ rest ->
      Forall (fun f => visible f = true) pre ->
      Forall2 (fun (it : Z * string) p => percent increment it.1 = inr p /\ 0 <= p)
              (enumerate pre) (take (length pre) ps).
Proof.
  intros Hd Hpos Hlen.
  set (total := Z.of_nat (length (filter (fun f => visible f = true) names))).
  assert (0 < total) as Ht by (unfold total; lia).
  destruct (percent_defined total 0) as (q & Hq & _); [lia|lia|lia|].
  destruct (percents_defined total q names 0 Hq Ht) as [ps Hps]; [lia|lia|].
  exists (PyFloat q), ps. split; [exact Hq|].
  split.
  { apply Forall2_length in Hps. rewrite <- Hps.
    rewrite <- (visible_enumerate names 0). rewrite length_map. reflexivity. }
  split.
  { assert (increment_of total = inr (PyFloat q)) as Hinc.
    { unfold increment_of.
      replace (0 <? total) with true by (symmetry; apply Z.ltb_lt; exact Ht). exact Hq. }
    rewrite (run_unfold _ _ _ _ Hd Hinc). unfold enumerate in *.
    destruct (loop_emits w d (PyFloat q) names 0 ([], []) [] ps) as [acc Hloop].
    { eapply Forall2_impl; [exact Hps|]. intros ? ? [? _]. assumption. }
    rewrite Hloop.
    apply loop_collects in Hloop as [_ Hacc]. specialize (Hacc _ eq_refl). subst acc.
    reflexivity. }
  intros pre rest -> Hpre. unfold enumerate.
  rewrite enumerate_from_app, filter_app, (filter_visible_all pre 0 Hpre) in Hps.
  apply Forall2_app_inv_l in Hps as (ps1 & ps2 & H1 & _ & ->).
  pose proof (Forall2_length _ _ _ H1) as Hl. rewrite enumerate_from_length in Hl.
  rewrite Hl, take_app_length. exact H1.
Qed.

(** C6 (amended). For a directory whose listing has no non-hidden
    entry, the increment is taken as 1, so that nothing is divided by
    zero; the scan ends normally, emits no progress update at all and
    exactly one result, which is empty. *)
Theorem scan_without_visible_entries (w : world) (d : string) (names : list string) :
  dirs w !! d = Some names ->
  filter (fun f => visible f = true) names = [] ->
  increment_of (Z.of_nat (length (filter (fun f => visible f = true) names)))
    = inr (PyInt 1) /\
  scan w d = (inr tt, [result {| file_names := []; file_sizes := [] |}]).
Proof.
  intros Hd Hnone.
  assert (increment_of (Z.of_nat (length (filter (fun f => visible f = true) names)))
          = inr (PyInt 1)) as Hinc.
  { rewrite Hnone. reflexivity. }
  split; [exact Hinc|].
  rewrite (run_unfold _ _ _ _ Hd Hinc). unfold enumerate.
  destruct (loop_emits w d (PyInt 1) names 0 ([], []) [] []) as [acc Hloop].
  { pose proof (visible_enumerate names 0) as E. rewrite Hnone in E.
    apply map_eq_nil in E. rewrite E. constructor. }
  rewrite Hloop.
  apply loop_collects in Hloop as [_ Hacc]. specialize (Hacc _ eq_refl). subst acc.
  rewrite (no_visible_no_plain w d names Hnone). reflexivity.
Qed.

End ScanTheorems.

Section ScanExamples.
Import Py Scanner.

(** C5 (counterexample). In the scenario of the specification, with the
    listing order [a.txt], [.hidden], [b], the directory has one visible
    regular file, yet the scan emits two progress updates, 50 and 150:
    their number is not 1, the second is above 100, and the last is not
    100. *)
Lemma scan_scenario_two_updates_last_150 :
  length (filter (fun f => plain (tmp_d ["a.txt"; ".hidden"; "b"]) "/tmp/d" f = true)
                 ["a.txt"; ".hidden"; "b"]) = 1%nat /\
  progress_values (scan (tmp_d ["a.txt"; ".hidden"; "b"]) "/tmp/d").2 = [50; 150] /\
  ~ (length (progress_values (scan (tmp_d ["a.txt"; ".hidden"; "b"]) "/tmp/d").2) = 1%nat /\
     Forall (fun p => 0 <= p <= 100)
            (progress_values (scan (tmp_d ["a.txt"; ".hidden"; "b"]) "/tmp/d").2) /\
     last (progress_values (scan (tmp_d ["a.txt"; ".hidden"; "b"]) "/tmp/d").2) = Some 100).
Proof.
  split; [vm_compute; reflexivity|]. split; [vm_compute; reflexivity|].
  intros (H & _). vm_compute in H. discriminate.
Qed.

Lemma scan_progress_per_visible_entry_witness :
  dirs (tmp_d ["a.txt"; ".hidden"; "b"]) !! "/tmp/d" = Some ["a.txt"; ".hidden"; "b"] /\
  exists increment ps,
    int_truediv 100
      (Z.of_nat (length (filter (fun f => visible f = true) ["a.txt"; ".hidden"; "b"])))
      = inr increment /\
    length ps = length (filter (fun f => visible f = true) ["a.txt"; ".hidden"; "b"]) /\
    scan (tmp_d ["a.txt"; ".hidden"; "b"]) "/tmp/d" =
      (inr tt,
       map progress ps ++
       [result {| file_names :=
                    filter (fun f => plain (tmp_d ["a.txt"; ".hidden"; "b"]) "/tmp/d" f = true)
                           ["a.txt"; ".hidden"; "b"];
                  file_sizes :=
                    map (size_of (tmp_d ["a.txt"; ".hidden"; "b"]) "/tmp/d")
                        (filter (fun f => plain (tmp_d ["a.txt"; ".hidden"; "b"]) "/tmp/d" f = true)
                                ["a.txt"; ".hidden"; "b"]) |}]) /\
    Forall2 (fun (it : Z * string) p => percent increment it.1 = inr p /\ 0 <= p)
            (enumerate ["a.txt"]) (take (length ["a.txt"]) ps).
Proof.
  split; [reflexivity|].
  destruct (scan_progress_per_visible_entry
              (tmp_d ["a.txt"; ".hidden"; "b"]) "/tmp/d" ["a.txt"; ".hidden"; "b"])
    as (increment & ps & Hinc & Hlen & Hscan & Hpre).
  - reflexivity.
  - vm_compute. lia.
  - vm_compute. reflexivity.
  - exists increment, ps. split; [exact Hinc|]. split; [exact Hlen|].
    split; [exact Hscan|].
    apply (Hpre ["a.txt"] [".hidden"; "b"]); [reflexivity|].
    apply Forall_cons. split; [reflexivity|apply Forall_nil_2].
Defined.

(** Truncation, not rounding: of three plain files the second is
    reported as 66, where [round((1 + 1) / 3 * 100)] is 67. *)
Example scan_three_files_truncates :
  progress_values (scan (data_dir 3) "/data").2 = [33; 66; 100] /\
  spec_percent 1 3 = inr 67.
Proof. split; vm_compute; reflexivity. Qed.

(** A sub-directory is counted and reported like a file. *)
Example scan_file_and_folder :
  scan (tmp_d ["a.txt"; "b"]) "/tmp/d" =
    (inr tt, [progress 50; progress 100;
              result {| file_names := ["a.txt"]; file_sizes := [10] |}]).
Proof. vm_compute. reflexivity. Qed.

(** Binary64 rounding: a directory of 97 plain files and nothing else
    ends at 99, since [97 * (100 / 97)] is just below 100. *)
Example scan_97_files_ends_at_99 :
  last (progress_values (scan (data_dir 97) "/data").2) = Some 99.
Proof. vm_compute. reflexivity. Qed.

(** C6 (counterexample). A scan of the empty directory emits no
    progress update, so not the single update of 100 of the claim; it
    emits the empty result only. *)
Lemma scan_empty_directory_no_progress :
  scan (tmp_d []) "/tmp/d" = (inr tt, [result {| file_names := []; file_sizes := [] |}]) /\
  progress_values (scan (tmp_d []) "/tmp/d").2 <> [100].
Proof. split; [vm_compute; reflexivity|]. vm_compute. discriminate. Qed.

Lemma scan_without_visible_entries_witness :
  dirs (tmp_d [".hidden"]) !! "/tmp/d" = Some [".hidden"] /\
  filter (fun f => visible f = true) [".hidden"] = [] /\
  increment_of (Z.of_nat (length (filter (fun f => visible f = true) [".hidden"])))
    = inr (PyInt 1) /\
  scan (tmp_d [".hidden"]) "/tmp/d" =
    (inr tt, [result {| file_names := []; file_sizes := [] |}]).
Proof.
  split; [reflexivity|]. split; [reflexivity|].
  apply (scan_without_visible_entries (tmp_d [".hidden"]) "/tmp/d" [".hidden"]);
    reflexivity.
Defined.

End ScanExamples.

(** ** SecureDeleteThread: one pass in append mode *)

Section ErasePasses.
Import Py Eraser.

Lemma splice_at_end (d buf : list byte) : splice d (length d) buf = d ++ buf.
Proof.
  unfold splice. rewrite firstn_all, Nat.sub_diag. cbn [replicate app].
  rewrite drop_ge by lia. rewrite app_nil_r. reflexivity.
Qed.

Lemma has_char_ba_plus : has_char "a" "ba+" = true.
Proof. reflexivity. Qed.

(** A buffer within the limit of one system call is written whole; a
    longer one is cut to the limit. *)
Lemma transferred_whole (buf : list byte) :
  Z.of_nat (length buf) <= MAX_RW_COUNT -> transferred buf = buf.
Proof.
  intros H. unfold transferred. apply Z.leb_le in H. rewrite H. reflexivity.
Qed.

Lemma transferred_length (buf : list byte) :
  Z.of_nat (length (transferred buf)) = Z.min (Z.of_nat (length buf)) MAX_RW_COUNT.
Proof.
  unfold transferred.
  destruct (Z.leb_spec (Z.of_nat (length buf)) MAX_RW_COUNT) as [Hle|Hgt]; [lia|].
  rewrite length_take.
  assert (0 <= MAX_RW_COUNT) by (unfold MAX_RW_COUNT; lia). lia.
Qed.

(** Opening an existing, writable file with ["ba+"]: the body runs with a
    fresh descriptor in append mode, positioned at the end. *)
Lemma with_open_existing {A} path (body : nat -> M world A) w d :
  files w !! path = Some d -> path ∉ readonly w ->
  with_open path "ba+" body w =
  (let fd := fresh (dom (fds w)) in
   match body fd (set_fds (insert fd {| name := path; appending := true; pos := length d |}) w) with
   | (r, w') => (r, set_fds (delete fd) w')
   end).
Proof.
  intros Hd Hro. unfold with_open, open. unfold bind at 1. unfold bind at 1. cbn [get].
  rewrite Hd, has_char_ba_plus. rewrite bool_decide_eq_false_2 by exact Hro.
  reflexivity.
Qed.

(** Opening a file that may not be written fails before any effect. *)
Lemma with_open_readonly {A} path (body : nat -> M world A) w d :
  files w !! path = Some d -> path ∈ readonly w ->
  with_open path "ba+" body w = (inl PermissionError, w).
Proof.
  intros Hd Hro. unfold with_open, open. unfold bind at 1. unfold bind at 1. cbn [get].
  rewrite Hd. rewrite bool_decide_eq_true_2 by exact Hro. reflexivity.
Qed.

(** One write in append mode. *)
Lemma write_append_step fd w f d buf :
  fds w !! fd = Some f -> appending f = true -> files w !! name f = Some d ->
  write fd buf w =
  (inr (length (transferred buf)),
   set_fds (insert fd {| name := name f; appending := appending f;
                         pos := (length d + length (transferred buf))%nat |})
     (set_files (insert (name f) (d ++ transferred buf))
        (log (sys_write (name f) (length d) (transferred buf)) w))).
Proof.
  intros Hf Ha Hd. unfold write. unfold bind at 1. cbn [get]. rewrite Hf, Ha, Hd.
  cbn [default]. cbv zeta. rewrite splice_at_end.
  unfold bind, modify, ret. unfold set_files at 1. cbn [log files]. rewrite Hd.
  reflexivity.
Qed.

Lemma pass_appends path fd gen w d k buf w2 :
  fds w !! fd = Some {| name := path; appending := true; pos := k |} ->
  files w !! path = Some d ->
  gen (Z.of_nat (length d))
      (set_fds (insert fd {| name := path; appending := true; pos := O |}) w)
    = (inr buf, w2) ->
  files w2 = files w ->
  fds w2 !! fd = Some {| name := path; appending := true; pos := O |} ->
  pass path fd gen w = (inr tt, after_write path fd d (transferred buf) w2).
Proof.
  intros Hfd Hd Hgen Hfiles Hfd2. unfold pass.
  unfold seek. unfold bind at 1. unfold bind at 1. cbn [get]. rewrite Hfd.
  unfold bind at 1. cbn [modify ret name appending].
  unfold os_path_getsize. unfold bind at 1. unfold bind at 1. cbn [get set_fds files].
  rewrite Hd. cbn [ret]. unfold bind at 1. rewrite Hgen.
  unfold bind at 1.
  rewrite (write_append_step fd w2 {| name := path; appending := true; pos := O |} d buf);
    [|exact Hfd2|reflexivity|cbn [name]; rewrite Hfiles; exact Hd].
  reflexivity.
Qed.

Lemma after_write_files path fd d buf w2 :
  files (after_write path fd d buf w2) = <[path := d ++ buf]> (files w2).
Proof. reflexivity. Qed.

Lemma after_write_fds path fd d buf w2 :
  fds (after_write path fd d buf w2) !! fd
  = Some {| name := path; appending := true; pos := (length d + length buf)%nat |}.
Proof. unfold after_write. cbn. apply lookup_insert_eq. Qed.

Lemma after_write_calls path fd d buf w2 :
  calls (after_write path fd d buf w2) = calls w2 ++ [sys_write path (length d) buf].
Proof. reflexivity. Qed.

(** A pass of [zero_fill]. *)
Lemma zero_pass path fd w d k :
  fds w !! fd = Some {| name := path; appending := true; pos := k |} ->
  files w !! path = Some d ->
  pass path fd (fun n => ret (zeros n)) w =
  (inr tt, after_write path fd d (transferred (replicate (length d) Byte.x00))
             (set_fds (insert fd {| name := path; appending := true; pos := O |}) w)).
Proof.
  intros Hfd Hd.
  apply (pass_appends path fd _ w d k); try assumption.
  - unfold ret, zeros. rewrite Nat2Z.id. reflexivity.
  - reflexivity.
  - cbn. apply lookup_insert_eq.
Qed.

(** A pass of [random_fill] and of [dod_standard]. *)
Lemma random_pass path fd w d k :
  fds w !! fd = Some {| name := path; appending := true; pos := k |} ->
  files w !! path = Some d ->
  pass path fd os_urandom w =
  (inr tt, after_write path fd d
             (transferred (map (entropy w) (seq (drawn w) (length d))))
             (set_drawn (drawn w + length d)
                (set_fds (insert fd {| name := path; appending := true; pos := O |}) w))).
Proof.
  intros Hfd Hd.
  apply (pass_appends path fd _ w d k); try assumption.
  - unfold os_urandom.
    replace (Z.of_nat (length d) <? 0) with false by (symmetry; apply Z.ltb_ge; lia).
    unfold bind, get, modify, ret. cbn. rewrite Nat2Z.id. reflexivity.
  - reflexivity.
  - cbn. apply lookup_insert_eq.
Qed.

End ErasePasses.

(** ** SecureDeleteThread: the fill loops *)

Section GrowFacts.
Import Eraser.
Variable gen : nat -> nat -> list byte.
Hypothesis gen_length : forall dr len, length (gen dr len) = len.

Lemma grow_prefix n : forall dr d, exists tail, grow gen dr n d = d ++ tail.
Proof.
  induction n as [|n IH]; intros dr d; cbn [grow].
  - exists []. rewrite app_nil_r. reflexivity.
  - destruct (IH (dr + length d)%nat (d ++ transferred (gen dr (length d))))
      as [tail Ht].
    exists (transferred (gen dr (length d)) ++ tail). rewrite Ht, app_assoc. reflexivity.
Qed.

Lemma pass_log_length path n : forall dr d, length (pass_log path gen dr n d) = n.
Proof.
  induction n as [|n IH]; intros dr d; cbn [pass_log length]; [reflexivity|].
  rewrite IH. reflexivity.
Qed.

(** Every write of the passes lands at or beyond the end of the original
    content. *)
Lemma pass_log_beyond path n : forall dr d,
  Forall (fun c => exists o buf, c = sys_write path o buf /\ (length d <= o)%nat)
         (pass_log path gen dr n d).
Proof.
  induction n as [|n IH]; intros dr d; cbn [pass_log]; constructor.
  - exists (length d), (transferred (gen dr (length d))). auto.
  - eapply Forall_impl; [apply IH|]. cbn beta.
    intros c (o & buf & -> & Ho). exists o, buf.
    rewrite length_app in Ho. split; [reflexivity|lia].
Qed.

(** Every write of the passes starts where the file ends at that
    moment. *)
Lemma pass_log_appended path n : forall dr d,
  appended (length d) (writes (pass_log path gen dr n d)) = true.
Proof.
  induction n as [|n IH]; intros dr d; cbn [pass_log]; [reflexivity|].
  change (writes (sys_write path (length d) (transferred (gen dr (length d)))
                    :: pass_log path gen (dr + length d) n
                         (d ++ transferred (gen dr (length d)))))
    with ((length d, transferred (gen dr (length d)))
            :: writes (pass_log path gen (dr + length d) n
                         (d ++ transferred (gen dr (length d))))).
  cbn [appended]. rewrite Nat.eqb_refl. cbn [andb].
  rewrite <- length_app. apply IH.
Qed.

(** While every pass buffer is within the limit of one system call, each
    pass doubles the file. *)
Lemma bound_head n (d : list byte) :
  (forall i, (i < S n)%nat -> Z.of_nat (length d * 2 ^ i) <= MAX_RW_COUNT) ->
  forall dr, transferred (gen dr (length d)) = gen dr (length d).
Proof.
  intros Hb dr. apply transferred_whole. rewrite gen_length.
  specialize (Hb O ltac:(lia)). rewrite Nat.pow_0_r, Nat.mul_1_r in Hb. exact Hb.
Qed.

Lemma bound_tail n (d : list byte) dr :
  (forall i, (i < S n)%nat -> Z.of_nat (length d * 2 ^ i) <= MAX_RW_COUNT) ->
  forall i, (i < n)%nat ->
    Z.of_nat (length (d ++ gen dr (length d)) * 2 ^ i) <= MAX_RW_COUNT.
Proof.
  intros Hb i Hi. rewrite length_app, gen_length.
  specialize (Hb (S i) ltac:(lia)). rewrite Nat.pow_succ_r' in Hb.
  replace ((length d + length d) * 2 ^ i)%nat with (length d * (2 * 2 ^ i))%nat by lia.
  exact Hb.
Qed.

Lemma grow_length n : forall dr d,
  (forall i, (i < n)%nat -> Z.of_nat (length d * 2 ^ i) <= MAX_RW_COUNT) ->
  length (grow gen dr n d) = (length d * 2 ^ n)%nat.
Proof.
  induction n as [|n IH]; intros dr d Hb; cbn [grow].
  - rewrite Nat.pow_0_r. lia.
  - rewrite (bound_head n d Hb), IH by (apply bound_tail; exact Hb).
    rewrite length_app, gen_length, Nat.pow_succ_r'. lia.
Qed.

(** ... and each pass buffer is as long as the file is at that moment. *)
Lemma pass_log_full path n : forall dr d,
  (forall i, (i < n)%nat -> Z.of_nat (length d * 2 ^ i) <= MAX_RW_COUNT) ->
  Forall (fun c => exists o buf, c = sys_write path o buf /\ length buf = o)
         (pass_log path gen dr n d).
Proof.
  induction n as [|n IH]; intros dr d Hb; cbn [pass_log]; constructor.
  - exists (length d), (transferred (gen dr (length d))).
    rewrite (bound_head n d Hb), gen_length. auto.
  - rewrite (bound_head n d Hb). apply IH. apply bound_tail. exact Hb.
Qed.

End GrowFacts.

Lemma grow_one gen dr (d : list byte) :
  grow gen dr 1 d = d ++ Eraser.transferred (gen dr (length d)).
Proof. reflexivity. Qed.

Lemma grow_zero n : forall dr d,
  (forall i, (i < n)%nat -> Z.of_nat (length d * 2 ^ i) <= Eraser.MAX_RW_COUNT) ->
  grow zero_gen dr n d = d ++ replicate ((2 ^ n - 1) * length d) Byte.x00.
Proof.
  assert (forall dr len, length (zero_gen dr len) = len) as Hlen
    by (intros; apply length_replicate).
  induction n as [|n IH]; intros dr d Hb; cbn [grow].
  - cbn. rewrite app_nil_r. reflexivity.
  - rewrite (bound_head zero_gen Hlen n d Hb).
    rewrite IH by (apply (bound_tail zero_gen Hlen); exact Hb).
    unfold zero_gen. rewrite length_app, length_replicate.
    rewrite <- app_assoc. f_equal. rewrite <- replicate_add. f_equal.
    rewrite Nat.pow_succ_r'.
    assert (1 <= 2 ^ n)%nat by (apply Nat.neq_0_lt_0, Nat.pow_nonzero; lia).
    nia.
Qed.

Section FillLoops.
Import Py Eraser.
Variable path : string.
Variable fd : nat.

Lemma zero_loop n : forall w d k dr,
  fds w !! fd = Some {| name := path; appending := true; pos := k |} ->
  files w !! path = Some d ->
  exists w',
    for_range n (pass path fd (fun n => ret (zeros n))) w = (inr tt, w') /\
    files w' = <[path := grow zero_gen dr n d]> (files w) /\
    calls w' = calls w ++ pass_log path zero_gen dr n d /\
    readonly w' = readonly w /\ sealed w' = sealed w.
Proof.
  induction n as [|n IH]; intros w d k dr Hfd Hd.
  - exists w. cbn. rewrite app_nil_r, insert_id by exact Hd. auto.
  - cbn [for_range grow pass_log].
    pose proof (zero_pass path fd w d k Hfd Hd) as Hp.
    set (w1 := after_write _ _ _ _ _) in Hp.
    destruct (IH w1 (d ++ transferred (replicate (length d) Byte.x00))
                 (length d + length (transferred (replicate (length d) Byte.x00)))%nat
                 (dr + length d)%nat)
      as (w' & Hrun & Hf & Hc & Hro & Hse).
    { apply after_write_fds. }
    { unfold w1. rewrite after_write_files. apply lookup_insert_eq. }
    exists w'. split; [rewrite (bind_inr _ _ _ _ _ Hp); exact Hrun|].
    unfold zero_gen in *.
    split; [rewrite Hf; unfold w1; rewrite after_write_files; cbn [files set_fds];
            rewrite insert_insert_eq; reflexivity|].
    split; [rewrite Hc; unfold w1; rewrite after_write_calls; cbn [calls set_fds];
            rewrite <- app_assoc; reflexivity|].
    split; [rewrite Hro|rewrite Hse]; reflexivity.
Qed.

Lemma random_loop n : forall w d k,
  fds w !! fd = Some {| name := path; appending := true; pos := k |} ->
  files w !! path = Some d ->
  exists w',
    for_range n (pass path fd os_urandom) w = (inr tt, w') /\
    files w' = <[path := grow (random_gen (entropy w)) (drawn w) n d]> (files w) /\
    calls w' = calls w ++ pass_log path (random_gen (entropy w)) (drawn w) n d /\
    readonly w' = readonly w /\ sealed w' = sealed w.
Proof.
  induction n as [|n IH]; intros w d k Hfd Hd.
  - exists w. cbn. rewrite app_nil_r, insert_id by exact Hd. auto.
  - cbn [for_range grow pass_log].
    pose proof (random_pass path fd w d k Hfd Hd) as Hp.
    set (w1 := after_write _ _ _ _ _) in Hp.
    destruct (IH w1 (d ++ transferred (map (entropy w) (seq (drawn w) (length d))))
                 (length d
                  + length (transferred (map (entropy w) (seq (drawn w) (length d)))))%nat)
      as (w' & Hrun & Hf & Hc & Hro & Hse).
    { apply after_write_fds. }
    { unfold w1. rewrite after_write_files. apply lookup_insert_eq. }
    exists w'. split; [rewrite (bind_inr _ _ _ _ _ Hp); exact Hrun|].
    unfold random_gen in *.
    split; [rewrite Hf; unfold w1; rewrite after_write_files; cbn [files set_fds set_drawn];
            rewrite insert_insert_eq; reflexivity|].
    split; [rewrite Hc; unfold w1; rewrite after_write_calls; cbn [calls set_fds set_drawn];
            rewrite <- app_assoc; reflexivity|].
    split; [rewrite Hro|rewrite Hse]; reflexivity.
Qed.

End FillLoops.

(** ** SecureDeleteThread: the four methods and [run] *)

Section Methods.
Import Py Eraser.
Variable aes : list byte -> list byte -> list byte.

Lemma run_overwrite self :
  run aes self = (overwrite aes self >> os_remove (file_path self)).
Proof. reflexivity. Qed.

Lemma zero_fill_pass self :
  zero_fill self =
  with_open (file_path self) "ba+" (fun f =>
    for_range (Z.to_nat (passes self))
      (pass (file_path self) f (fun n => ret (zeros n)))).
Proof. reflexivity. Qed.

Lemma random_fill_pass self :
  random_fill self =
  with_open (file_path self) "ba+" (fun f =>
    for_range (Z.to_nat (passes self)) (pass (file_path self) f os_urandom)).
Proof. reflexivity. Qed.

Lemma dod_standard_pass self :
  dod_standard self =
  with_open (file_path self) "ba+" (fun f =>
    for_range 3 (pass (file_path self) f os_urandom)).
Proof. reflexivity. Qed.

(** The fresh descriptor of [open]. *)
Lemma fresh_fd_lookup (w : world) (x : FileIO) :
  (<[fresh (dom (fds w)) := x]> (fds w)) !! fresh (dom (fds w)) = Some x.
Proof. apply lookup_insert_eq. Qed.

Lemma zero_fill_spec self w d :
  files w !! file_path self = Some d -> file_path self ∉ readonly w ->
  exists w',
    zero_fill self w = (inr tt, w') /\
    files w' = <[file_path self := grow zero_gen 0 (Z.to_nat (passes self)) d]> (files w) /\
    calls w' = calls w ++ pass_log (file_path self) zero_gen 0 (Z.to_nat (passes self)) d /\
    readonly w' = readonly w /\ sealed w' = sealed w.
Proof.
  intros Hd Hro. rewrite zero_fill_pass, (with_open_existing _ _ _ _ Hd Hro). cbn zeta.
  destruct (zero_loop (file_path self) (fresh (dom (fds w))) (Z.to_nat (passes self))
              (set_fds (insert (fresh (dom (fds w)))
                          {| name := file_path self; appending := true; pos := length d |}) w)
              d (length d) O)
    as (w' & Hrun & Hf & Hc & Hr & Hs);
    [apply fresh_fd_lookup|cbn [files set_fds]; exact Hd|].
  rewrite Hrun. eexists. split; [reflexivity|].
  cbn [files calls readonly sealed set_fds] in *. rewrite Hf, Hc, Hr, Hs. auto.
Qed.

Lemma random_loop_spec (n : nat) self w d :
  files w !! file_path self = Some d -> file_path self ∉ readonly w ->
  exists w',
    with_open (file_path self) "ba+" (fun f =>
      for_range n (pass (file_path self) f os_urandom)) w = (inr tt, w') /\
    files w' = <[file_path self := grow (random_gen (entropy w)) (drawn w) n d]> (files w) /\
    calls w' = calls w ++ pass_log (file_path self) (random_gen (entropy w)) (drawn w) n d /\
    readonly w' = readonly w /\ sealed w' = sealed w.
Proof.
  intros Hd Hro. rewrite (with_open_existing _ _ _ _ Hd Hro). cbn zeta.
  destruct (random_loop (file_path self) (fresh (dom (fds w))) n
              (set_fds (insert (fresh (dom (fds w)))
                          {| name := file_path self; appending := true; pos := length d |}) w)
              d (length d))
    as (w' & Hrun & Hf & Hc & Hr & Hs);
    [apply fresh_fd_lookup|cbn [files set_fds]; exact Hd|].
  rewrite Hrun. eexists. split; [reflexivity|].
  cbn [files calls readonly sealed set_fds entropy drawn] in *. rewrite Hf, Hc, Hr, Hs. auto.
Qed.

Lemma cfb_update_length key data : forall reg n,
  length (cfb_update aes key reg n data) = length data.
Proof.
  induction data as [|p rest IH]; intros reg n; cbn [cfb_update length]; [reflexivity|].
  rewrite IH. reflexivity.
Qed.

(** The primitives, one step each. *)
Lemma urandom_step n w :
  0 <= n ->
  os_urandom n w =
  (inr (map (entropy w) (seq (drawn w) (Z.to_nat n))),
   set_drawn (drawn w + Z.to_nat n) w).
Proof.
  intros Hn. unfold os_urandom.
  replace (n <? 0) with false by (symmetry; apply Z.ltb_ge; exact Hn).
  reflexivity.
Qed.

Lemma seek_step fd o w f :
  fds w !! fd = Some f ->
  seek fd o w =
  (inr o, set_fds (insert fd {| name := name f; appending := appending f; pos := o |}) w).
Proof.
  intros Hf. unfold seek. unfold bind at 1. cbn [get]. rewrite Hf. reflexivity.
Qed.

Lemma read_step fd w f d :
  fds w !! fd = Some f -> files w !! name f = Some d ->
  read fd w =
  (inr (drop (pos f) d),
   set_fds (insert fd {| name := name f; appending := appending f;
                         pos := (pos f + length (drop (pos f) d))%nat |})
     (log (sys_read (name f) (pos f) (length (drop (pos f) d))) w)).
Proof.
  intros Hf Hd. unfold read. unfold bind at 1. cbn [get]. rewrite Hf, Hd. reflexivity.
Qed.

(** [aes_wipe]: one read of the whole file, one write of the ciphertext,
    which append mode puts after the plaintext. *)
Lemma aes_wipe_spec self w d :
  files w !! file_path self = Some d -> file_path self ∉ readonly w ->
  exists w',
    aes_wipe aes self w = (inr tt, w') /\
    files w' =
      <[file_path self :=
          d ++ transferred
                 (cfb_update aes (map (entropy w) (seq (drawn w) 32))
                    (map (entropy w) (seq (drawn w + 32) 16)) 0 d)]> (files w) /\
    calls w' =
      calls w ++
      [sys_read (file_path self) 0 (length d);
       sys_write (file_path self) (length d)
         (transferred
            (cfb_update aes (map (entropy w) (seq (drawn w) 32))
               (map (entropy w) (seq (drawn w + 32) 16)) 0 d))] /\
    readonly w' = readonly w /\ sealed w' = sealed w.
Proof.
  intros Hd Hro. unfold aes_wipe.
  erewrite bind_inr by (apply urandom_step; lia).
  erewrite bind_inr by (apply urandom_step; lia).
  rewrite (with_open_existing _ _ _ d); [|exact Hd|exact Hro]. cbn zeta.
  set (fd := fresh (dom _)).
  erewrite bind_inr by (apply seek_step; apply lookup_insert_eq).
  erewrite bind_inr.
  2:{ eapply read_step; [apply lookup_insert_eq|exact Hd]. }
  cbn [pos name appending]. rewrite drop_0.
  erewrite bind_inr by (eapply seek_step; apply lookup_insert_eq).
  erewrite bind_inr.
  2:{ eapply write_append_step; [apply lookup_insert_eq|reflexivity|exact Hd]. }
  cbn [ret name appending]. eexists. split; [reflexivity|].
  unfold cfb_finalize. rewrite app_nil_r.
  cbn [files calls readonly sealed set_fds set_files set_drawn log entropy drawn].
  rewrite <- app_assoc. auto.
Qed.

End Methods.

Section Unlink.
Import Py Eraser.

Lemma os_remove_removes path w d :
  files w !! path = Some d -> path ∉ sealed w ->
  os_remove path w = (inr tt, set_files (delete path) (log (sys_unlink path) w)).
Proof.
  intros Hd Hs. unfold os_remove. unfold bind at 1. cbn [get]. rewrite Hd.
  rewrite bool_decide_eq_false_2 by exact Hs. reflexivity.
Qed.

Lemma os_remove_refused path w d :
  files w !! path = Some d -> path ∈ sealed w ->
  os_remove path w = (inl PermissionError, w).
Proof.
  intros Hd Hs. unfold os_remove. unfold bind at 1. cbn [get]. rewrite Hd.
  rewrite bool_decide_eq_true_2 by exact Hs. reflexivity.
Qed.

Variable aes : list byte -> list byte -> list byte.

(** Whatever the method, the phase before [os.remove] ends normally on
    an existing writable file, which is still there afterwards; the
    directory is as it was. *)
Lemma overwrite_appends self w d :
  files w !! file_path self = Some d -> file_path self ∉ readonly w ->
  exists tail w',
    overwrite aes self w = (inr tt, w') /\
    files w' = <[file_path self := d ++ tail]> (files w) /\
    sealed w' = sealed w.
Proof.
  intros Hd Hro. unfold overwrite.
  destruct (String.eqb (method self) "zero").
  { destruct (zero_fill_spec self w d Hd Hro) as (w' & Hrun & Hf & _ & _ & Hs).
    destruct (grow_prefix zero_gen (Z.to_nat (passes self)) 0 d) as [tail Ht].
    exists tail, w'. rewrite <- Ht. auto. }
  destruct (String.eqb (method self) "random").
  { destruct (random_loop_spec (Z.to_nat (passes self)) self w d Hd Hro)
      as (w' & Hrun & Hf & _ & _ & Hs).
    destruct (grow_prefix (random_gen (entropy w)) (Z.to_nat (passes self)) (drawn w) d)
      as [tail Ht].
    exists tail, w'. rewrite <- Ht. rewrite random_fill_pass. auto. }
  destruct (String.eqb (method self) "dod").
  { destruct (random_loop_spec 3 self w d Hd Hro) as (w' & Hrun & Hf & _ & _ & Hs).
    destruct (grow_prefix (random_gen (entropy w)) 3 (drawn w) d) as [tail Ht].
    exists tail, w'. rewrite <- Ht. rewrite dod_standard_pass. auto. }
  destruct (String.eqb (method self) "aes").
  { destruct (aes_wipe_spec aes self w d Hd Hro) as (w' & Hrun & Hf & _ & _ & Hs).
    eexists _, w'. eauto. }
  exists [], w. rewrite app_nil_r, insert_id by exact Hd. auto.
Qed.

(** A method that opens the file ends with the [PermissionError] of
    [open], before any effect, when the file may not be written. *)
Lemma run_refused_open self w d :
  method self = "zero" \/ method self = "random" \/
  method self = "dod" \/ method self = "aes" ->
  files w !! file_path self = Some d -> file_path self ∈ readonly w ->
  exists w', run aes self w = (inl PermissionError, w') /\
             files w' = files w /\ calls w' = calls w.
Proof.
  intros Hm Hd Hro. unfold run.
  destruct Hm as [Hm|[Hm|[Hm|Hm]]]; rewrite Hm; cbn [String.eqb Ascii.eqb Bool.eqb].
  - exists w. split; [|split; reflexivity]. apply bind_inl.
    unfold zero_fill. apply (with_open_readonly _ _ _ _ Hd Hro).
  - exists w. split; [|split; reflexivity]. apply bind_inl.
    unfold random_fill. apply (with_open_readonly _ _ _ _ Hd Hro).
  - exists w. split; [|split; reflexivity]. apply bind_inl.
    unfold dod_standard. apply (with_open_readonly _ _ _ _ Hd Hro).
  - eexists. split; [|split]; cycle 1; [| |apply bind_inl; unfold aes_wipe].
    3:{ erewrite bind_inr by (apply urandom_step; lia).
        erewrite bind_inr by (apply urandom_step; lia).
        apply (with_open_readonly _ _ _ d); [exact Hd|exact Hro]. }
    all: reflexivity.
Qed.

End Unlink.

(** ** The claims on SecureDeleteThread *)

Section EraseTheorems.
Import Py Eraser.
Variable aes : list byte -> list byte -> list byte.

(** C3 (amended). With the file opened in append mode, [zero_fill] and
    [random_fill] of [p] passes on an existing writable file of content [d]
    end normally in the state in which [run] calls [os.remove]; there the
    file holds [d] followed by the appended bytes; the [p] writes each
    start where the file ends at that moment, at or beyond [length d], so
    no original byte is overwritten.  As long as every pass buffer is
    within what one [write] call transfers, the file has size
    [length d * 2 ^ p] there, each buffer written is as long as the file
    is at that moment, and after [zero_fill] the appended bytes are all
    zero. *)
Theorem append_mode_never_overwrites (self : SecureDeleteThread) (w : world)
    (d : list byte) (p : nat) :
  method self = "zero" \/ method self = "random" ->
  passes self = Z.of_nat p ->
  files w !! file_path self = Some d ->
  file_path self ∉ readonly w ->
  exists tail w' cs,
    (if String.eqb (method self) "zero" then zero_fill self else random_fill self) w
      = (inr tt, w') /\
    run aes self w = os_remove (file_path self) w' /\
    files w' !! file_path self = Some (d ++ tail) /\
    calls w' = calls w ++ cs /\
    length cs = p /\
    Forall (fun c => exists o buf, c = sys_write (file_path self) o buf /\
                                   (length d <= o)%nat) cs /\
    appended (length d) (writes cs) = true /\
    ((forall i, (i < p)%nat -> Z.of_nat (length d * 2 ^ i) <= MAX_RW_COUNT) ->
     length (d ++ tail) = (length d * 2 ^ p)%nat /\
     (method self = "zero" -> tail = replicate ((2 ^ p - 1) * length d) Byte.x00) /\
     Forall (fun c => exists o buf, c = sys_write (file_path self) o buf /\
                                    length buf = o) cs).
Proof.
  intros Hm Hp Hd Hro. rewrite run_overwrite. unfold overwrite.
  destruct Hm as [Hm|Hm]; rewrite Hm; cbn [String.eqb Ascii.eqb Bool.eqb].
  - destruct (zero_fill_spec self w d Hd Hro) as (w' & Hrun & Hf & Hc & _ & _).
    rewrite Hp, Nat2Z.id in Hf, Hc.
    assert (forall dr len, length (zero_gen dr len) = len) as Hlen
      by (intros; apply length_replicate).
    destruct (grow_prefix zero_gen p 0 d) as [tail Ht].
    exists tail, w', (pass_log (file_path self) zero_gen 0 p d).
    rewrite <- Ht.
    split; [exact Hrun|].
    split; [rewrite (bind_inr _ _ _ _ _ Hrun); reflexivity|].
    split; [rewrite Hf; apply lookup_insert_eq|].
    split; [exact Hc|].
    split; [apply pass_log_length|].
    split; [apply pass_log_beyond|].
    split; [apply pass_log_appended|].
    intros Hb.
    split; [apply grow_length; assumption|].
    split; [|apply pass_log_full; assumption].
    intros _. rewrite (grow_zero p 0 d Hb) in Ht.
    apply app_inv_head in Ht. symmetry. exact Ht.
  - destruct (random_loop_spec (Z.to_nat (passes self)) self w d Hd Hro)
      as (w' & Hrun & Hf & Hc & _ & _).
    rewrite <- random_fill_pass in Hrun.
    rewrite Hp, Nat2Z.id in Hf, Hc.
    assert (forall dr len, length (random_gen (entropy w) dr len) = len) as Hlen.
    { intros. unfold random_gen. rewrite length_map, length_seq. reflexivity. }
    destruct (grow_prefix (random_gen (entropy w)) p (drawn w) d) as [tail Ht].
    exists tail, w', (pass_log (file_path self) (random_gen (entropy w)) (drawn w) p d).
    rewrite <- Ht.
    split; [exact Hrun|].
    split; [rewrite (bind_inr _ _ _ _ _ Hrun); reflexivity|].
    split; [rewrite Hf; apply lookup_insert_eq|].
    split; [exact Hc|].
    split; [apply pass_log_length|].
    split; [apply pass_log_beyond|].
    split; [apply pass_log_appended|].
    intros Hb.
    split; [apply grow_length; assumption|].
    split; [intros [=]|apply pass_log_full; assumption].
Qed.

(** C9 (amended). For every erase of an existing writable file whose
    directory entry cannot be removed, the phase before [os.remove] ends
    normally, then [run] ends with the [PermissionError] that [os.remove]
    raises, and the entry persists.  No other outcome exists: it is the
    exception that [run] ends with when [open] is refused before any
    pass. *)
Theorem unlink_failure_propagates (self : SecureDeleteThread) (w : world) (d : list byte) :
  files w !! file_path self = Some d ->
  file_path self ∉ readonly w ->
  file_path self ∈ sealed w ->
  (exists w',
     overwrite aes self w = (inr tt, w') /\
     run aes self w = (inl PermissionError, w') /\
     is_Some (files w' !! file_path self)) /\
  forall v dv,
    method self = "zero" \/ method self = "random" \/
    method self = "dod" \/ method self = "aes" ->
    files v !! file_path self = Some dv ->
    file_path self ∈ readonly v ->
    (run aes self v).1 = (run aes self w).1 /\ calls (run aes self v).2 = calls v.
Proof.
  intros Hd Hro Hse.
  destruct (overwrite_appends aes self w d Hd Hro) as (tail & w' & Hrun & Hf & Hs).
  assert (files w' !! file_path self = Some (d ++ tail)) as Hd'
      by (rewrite Hf; apply lookup_insert_eq).
  assert (run aes self w = (inl PermissionError, w')) as Hw.
  { rewrite run_overwrite, (bind_inr _ _ _ _ _ Hrun).
    apply (os_remove_refused _ _ _ Hd'). rewrite Hs. exact Hse. }
  split.
  - exists w'. split; [exact Hrun|]. split; [exact Hw|]. rewrite Hd'. eauto.
  - intros v dv Hm Hdv Hrov.
    destruct (run_refused_open aes self v dv Hm Hdv Hrov) as (v' & Hv & _ & Hc).
    rewrite Hv, Hw. split; [reflexivity|exact Hc].
Qed.

(** C10. For every erase request whose method is none of ['zero'],
    ['random'], ['dod'], ['aes'], [run] is [os.remove] alone: on an existing
    file whose entry can be removed it ends normally, the only system call
    is the unlink, no byte was written, and the path is gone. *)
Theorem unknown_method_only_removes (self : SecureDeleteThread) (w : world) (d : list byte) :
  method self <> "zero" -> method self <> "random" ->
  method self <> "dod" -> method self <> "aes" ->
  files w !! file_path self = Some d ->
  file_path self ∉ sealed w ->
  run aes self w = os_remove (file_path self) w /\
  exists w',
    run aes self w = (inr tt, w') /\
    calls w' = calls w ++ [sys_unlink (file_path self)] /\
    files w' = delete (file_path self) (files w) /\
    files w' !! file_path self = None.
Proof.
  intros Hz Hr Hdod Ha Hd Hs.
  assert (run aes self w = os_remove (file_path self) w) as Hrun.
  { unfold run.
    apply String.eqb_neq in Hz, Hr, Hdod, Ha. rewrite Hz, Hr, Hdod, Ha. reflexivity. }
  split; [exact Hrun|]. rewrite Hrun, (os_remove_removes _ _ _ Hd Hs).
  eexists. split; [reflexivity|]. cbn [calls files set_files log].
  split; [reflexivity|]. split; [reflexivity|]. apply lookup_delete_eq.
Qed.

End EraseTheorems.

Section EraseExamples.
Import Py Eraser.

(** C1 (counterexample). [run] with method ['zero'] and [passes = 0] on
    the ten-byte file ends normally, not with an error: it writes nothing
    and removes the file, which therefore does not exist afterwards. *)
Lemma run_zero_passes_removes_file :
  (run xor_block (erase_a "zero" 0) disk_a).1 = inr tt /\
  calls (run xor_block (erase_a "zero" 0) disk_a).2 = [sys_unlink a_txt] /\
  files (run xor_block (erase_a "zero" 0) disk_a).2 !! a_txt = None /\
  ~ ((exists e, (run xor_block (erase_a "zero" 0) disk_a).1 = inl e) /\
     files (run xor_block (erase_a "zero" 0) disk_a).2 !! a_txt = files disk_a !! a_txt).
Proof.
  split; [vm_compute; reflexivity|]. split; [vm_compute; reflexivity|].
  split; [vm_compute; reflexivity|].
  intros [[e He] _]. vm_compute in He. discriminate.
Qed.

(** C2. Zero fill with three passes on the ten-byte file of the
    scenario: the three buffers written are of 10, 20 and 40 zero bytes, at
    offsets 10, 20 and 40, not three buffers of 10 bytes at offset 0; when
    [os.remove] is called the file has 80 bytes, of which the first ten are
    the original content. *)
Lemma zero_fill_three_passes_grows :
  (zero_fill (erase_a "zero" 3) disk_a).1 = inr tt /\
  writes (calls (zero_fill (erase_a "zero" 3) disk_a).2) =
    [(10%nat, replicate 10 Byte.x00);
     (20%nat, replicate 20 Byte.x00);
     (40%nat, replicate 40 Byte.x00)] /\
  files (zero_fill (erase_a "zero" 3) disk_a).2 !! a_txt =
    Some (ten_bytes ++ replicate 70 Byte.x00) /\
  run xor_block (erase_a "zero" 3) disk_a =
    os_remove a_txt (zero_fill (erase_a "zero" 3) disk_a).2.
Proof.
  split; [vm_compute; reflexivity|]. split; [vm_compute; reflexivity|].
  split; vm_compute; reflexivity.
Qed.

(** C3 (counterexample). One zero pass on a file of 2147487744 bytes:
    the buffer is longer than one [write] call transfers, the call takes
    2147479552 bytes of it, and the file has 4294967296 bytes when
    [os.remove] is called, not twice its size. *)
Lemma zero_fill_large_file_short_write :
  Z.of_nat (length large_file) = 2147487744 /\
  exists w' content,
    zero_fill (erase_a "zero" 1) disk_large = (inr tt, w') /\
    run xor_block (erase_a "zero" 1) disk_large = os_remove a_txt w' /\
    files w' !! a_txt = Some content /\
    Z.of_nat (length content) = 4294967296 /\
    Z.of_nat (length content) <> Z.of_nat (length large_file) * 2 ^ 1.
Proof.
  assert (Z.of_nat (length large_file) = 2147487744) as Hlen.
  { unfold large_file. rewrite length_replicate. apply Z2Nat.id. lia. }
  split; [exact Hlen|].
  assert (files disk_large !! file_path (erase_a "zero" 1) = Some large_file) as Hd
    by apply lookup_singleton_eq.
  destruct (zero_fill_spec (erase_a "zero" 1) disk_large large_file Hd)
    as (w' & Hrun & Hf & _); [apply not_elem_of_empty|].
  assert (Z.to_nat (passes (erase_a "zero" 1)) = 1%nat) as Hp by reflexivity.
  rewrite Hp, grow_one in Hf.
  exists w', (large_file ++ transferred (zero_gen 0 (length large_file))).
  split; [exact Hrun|].
  split.
  { rewrite run_overwrite. unfold overwrite.
    change (method (erase_a "zero" 1)) with "zero"%string.
    cbn [String.eqb Ascii.eqb Bool.eqb].
    rewrite (bind_inr _ _ _ _ _ Hrun). reflexivity. }
  split; [rewrite Hf; apply lookup_insert_eq|].
  assert (Z.of_nat (length (large_file ++ transferred (zero_gen 0 (length large_file))))
          = 4294967296) as Hsize.
  { rewrite length_app, Nat2Z.inj_add, transferred_length.
    unfold zero_gen. rewrite length_replicate, Hlen. unfold MAX_RW_COUNT. lia. }
  split; [exact Hsize|]. rewrite Hsize, Hlen. lia.
Qed.

(** C4. AES wipe of the ten-byte file of the scenario, for any block
    function: the ciphertext has ten bytes and is written once, at offset 10
    and not at offset 0, so that when [os.remove] is called the file has
    twenty bytes and still begins with the plaintext. *)
Lemma aes_wipe_appends_ciphertext (aes : list byte -> list byte -> list byte) :
  exists c w',
    aes_wipe aes (erase_a "aes" 1) disk_a = (inr tt, w') /\
    run aes (erase_a "aes" 1) disk_a = os_remove a_txt w' /\
    length c = 10%nat /\
    calls w' = [sys_read a_txt 0 10; sys_write a_txt 10 c] /\
    files w' !! a_txt = Some (ten_bytes ++ c).
Proof.
  destruct (aes_wipe_spec aes (erase_a "aes" 1) disk_a ten_bytes)
    as (w' & Hrun & Hf & Hc & _ & _);
    [vm_compute; reflexivity|apply not_elem_of_empty|].
  rewrite transferred_whole in Hf, Hc
    by (rewrite cfb_update_length; vm_compute; discriminate).
  exists (cfb_update aes (map (entropy disk_a) (seq (drawn disk_a) 32))
            (map (entropy disk_a) (seq (drawn disk_a + 32) 16)) 0 ten_bytes), w'.
  split; [exact Hrun|].
  split; [rewrite run_overwrite; unfold overwrite; cbn [erase_a method String.eqb Ascii.eqb Bool.eqb];
          rewrite (bind_inr _ _ _ _ _ Hrun); reflexivity|].
  split; [rewrite cfb_update_length; reflexivity|].
  split; [exact Hc|].
  rewrite Hf. apply lookup_insert_eq.
Qed.

(** C8. The three passes of method ['dod'] on the ten-byte file of the
    scenario, whatever [passes] is: three buffers of bytes drawn from
    [os.urandom] are written, of 10, 20 and 40 bytes at offsets 10, 20 and
    40, each after the bytes present and none over them; when [os.remove]
    is called the file has 80 bytes, of which the first ten are the
    original content. *)
Lemma dod_standard_three_appended_writes (p : Z) :
  (dod_standard (erase_a "dod" p) disk_a).1 = inr tt /\
  writes (calls (dod_standard (erase_a "dod" p) disk_a).2) =
    [(10%nat, map counting (seq 0 10));
     (20%nat, map counting (seq 10 20));
     (40%nat, map counting (seq 30 40))] /\
  files (dod_standard (erase_a "dod" p) disk_a).2 !! a_txt =
    Some (ten_bytes ++ map counting (seq 0 70)) /\
  run xor_block (erase_a "dod" p) disk_a =
    os_remove a_txt (dod_standard (erase_a "dod" p) disk_a).2.
Proof.
  change (dod_standard (erase_a "dod" p)) with (dod_standard (erase_a "dod" 3)).
  change (run xor_block (erase_a "dod" p)) with (run xor_block (erase_a "dod" 3)).
  split; [vm_compute; reflexivity|]. split; [vm_compute; reflexivity|].
  split; vm_compute; reflexivity.
Qed.

(** C9 (counterexample). On a directory that refuses the removal, one
    zero pass is written and [run] ends with [PermissionError]; on a file
    that may not be written, nothing is written and [run] ends with
    [PermissionError] as well: the outcome after the overwrite is not
    distinct from the outcome before it. *)
Lemma unlink_failure_same_outcome :
  (run xor_block (erase_a "zero" 1) disk_sealed).1 = inl PermissionError /\
  writes (calls (run xor_block (erase_a "zero" 1) disk_sealed).2)
    = [(10%nat, replicate 10 Byte.x00)] /\
  (run xor_block (erase_a "zero" 1) disk_readonly).1 = inl PermissionError /\
  calls (run xor_block (erase_a "zero" 1) disk_readonly).2 = [] /\
  ~ ((run xor_block (erase_a "zero" 1) disk_sealed).1
     <> (run xor_block (erase_a "zero" 1) disk_readonly).1).
Proof.
  split; [vm_compute; reflexivity|]. split; [vm_compute; reflexivity|].
  split; [vm_compute; reflexivity|]. split; [vm_compute; reflexivity|].
  intros H. apply H. vm_compute. reflexivity.
Qed.

End EraseExamples.

Section EraseWitnesses.
Import Py Eraser.

Lemma append_mode_never_overwrites_witness :
  (method (erase_a "zero" 3) = "zero" \/ method (erase_a "zero" 3) = "random") /\
  passes (erase_a "zero" 3) = Z.of_nat 3 /\
  files disk_a !! file_path (erase_a "zero" 3) = Some ten_bytes /\
  (file_path (erase_a "zero" 3) ∉ readonly disk_a) /\
  (forall i, (i < 3)%nat -> Z.of_nat (length ten_bytes * 2 ^ i) <= MAX_RW_COUNT) /\
  exists tail w' cs,
    (if String.eqb (method (erase_a "zero" 3)) "zero"
     then zero_fill (erase_a "zero" 3) else random_fill (erase_a "zero" 3)) disk_a
      = (inr tt, w') /\
    run xor_block (erase_a "zero" 3) disk_a = os_remove (file_path (erase_a "zero" 3)) w' /\
    files w' !! file_path (erase_a "zero" 3) = Some (ten_bytes ++ tail) /\
    calls w' = calls disk_a ++ cs /\
    length cs = 3%nat /\
    Forall (fun c => exists o buf, c = sys_write (file_path (erase_a "zero" 3)) o buf /\
                                   (length ten_bytes <= o)%nat) cs /\
    appended (length ten_bytes) (writes cs) = true /\
    length (ten_bytes ++ tail) = (length ten_bytes * 2 ^ 3)%nat /\
    (method (erase_a "zero" 3) = "zero" ->
     tail = replicate ((2 ^ 3 - 1) * length ten_bytes) Byte.x00) /\
    Forall (fun c => exists o buf, c = sys_write (file_path (erase_a "zero" 3)) o buf /\
                                   length buf = o) cs.
Proof.
  assert (forall i, (i < 3)%nat -> Z.of_nat (length ten_bytes * 2 ^ i) <= MAX_RW_COUNT)
    as Hb.
  { intros i Hi. assert (i = 0 \/ i = 1 \/ i = 2)%nat as [->|[->| ->]] by lia;
      vm_compute; discriminate. }
  split; [left; reflexivity|]. split; [reflexivity|].
  split; [vm_compute; reflexivity|]. split; [apply not_elem_of_empty|].
  split; [exact Hb|].
  destruct (append_mode_never_overwrites xor_block (erase_a "zero" 3) disk_a ten_bytes 3)
    as (tail & w' & cs & H1 & H2 & H3 & H4 & H5 & H6 & H7 & H8).
  - left. reflexivity.
  - reflexivity.
  - vm_compute. reflexivity.
  - apply not_elem_of_empty.
  - destruct (H8 Hb) as (H9 & H10 & H11).
    exists tail, w', cs. repeat (split; [assumption|]). assumption.
Defined.

Lemma unlink_failure_propagates_witness :
  files disk_sealed !! file_path (erase_a "zero" 1) = Some ten_bytes /\
  (file_path (erase_a "zero" 1) ∉ readonly disk_sealed) /\
  (file_path (erase_a "zero" 1) ∈ sealed disk_sealed) /\
  (exists w',
     overwrite xor_block (erase_a "zero" 1) disk_sealed = (inr tt, w') /\
     run xor_block (erase_a "zero" 1) disk_sealed = (inl PermissionError, w') /\
     is_Some (files w' !! file_path (erase_a "zero" 1))) /\
  forall v dv,
    method (erase_a "zero" 1) = "zero" \/ method (erase_a "zero" 1) = "random" \/
    method (erase_a "zero" 1) = "dod" \/ method (erase_a "zero" 1) = "aes" ->
    files v !! file_path (erase_a "zero" 1) = Some dv ->
    file_path (erase_a "zero" 1) ∈ readonly v ->
    (run xor_block (erase_a "zero" 1) v).1
      = (run xor_block (erase_a "zero" 1) disk_sealed).1 /\
    calls (run xor_block (erase_a "zero" 1) v).2 = calls v.
Proof.
  split; [vm_compute; reflexivity|]. split; [apply not_elem_of_empty|].
  split; [apply (bool_decide_unpack _); vm_compute; exact I|].
  apply (unlink_failure_propagates xor_block (erase_a "zero" 1) disk_sealed ten_bytes).
  - vm_compute. reflexivity.
  - apply not_elem_of_empty.
  - apply (bool_decide_unpack _). vm_compute. exact I.
Defined.

Lemma unknown_method_only_removes_witness :
  method (erase_a "zero_fill" 3) <> "zero" /\
  method (erase_a "zero_fill" 3) <> "random" /\
  method (erase_a "zero_fill" 3) <> "dod" /\
  method (erase_a "zero_fill" 3) <> "aes" /\
  files disk_a !! file_path (erase_a "zero_fill" 3) = Some ten_bytes /\
  (file_path (erase_a "zero_fill" 3) ∉ sealed disk_a) /\
  run xor_block (erase_a "zero_fill" 3) disk_a
    = os_remove (file_path (erase_a "zero_fill" 3)) disk_a /\
  exists w',
    run xor_block (erase_a "zero_fill" 3) disk_a = (inr tt, w') /\
    calls w' = calls disk_a ++ [sys_unlink (file_path (erase_a "zero_fill" 3))] /\
    files w' = delete (file_path (erase_a "zero_fill" 3)) (files disk_a) /\
    files w' !! file_path (erase_a "zero_fill" 3) = None.
Proof.
  split; [discriminate|]. split; [discriminate|]. split; [discriminate|].
  split; [discriminate|]. split; [vm_compute; reflexivity|].
  split; [apply not_elem_of_empty|].
  apply (unknown_method_only_removes xor_block (erase_a "zero_fill" 3) disk_a ten_bytes).
  - discriminate.
  - discriminate.
  - discriminate.
  - discriminate.
  - vm_compute. reflexivity.
  - apply not_elem_of_empty.
Defined.

End EraseWitnesses.

(** ** The caller *)

Section Caller.
Import Py App.

(** [secure_delete_file] never touches the disk: it ends before the
    thread is started. *)
Lemma secure_delete_file_keeps_disk self s :
  disk (secure_delete_file self s).2 = disk s.
Proof.
  unfold secure_delete_file. destruct (get_selected_file self) as [f|]; [|reflexivity].
  unfold validate_passes.
  destruct (negb ((1 <=? passes_slider self) && (passes_slider self <=? 99)));
    reflexivity.
Qed.

(** C1 (amended). An erase requested through [secure_delete_file] with a
    number of passes outside [1, 99] is refused by [validate_passes] before
    a [SecureDeleteThread] is made: the method ends normally after showing
    the warning, no system call is made, and the disk, hence the file, is
    unchanged.  [SecureDeleteThread.run] itself does not inspect
    [passes]. *)
Theorem secure_delete_file_rejects_passes (self : ShredSpaceApp) (s : session) (f : string) :
  get_selected_file self = Some f ->
  passes_slider self < 1 \/ 99 < passes_slider self ->
  secure_delete_file self s =
  (inr tt,
   {| disk := disk s;
      ui := ui s ++ [QMessageBox_warning "Invalid Input"
                       "Number of passes must be between 1 and 99."];
      secure_delete_thread := secure_delete_thread s |}).
Proof.
  intros Hf Hp. unfold secure_delete_file. rewrite Hf. unfold validate_passes.
  replace (negb ((1 <=? passes_slider self) && (passes_slider self <=? 99))) with true.
  - reflexivity.
  - symmetry. apply negb_true_iff, andb_false_iff.
    destruct Hp; [left; apply Z.leb_gt|right; apply Z.leb_gt]; assumption.
Qed.

End Caller.



Lemma secure_delete_file_rejects_passes_witness :
  App.get_selected_file (window 0) = Some "a.txt" /\
  (App.passes_slider (window 0) < 1 \/ 99 < App.passes_slider (window 0)) /\
  App.secure_delete_file (window 0) (App.fresh_session disk_a) =
  (inr tt,
   {| App.disk := App.disk (App.fresh_session disk_a);
      App.ui := App.ui (App.fresh_session disk_a) ++
                [App.QMessageBox_warning "Invalid Input"
                   "Number of passes must be between 1 and 99."];
      App.secure_delete_thread := App.secure_delete_thread (App.fresh_session disk_a) |}).
Proof.
  split; [reflexivity|]. split; [left; reflexivity|].
  apply (secure_delete_file_rejects_passes (window 0) (App.fresh_session disk_a) "a.txt").
  - reflexivity.
  - left. reflexivity.
Defined.

(** With a number of passes in range the thread is made, and the missing
    [progress] signal ends the method before the thread is started. *)
Example secure_delete_file_in_range :
  (App.secure_delete_file (window 3) (App.fresh_session disk_a)).1 = inl Py.AttributeError /\
  App.secure_delete_thread (App.secure_delete_file (window 3) (App.fresh_session disk_a)).2
    = Some (erase_a "zero" 3) /\
  App.disk (App.secure_delete_file (window 3) (App.fresh_session disk_a)).2 = disk_a.
Proof. split; [reflexivity|]. split; reflexivity. Qed.

(** * Properties of the windows *)
(** ** PaginatedListWidget *)

Section PagingFacts.
Import Pyx Paging.

Lemma fold_addItem (l : list string) : forall lw,
  fold_left addItem l lw = {| rows := rows lw ++ l; currentRow := currentRow lw |}.
Proof.
  induction l as [|x l IH]; intros lw; cbn [fold_left].
  - rewrite app_nil_r. destruct lw; reflexivity.
  - rewrite IH. cbn. rewrite <- app_assoc. reflexivity.
Qed.

(** The slice between two indices that are not negative. *)
Lemma slice_nonneg {A} (l : list A) (a b : Z) :
  0 <= a -> 0 <= b ->
  slice l a (a + b) = take (Z.to_nat b) (drop (Z.to_nat a) l).
Proof.
  intros Ha Hb. unfold slice, slice_index.
  replace (a <? 0) with false by (symmetry; apply Z.ltb_ge; lia).
  replace (a + b <? 0) with false by (symmetry; apply Z.ltb_ge; lia).
  destruct (Z_le_gt_dec (Z.of_nat (length l)) a) as [Hlen|Hlen].
  - rewrite !Z.min_r by lia. rewrite Z.sub_diag.
    rewrite (drop_ge l (Z.to_nat a)) by lia. rewrite take_nil. reflexivity.
  - rewrite (Z.min_l a) by lia.
    destruct (Z_le_gt_dec (a + b) (Z.of_nat (length l))) as [Hb'|Hb'].
    + rewrite Z.min_l by lia. f_equal. lia.
    + rewrite Z.min_r by lia.
      rewrite !take_ge; [reflexivity| |]; rewrite length_drop; lia.
Qed.

Lemma update_display_page_of self :
  update_display self = page_of (items self) (items_per_page self) (current_page self).
Proof. unfold update_display, page_of. rewrite fold_addItem. reflexivity. Qed.

Lemma next_page_page_of l per page :
  next_page (page_of l per page) = page_of l per (page + 1).
Proof. unfold next_page. rewrite update_display_page_of. reflexivity. Qed.

Lemma previous_page_page_of l per page :
  previous_page (page_of l per page) = page_of l per (page - 1).
Proof. unfold previous_page. rewrite update_display_page_of. reflexivity. Qed.

Lemma new_page_of l per : new l per = page_of l per 0.
Proof. unfold new. rewrite update_display_page_of. reflexivity. Qed.

Lemma rows_page_of l per page :
  0 <= per -> 0 <= page ->
  rows (list_widget (page_of l per page))
  = take (Z.to_nat per) (drop (Z.to_nat (page * per)) l).
Proof. intros Hper Hpage. cbn. apply slice_nonneg; lia. Qed.

End PagingFacts.

Section PagingTheorems.
Import Pyx Paging.

(** X1. On a page that is not negative, with a page size that is not
    negative, [update_display] shows the items from position
    [current_page * items_per_page] on, at most [items_per_page] of them:
    positions beyond the list give fewer rows or none, never an error. *)
Theorem update_display_shows_page (self : PaginatedListWidget) :
  0 <= current_page self -> 0 <= items_per_page self ->
  rows (list_widget (update_display self))
    = take (Z.to_nat (items_per_page self))
           (drop (Z.to_nat (current_page self * items_per_page self)) (items self)) /\
  Z.of_nat (length (rows (list_widget (update_display self)))) <= items_per_page self.
Proof.
  intros Hpage Hper. rewrite update_display_page_of.
  rewrite rows_page_of by assumption.
  split; [reflexivity|].
  rewrite length_take. lia.
Qed.

Lemma browse_from (l : list string) (per : Z) (Hper : 0 < per) : forall fuel page,
  0 <= page ->
  Z.of_nat (length l) - (page + 1) * per <= Z.of_nat fuel ->
  concat (browse fuel (page_of l per page)) = drop (Z.to_nat (page * per)) l.
Proof.
  induction fuel as [|fuel IH]; intros page Hpage Hfuel.
  - cbn [browse]. rewrite rows_page_of by lia.
    replace (next_button (page_of l per page)) with false.
    + cbn. rewrite app_nil_r. apply take_ge. rewrite length_drop. nia.
    + symmetry. cbn. apply Z.ltb_ge. nia.
  - cbn [browse]. rewrite rows_page_of by lia.
    destruct (next_button (page_of l per page)) eqn:Hnext.
    + rewrite next_page_page_of. cbn [concat]. rewrite IH by nia.
      replace (Z.to_nat ((page + 1) * per))
        with (Z.to_nat (page * per) + Z.to_nat per)%nat by nia.
      rewrite <- drop_drop. apply take_drop.
    + cbn. rewrite app_nil_r. apply take_ge. rewrite length_drop.
      cbn in Hnext. apply Z.ltb_ge in Hnext. nia.
Qed.

(** X2. With a positive page size, the pages seen from a new widget by
    pressing Next for as long as it is enabled are, put end to end, the
    list of items: every item is shown exactly once, in order. *)
Theorem browsing_shows_every_item (l : list string) (per : Z) :
  0 < per ->
  concat (browse (length l) (new l per)) = l.
Proof.
  intros Hper. rewrite new_page_of.
  rewrite (browse_from l per Hper (length l) 0) by nia.
  reflexivity.
Qed.

(** X3. With a positive page size, whatever buttons are pressed on a new
    widget, a press reaching its slot only when the button is enabled, the
    page stays within the list: it is never negative, it starts before the
    end of the list unless it is page 0, and it shows at least one item
    unless the list is empty. *)
Theorem presses_keep_page_in_list (l : list string) (per : Z) (cs : list click) :
  0 < per ->
  let self := fold_left press cs (new l per) in
  self = page_of l per (current_page self) /\
  0 <= current_page self /\
  (current_page self * per < Z.of_nat (length l) \/ current_page self = 0) /\
  (rows (list_widget self) <> [] \/ l = []).
Proof.
  intros Hper. cbn zeta. rewrite new_page_of.
  assert (forall page, 0 <= page ->
            (page * per < Z.of_nat (length l) \/ page = 0) ->
            rows (list_widget (page_of l per page)) <> [] \/ l = []) as Hrows.
  { intros page Hpage Hin. destruct l as [|x l']; [right; reflexivity|left].
    rewrite rows_page_of by lia. intros Hnil.
    apply (f_equal length) in Hnil. rewrite length_take, length_drop in Hnil.
    cbn [length] in *. destruct Hin as [Hin| ->]; [nia|]. cbn in Hnil. lia. }
  assert (forall page, 0 <= page ->
            (page * per < Z.of_nat (length l) \/ page = 0) ->
            let self := fold_left press cs (page_of l per page) in
            self = page_of l per (current_page self) /\
            0 <= current_page self /\
            (current_page self * per < Z.of_nat (length l) \/ current_page self = 0))
    as Hinv.
  { induction cs as [|c cs IH]; intros page Hpage Hin; cbn [fold_left].
    - cbn. auto.
    - destruct c; cbn [press].
      + destruct (next_button (page_of l per page)) eqn:Hn; [|apply IH; assumption].
        rewrite next_page_page_of. apply IH; [lia|].
        cbn in Hn. apply Z.ltb_lt in Hn. left. nia.
      + destruct (prev_button (page_of l per page)) eqn:Hp; [|apply IH; assumption].
        rewrite previous_page_page_of. cbn in Hp. apply Z.ltb_lt in Hp.
        apply IH; [lia|]. left. destruct Hin as [Hin|Hin]; nia. }
  destruct (Hinv 0 ltac:(lia) ltac:(right; reflexivity)) as (Heq & Hpage & Hin).
  split; [exact Heq|]. split; [exact Hpage|]. split; [exact Hin|].
  rewrite Heq. apply Hrows; assumption.
Qed.

(** X4. [previous_page] called on page 0, past the disabled button,
    moves to page -1, whose slice ends at position 0: with a positive page
    size nothing is shown, Previous is disabled and Next is enabled exactly
    when the list is not empty. *)
Theorem previous_page_before_first (self : PaginatedListWidget) :
  current_page self = 0 -> 0 < items_per_page self ->
  current_page (previous_page self) = -1 /\
  rows (list_widget (previous_page self)) = [] /\
  prev_button (previous_page self) = false /\
  next_button (previous_page self) = bool_decide (items self <> []).
Proof.
  intros Hpage Hper. unfold previous_page. rewrite update_display_page_of.
  cbn [set_page items items_per_page current_page]. rewrite Hpage.
  cbn [page_of current_page list_widget rows prev_button next_button].
  split; [reflexivity|]. split; [|split; [reflexivity|]].
  - unfold slice, slice_index.
    replace (0 - 1) with (-1) by lia.
    replace (-1 * items_per_page self + items_per_page self) with 0 by lia.
    replace (-1 * items_per_page self <? 0) with true by (symmetry; apply Z.ltb_lt; lia).
    cbn [Z.ltb Z.compare]. rewrite Z.min_l by lia.
    replace (Z.to_nat (0 - _)) with O by lia. reflexivity.
  - replace (0 - 1) with (-1) by lia.
    replace (-1 * items_per_page self + items_per_page self) with 0 by lia.
    destruct (items self) as [|x l]; reflexivity.
Qed.

End PagingTheorems.

(** ** Keys and search in the main window *)

Section KeyTheorems.
Import Pyx Paging.

Lemma key_down_step (w : window) :
  rows (list_widget (paginated_list w)) <> [] ->
  keyPressEvent Key_Down w =
  (inr tt, with_row w ((currentRow (list_widget (paginated_list w)) + 1)
                       mod count (list_widget (paginated_list w)))).
Proof.
  intros Hrows. unfold keyPressEvent. unfold bind at 1. cbn [get].
  unfold mod_.
  replace (count (list_widget (paginated_list w)) =? 0) with false.
  - reflexivity.
  - symmetry. apply Z.eqb_neq. unfold count.
    destruct (rows (list_widget (paginated_list w))); [congruence|cbn; lia].
Qed.

Lemma key_up_step (w : window) :
  rows (list_widget (paginated_list w)) <> [] ->
  keyPressEvent Key_Up w =
  (inr tt, with_row w ((currentRow (list_widget (paginated_list w)) - 1
                        + count (list_widget (paginated_list w)))
                       mod count (list_widget (paginated_list w)))).
Proof.
  intros Hrows. unfold keyPressEvent. unfold bind at 1. cbn [get].
  unfold mod_.
  replace (count (list_widget (paginated_list w)) =? 0) with false.
  - reflexivity.
  - symmetry. apply Z.eqb_neq. unfold count.
    destruct (rows (list_widget (paginated_list w))); [congruence|cbn; lia].
Qed.

Lemma with_row_in_range (w : window) (row : Z) :
  0 <= row < count (list_widget (paginated_list w)) ->
  currentRow (list_widget (paginated_list (with_row w row))) = row /\
  rows (list_widget (paginated_list (with_row w row)))
    = rows (list_widget (paginated_list w)).
Proof.
  intros Hrow. cbn.
  replace ((0 <=? row) && (row <? count (list_widget (paginated_list w)))) with true.
  - auto.
  - symmetry. apply andb_true_iff. split; [apply Z.leb_le|apply Z.ltb_lt]; lia.
Qed.

Lemma count_pos (w : window) :
  rows (list_widget (paginated_list w)) <> [] ->
  0 < count (list_widget (paginated_list w)).
Proof.
  unfold count. destruct (rows (list_widget (paginated_list w))); [congruence|cbn; lia].
Qed.

(** X5. On a list that shows at least one row, the Down and the Up key
    end normally and leave a current row within the list, whatever the
    current row was, no row (-1) included; the rows are unchanged. *)
Theorem arrow_key_selects_a_row (w : window) (event : key) :
  event = Key_Down \/ event = Key_Up ->
  rows (list_widget (paginated_list w)) <> [] ->
  exists w',
    keyPressEvent event w = (inr tt, w') /\
    0 <= currentRow (list_widget (paginated_list w'))
      < count (list_widget (paginated_list w)) /\
    rows (list_widget (paginated_list w')) = rows (list_widget (paginated_list w)).
Proof.
  intros Hev Hrows. pose proof (count_pos w Hrows) as Hc.
  destruct Hev as [-> | ->].
  - rewrite (key_down_step w Hrows). eexists. split; [reflexivity|].
    destruct (with_row_in_range w
                ((currentRow (list_widget (paginated_list w)) + 1)
                 mod count (list_widget (paginated_list w)))) as [Hr Hs].
    { apply Z.mod_pos_bound. exact Hc. }
    rewrite Hr, Hs. split; [apply Z.mod_pos_bound; exact Hc|reflexivity].
  - rewrite (key_up_step w Hrows). eexists. split; [reflexivity|].
    destruct (with_row_in_range w
                ((currentRow (list_widget (paginated_list w)) - 1
                  + count (list_widget (paginated_list w)))
                 mod count (list_widget (paginated_list w)))) as [Hr Hs].
    { apply Z.mod_pos_bound. exact Hc. }
    rewrite Hr, Hs. split; [apply Z.mod_pos_bound; exact Hc|reflexivity].
Qed.

(** X6. From a current row within the list, Down then Up, and Up then
    Down, come back to that row: the two keys wrap around the ends and are
    inverse to each other. *)
Theorem down_and_up_are_inverse (w : window) :
  0 <= currentRow (list_widget (paginated_list w))
    < count (list_widget (paginated_list w)) ->
  exists w1 w2 w3 w4,
    keyPressEvent Key_Down w = (inr tt, w1) /\
    keyPressEvent Key_Up w1 = (inr tt, w2) /\
    currentRow (list_widget (paginated_list w2))
      = currentRow (list_widget (paginated_list w)) /\
    keyPressEvent Key_Up w = (inr tt, w3) /\
    keyPressEvent Key_Down w3 = (inr tt, w4) /\
    currentRow (list_widget (paginated_list w4))
      = currentRow (list_widget (paginated_list w)).
Proof.
  intros Hrow.
  set (r := currentRow (list_widget (paginated_list w))) in *.
  set (c := count (list_widget (paginated_list w))) in *.
  assert (rows (list_widget (paginated_list w)) <> []) as Hrows.
  { intros Hnil. unfold c, count in Hrow. rewrite Hnil in Hrow. cbn in Hrow. lia. }
  assert (forall x, 0 <= x < c ->
            rows (list_widget (paginated_list (with_row w x))) <> [] /\
            count (list_widget (paginated_list (with_row w x))) = c /\
            currentRow (list_widget (paginated_list (with_row w x))) = x) as Hstep.
  { intros x Hx. destruct (with_row_in_range w x Hx) as [Hr Hs].
    split; [rewrite Hs; exact Hrows|]. split; [unfold count; rewrite Hs; reflexivity|exact Hr]. }
  assert (0 <= (r + 1) mod c < c) as Hd by (apply Z.mod_pos_bound; lia).
  assert (0 <= (r - 1 + c) mod c < c) as Hu by (apply Z.mod_pos_bound; lia).
  destruct (Hstep _ Hd) as (Hd1 & Hd2 & Hd3).
  destruct (Hstep _ Hu) as (Hu1 & Hu2 & Hu3).
  exists (with_row w ((r + 1) mod c)).
  exists (with_row (with_row w ((r + 1) mod c)) (((r + 1) mod c - 1 + c) mod c)).
  exists (with_row w ((r - 1 + c) mod c)).
  exists (with_row (with_row w ((r - 1 + c) mod c)) (((r - 1 + c) mod c + 1) mod c)).
  assert (((r + 1) mod c - 1 + c) mod c = r) as E1.
  { rewrite Zplus_mod, Zminus_mod, Z.mod_mod, <- Zminus_mod, <- Zplus_mod by lia.
    replace (r + 1 - 1 + c) with (r + 1 * c) by lia.
    rewrite Z.mod_add by lia. apply Z.mod_small. lia. }
  assert (((r - 1 + c) mod c + 1) mod c = r) as E2.
  { rewrite Zplus_mod, Z.mod_mod, <- Zplus_mod by lia.
    replace (r - 1 + c + 1) with (r + 1 * c) by lia.
    rewrite Z.mod_add by lia. apply Z.mod_small. lia. }
  split; [apply (key_down_step w Hrows)|].
  split; [rewrite (key_up_step _ Hd1), Hd2, Hd3; reflexivity|].
  split.
  { destruct (with_row_in_range (with_row w ((r + 1) mod c))
                (((r + 1) mod c - 1 + c) mod c)) as [Hr _].
    - rewrite Hd2, E1. exact Hrow.
    - rewrite Hr. exact E1. }
  split; [apply (key_up_step w Hrows)|].
  split; [rewrite (key_down_step _ Hu1), Hu2, Hu3; reflexivity|].
  destruct (with_row_in_range (with_row w ((r - 1 + c) mod c))
              (((r - 1 + c) mod c + 1) mod c)) as [Hr _].
  - rewrite Hu2, E2. exact Hrow.
  - rewrite Hr. exact E2.
Qed.

(** X7. On a list that shows no row, as in the window that [initUI]
    leaves, the Down and the Up key raise [ZeroDivisionError] and change
    nothing. *)
Theorem arrow_key_on_empty_list (w : window) (event : key) :
  event = Key_Down \/ event = Key_Up ->
  rows (list_widget (paginated_list w)) = [] ->
  keyPressEvent event w = (inl (Os Py.ZeroDivisionError), w).
Proof.
  intros Hev Hrows. unfold keyPressEvent. unfold bind at 1. cbn [get].
  unfold mod_, count. rewrite Hrows. destruct Hev as [-> | ->]; reflexivity.
Qed.

(** X8. In a window whose attribute [file_list] is not set, which is so
    from [initUI] on since no method sets it, [update_search_results]
    raises [AttributeError] for every text that is not blank, and changes
    nothing: no search result is ever shown. *)
Theorem update_search_results_without_file_list (w : window) (text : string) :
  file_list w = None ->
  strip text <> "" ->
  update_search_results text w = (inl (Os Py.AttributeError), w).
Proof.
  intros Hfl Hs. unfold update_search_results.
  apply String.eqb_neq in Hs. rewrite Hs. unfold bind at 1. cbn [get].
  rewrite Hfl. reflexivity.
Qed.

End KeyTheorems.

(** ** The main window: recent scans *)

Section RecentScans.
Import Pyx MainWindow.

Lemma load_data_known (w : window) (directory : string) (l : list string) :
  directory <> "" ->
  recent_scans (the_settings w) = Some l ->
  directory ∈ l ->
  load_data directory w =
  (inr tt, scan_started directory (set_current_directory (Some directory) w)).
Proof.
  intros Hd Hl Hin. unfold load_data.
  apply String.eqb_neq in Hd. rewrite Hd.
  unfold bind at 1. cbn [modify]. unfold bind at 1. cbn [get].
  cbn [the_settings set_current_directory]. rewrite Hl.
  unfold bind at 1. cbn [lift]. unfold bind at 1.
  rewrite bool_decide_eq_true_2 by exact Hin. reflexivity.
Qed.

Lemma load_data_new (w : window) (directory : string) (l : list string) :
  directory <> "" ->
  recent_scans (the_settings w) = Some l ->
  directory ∉ l ->
  load_data directory w =
  (inr tt,
   let kept := if 30 <? Z.of_nat (length (directory :: l))
               then removelast (directory :: l) else directory :: l in
   scan_started directory
     (set_settings_json (Some (with_recent_scans (the_settings w) kept))
        (set_settings (with_recent_scans (the_settings w) kept)
           (set_current_directory (Some directory) w)))).
Proof.
  intros Hd Hl Hin. unfold load_data.
  apply String.eqb_neq in Hd. rewrite Hd.
  unfold bind at 1. cbn [modify]. unfold bind at 1. cbn [get].
  cbn [the_settings set_current_directory]. rewrite Hl.
  unfold bind at 1. cbn [lift]. unfold bind at 1.
  rewrite bool_decide_eq_false_2 by exact Hin. reflexivity.
Qed.

Lemma kept_take (directory : string) (l : list string) :
  (length l <= 30)%nat ->
  (if 30 <? Z.of_nat (length (directory :: l))
   then removelast (directory :: l) else directory :: l)
  = take 30 (directory :: l).
Proof.
  intros Hlen. destruct (30 <? Z.of_nat (length (directory :: l))) eqn:E.
  - apply Z.ltb_lt in E. rewrite removelast_firstn_len.
    cbn [length] in *. replace (Nat.pred (S (length l))) with 30%nat by lia.
    reflexivity.
  - apply Z.ltb_ge in E. symmetry. apply take_ge. cbn [length] in *. lia.
Qed.

(** X9. [load_data] on a chosen directory, with at most 30 recent scans
    without repetition, ends normally and keeps that: afterwards the recent
    scans still number at most 30, still have no repetition and contain
    the directory, which is the current directory and the one the scanner
    thread is started on, the progress bar being set to 0. *)
Theorem load_data_keeps_recent_scans (w : window) (directory : string)
    (l : list string) :
  directory <> "" ->
  recent_scans (the_settings w) = Some l ->
  (length l <= 30)%nat ->
  NoDup l ->
  exists w' l',
    load_data directory w = (inr tt, w') /\
    recent_scans (the_settings w') = Some l' /\
    (length l' <= 30)%nat /\
    NoDup l' /\
    directory ∈ l' /\
    current_directory w' = Some directory /\
    file_scanner_thread w' = Some directory /\
    progress_bar w' = 0.
Proof.
  intros Hd Hl Hlen Hnd. destruct (decide (directory ∈ l)) as [Hin|Hin].
  - rewrite (load_data_known w directory l Hd Hl Hin).
    eexists _, l. split; [reflexivity|]. cbn. auto 10.
  - rewrite (load_data_new w directory l Hd Hl Hin). cbn zeta.
    rewrite (kept_take directory l Hlen).
    eexists _, (take 30 (directory :: l)). split; [reflexivity|]. cbn.
    split; [reflexivity|]. split; [rewrite length_take; lia|].
    split.
    { assert (NoDup (directory :: l)) as Hnd' by (constructor; assumption).
      assert (directory :: take 29 l `sublist_of` directory :: l) as Hsub
          by apply sublist_skip, sublist_take.
      exact (sublist_NoDup _ _ Hnd' Hsub). }
    split; [left|auto].
Qed.

(** X10. What [load_data] does to the recent scans, when there are at
    most 30: a directory already among them leaves them, and the file
    [settings.json], as they are, so that it does not move to the front; a
    new directory is put first, the thirty-first entry is dropped, and the
    settings are written to [settings.json]. *)
Theorem load_data_puts_new_directory_first (w : window) (directory : string)
    (l : list string) :
  directory <> "" ->
  recent_scans (the_settings w) = Some l ->
  (length l <= 30)%nat ->
  exists w',
    load_data directory w = (inr tt, w') /\
    recent_scans (the_settings w')
      = Some (if bool_decide (directory ∈ l) then l else take 30 (directory :: l)) /\
    settings_json w'
      = (if bool_decide (directory ∈ l) then settings_json w
         else Some (the_settings w')).
Proof.
  intros Hd Hl Hlen. destruct (decide (directory ∈ l)) as [Hin|Hin].
  - rewrite (load_data_known w directory l Hd Hl Hin).
    rewrite bool_decide_eq_true_2 by exact Hin.
    eexists. split; [reflexivity|]. cbn. auto.
  - rewrite (load_data_new w directory l Hd Hl Hin). cbn zeta.
    rewrite (kept_take directory l Hlen).
    rewrite bool_decide_eq_false_2 by exact Hin.
    eexists. split; [reflexivity|]. cbn. auto.
Qed.

(** X11. [load_recent_scan] on a recent directory asks the dialog again.
    When the dialog returns a directory, the outcome is that of
    [load_data] on that directory alone: the scanner thread is started on
    it, it is the current directory, and the recent directory plays no
    part.  When the dialog is cancelled no thread is started, and nothing
    but the current directory, now the recent one, has changed. *)
Theorem load_recent_scan_follows_dialog (w : window) (directory dialog : string)
    (l : list string) :
  recent_scans (the_settings w) = Some l ->
  exists w',
    load_recent_scan directory dialog w = (inr tt, w') /\
    if String.eqb dialog "" then
      w' = set_current_directory (Some directory) w
    else
      load_data dialog w = (inr tt, w') /\
      file_scanner_thread w' = Some dialog /\
      current_directory w' = Some dialog /\
      progress_bar w' = 0.
Proof.
  intros Hl. unfold load_recent_scan. unfold bind at 1. cbn [modify].
  destruct (String.eqb dialog "") eqn:E.
  - unfold load_data. rewrite E. eexists. split; reflexivity.
  - apply String.eqb_neq in E.
    destruct (decide (dialog ∈ l)) as [Hin|Hin].
    + rewrite (load_data_known (set_current_directory (Some directory) w) dialog l E Hl Hin).
      rewrite (load_data_known w dialog l E Hl Hin).
      eexists. split; [reflexivity|]. split; [reflexivity|]. cbn. auto.
    + rewrite (load_data_new (set_current_directory (Some directory) w) dialog l E Hl Hin).
      rewrite (load_data_new w dialog l E Hl Hin).
      eexists. split; [reflexivity|]. split; [reflexivity|]. cbn. auto.
Qed.

End RecentScans.

(** ** The main window: the treemap *)

Section TreemapTheorems.
Import Pyx MainWindow.

Lemma getitem_mod (palette : list string) (i : nat) :
  palette <> [] ->
  mod_ (Z.of_nat i) (Z.of_nat (length palette))
    = inr (Z.of_nat (i mod length palette)) /\
  getitem palette (Z.of_nat (i mod length palette)) = inr (color_at palette i).
Proof.
  intros Hp.
  assert (0 < length palette)%nat as Hlen by (destruct palette; [congruence|cbn; lia]).
  pose proof (Nat.mod_upper_bound i (length palette) ltac:(lia)) as Hm.
  split.
  - unfold mod_. replace (Z.of_nat (length palette) =? 0) with false
      by (symmetry; apply Z.eqb_neq; lia).
    rewrite Nat2Z.inj_mod. reflexivity.
  - unfold getitem, color_at.
    assert ((Z.of_nat (i mod length palette) <? 0) = false) as E1
      by (apply Z.ltb_ge; lia).
    assert ((Z.of_nat (length palette) <=? Z.of_nat (i mod length palette)) = false)
      as E2 by (apply Z.leb_gt; lia).
    rewrite E1. cbn iota. rewrite E1, E2. cbn [orb]. rewrite Nat2Z.id.
    destruct (palette !! (i mod length palette)%nat) as [c|] eqn:E.
    + f_equal. symmetry. apply nth_lookup_Some with (d := ""%string) in E. exact E.
    + apply lookup_ge_None in E. lia.
Qed.

(** Every palette of [theme_colors] has a colour. *)
Lemma theme_colors_nonempty (theme : string) (palette : list string) :
  lookup_key theme_colors theme = inr palette -> palette <> [].
Proof.
  unfold theme_colors. cbn [lookup_key].
  repeat (destruct (String.eqb _ theme); [intros [= <-]; discriminate|]).
  discriminate.
Qed.

Lemma colors_loop (w : window) (theme : string) (palette : list string) :
  color_theme (the_settings w) = Some theme ->
  lookup_key theme_colors theme = inr palette ->
  forall n a acc,
    for_each (seq a n)
      (fun i acc =>
         let+ w := get in
         let+ theme := lift (match color_theme (the_settings w) with
                             | Some t => inr t
                             | None => inl KeyError
                             end) in
         let+ palette := lift (lookup_key theme_colors theme) in
         let+ j := lift (mod_ (Z.of_nat i) (Z.of_nat (length palette))) in
         let+ c := lift (getitem palette j) in
         ret (acc ++ [c])) acc w
    = (inr (acc ++ map (color_at palette) (seq a n)), w).
Proof.
  intros Ht Hp. pose proof (theme_colors_nonempty theme palette Hp) as Hne.
  induction n as [|n IH]; intros a acc; cbn [seq for_each map].
  - rewrite app_nil_r. reflexivity.
  - destruct (getitem_mod palette a Hne) as [Hm Hg].
    unfold bind at 1. unfold bind at 1. cbn [get]. rewrite Ht.
    unfold bind at 1. cbn [lift]. rewrite Hp.
    unfold bind at 1. cbn [lift]. unfold bind at 1. cbn [lift]. rewrite Hm.
    unfold bind at 1. cbn [lift]. rewrite Hg. cbn [ret].
    rewrite IH. rewrite <- app_assoc. reflexivity.
Qed.

(** X12. With a theme of [theme_colors] in the settings,
    [create_interactive_treemap] reaches the call of [squarify.plot] for a
    table of any number of rows, whatever its argument [color_scheme]: it
    hands over one label, one size and one colour per row, the colour of
    row [i] being the entry [i mod len] of the theme's palette, so that no
    index is out of range. *)
Theorem treemap_colors_cycle (w : window) (data : Scanner.DataFrame)
    (color_scheme theme : string) (palette : list string) :
  color_theme (the_settings w) = Some theme ->
  lookup_key theme_colors theme = inr palette ->
  create_interactive_treemap data color_scheme w =
  (inr tt,
   draw {| labels := zip_with label_of (Scanner.file_names data) (Scanner.file_sizes data);
           sizes := Scanner.file_sizes data;
           colors := map (color_at palette)
                         (seq 0 (length (Scanner.file_names data))) |} w) /\
  Forall (fun c => c ∈ palette)
         (map (color_at palette) (seq 0 (length (Scanner.file_names data)))).
Proof.
  intros Ht Hp. split.
  - unfold create_interactive_treemap. unfold bind at 1.
    rewrite (colors_loop w theme palette Ht Hp). reflexivity.
  - pose proof (theme_colors_nonempty theme palette Hp) as Hne.
    apply Forall_forall. intros c Hc. apply list_elem_of_fmap in Hc as (i & -> & _).
    unfold color_at. apply list_elem_of_In, nth_In, Nat.mod_upper_bound.
    destruct palette; [congruence|cbn; lia].
Qed.

(** X13. With a theme in the settings that [theme_colors] does not
    have, [create_interactive_treemap] raises [KeyError] before any call
    of [squarify.plot] when the table has a row, but reaches that call on
    the table without rows, for which no colour is looked up. *)
Theorem treemap_unknown_theme (w : window) (data : Scanner.DataFrame)
    (color_scheme theme : string) :
  color_theme (the_settings w) = Some theme ->
  lookup_key theme_colors theme = inl KeyError ->
  create_interactive_treemap data color_scheme w =
  match Scanner.file_names data with
  | [] => (inr tt, draw {| labels := []; sizes := Scanner.file_sizes data;
                           colors := [] |} w)
  | _ :: _ => (inl KeyError, w)
  end.
Proof.
  intros Ht Hp. unfold create_interactive_treemap.
  destruct (Scanner.file_names data) as [|f names]; [reflexivity|].
  cbn [length seq for_each]. unfold bind at 1. unfold bind at 1.
  unfold bind at 1. cbn [get]. rewrite Ht. unfold bind at 1. cbn [lift].
  rewrite Hp. reflexivity.
Qed.

Lemma split_first_app (name rest : string) (sep : ascii) :
  split_first (name ++ String sep rest) sep = split_first name sep.
Proof.
  induction name as [|c name IH].
  - change (split_first (String sep rest) sep = "").
    cbn [split_first]. rewrite Ascii.eqb_refl. reflexivity.
  - change (split_first (String c (name ++ String sep rest)) sep
            = split_first (String c name) sep).
    cbn [split_first]. destruct (Ascii.eqb c sep); [reflexivity|].
    rewrite IH. reflexivity.
Qed.

Lemma split_first_id (name : string) (sep : ascii) :
  split_first name sep = name <-> ~ In sep (String.list_ascii_of_string name).
Proof.
  induction name as [|c name IH]; cbn [split_first String.list_ascii_of_string In].
  - tauto.
  - destruct (Ascii.eqb_spec c sep) as [->|Hne].
    + split; [discriminate|]. intros H. exfalso. apply H. left. reflexivity.
    + split.
      * intros [= H]. apply IH in H. intros [Hc|Hin]; [congruence|contradiction].
      * intros H. f_equal. apply IH. intros Hin. apply H. right. exact Hin.
Qed.

(** X14. The name that [on_click] reads from the label that
    [create_interactive_treemap] gives a file is the name up to its first
    line feed: it is the name of the file exactly when the name has no line
    feed. *)
Theorem clicked_name_of_label (name : string) (size : Z) :
  clicked_name (label_of name size) = split_first name "010" /\
  (clicked_name (label_of name size) = name <->
   ~ In "010"%char (String.list_ascii_of_string name)).
Proof.
  unfold clicked_name, label_of. rewrite split_first_app.
  split; [reflexivity|]. apply split_first_id.
Qed.

End TreemapTheorems.

(** ** The main window: deleting the selected file *)

Section DeleteTheorems.
Import Pyx MainWindow.

Lemma delete_file_step (w : window) (f d : string) :
  get_selected_file w = Some f ->
  current_directory w = Some d ->
  delete_file w =
  match Eraser.os_remove (Py.os_path_join d f) (disk w) with
  | (inl e, disk') => (inl (Os e), set_disk disk' w)
  | (inr _, disk') =>
      (inr tt, set_buttons false (information "Success" ("Deleted " ++ f)
                                    (set_disk disk' w)))
  end.
Proof.
  intros Hf Hd. unfold delete_file. unfold bind at 1. cbn [get]. rewrite Hf, Hd.
  unfold bind at 1. cbn [lift]. unfold bind at 1. unfold on_disk.
  destruct (Eraser.os_remove (Py.os_path_join d f) (disk w)) as [[e|[]] disk'];
    reflexivity.
Qed.

(** X15. [delete_file] with a file selected in the current directory,
    the file existing and its entry removable, removes that path and no
    other, writes no byte, shows the message and disables both delete
    buttons; the selection itself is kept. *)
Theorem delete_file_removes_selected (w : window) (f d : string) (content : list byte) :
  get_selected_file w = Some f ->
  current_directory w = Some d ->
  Eraser.files (disk w) !! Py.os_path_join d f = Some content ->
  Py.os_path_join d f ∉ Eraser.sealed (disk w) ->
  exists w',
    delete_file w = (inr tt, w') /\
    Eraser.files (disk w') = delete (Py.os_path_join d f) (Eraser.files (disk w)) /\
    Eraser.calls (disk w')
      = Eraser.calls (disk w) ++ [Eraser.sys_unlink (Py.os_path_join d f)] /\
    selected_file w' = selected_file w /\
    delete_button w' = false /\ secure_delete_button w' = false /\
    informed w' = informed w ++ [("Success", "Deleted " ++ f)%string].
Proof.
  intros Hf Hd Hc Hs. rewrite (delete_file_step w f d Hf Hd).
  rewrite (os_remove_removes _ _ _ Hc Hs).
  eexists. split; [reflexivity|]. cbn. auto 10.
Qed.

(** X16. After such a deletion the file stays selected, so that a second
    [delete_file] raises [FileNotFoundError]; it changes nothing. *)
Theorem delete_file_twice_raises (w : window) (f d : string) (content : list byte) :
  get_selected_file w = Some f ->
  current_directory w = Some d ->
  Eraser.files (disk w) !! Py.os_path_join d f = Some content ->
  Py.os_path_join d f ∉ Eraser.sealed (disk w) ->
  exists w',
    delete_file w = (inr tt, w') /\
    delete_file w' = (inl (Os Py.FileNotFoundError), w').
Proof.
  intros Hf Hd Hc Hs. rewrite (delete_file_step w f d Hf Hd).
  rewrite (os_remove_removes _ _ _ Hc Hs).
  eexists. split; [reflexivity|].
  erewrite delete_file_step; [|exact Hf|exact Hd].
  cbn [disk set_buttons information set_disk].
  unfold Eraser.os_remove. unfold Py.bind at 1. cbn [Py.get].
  cbn [Eraser.files Eraser.set_files Eraser.log]. rewrite lookup_delete_eq.
  cbn [Py.raise]. f_equal.
Qed.

End DeleteTheorems.

(** ** The main window: sorting *)

Section SortFacts.
Import Pyx.
Context {K A : Type} (leb : K -> K -> bool).

Lemma insert_sorted_perm (x : K * A) (l : list (K * A)) :
  insert_sorted leb x l ≡ₚ x :: l.
Proof.
  induction l as [|y l IH]; cbn [insert_sorted]; [reflexivity|].
  destruct (leb x.1 y.1); [reflexivity|].
  rewrite IH. apply Permutation_swap.
Qed.

Lemma sorted_perm (l : list (K * A)) : sorted leb l ≡ₚ l.
Proof.
  induction l as [|x l IH]; cbn [sorted]; [reflexivity|].
  rewrite insert_sorted_perm, IH. reflexivity.
Qed.

Hypothesis leb_total : forall a b, leb a b = true \/ leb b a = true.

Lemma insert_sorted_sorted (x : K * A) (l : list (K * A)) :
  Sorted (fun p q => leb p.1 q.1 = true) l ->
  Sorted (fun p q => leb p.1 q.1 = true) (insert_sorted leb x l).
Proof.
  induction l as [|y l IH]; intros Hs; cbn [insert_sorted].
  - repeat constructor.
  - destruct (leb x.1 y.1) eqn:E.
    + constructor; [exact Hs|]. constructor. exact E.
    + inversion Hs as [|? ? Hs' Hhd]; subst.
      constructor; [apply IH; exact Hs'|].
      destruct l as [|z l]; cbn [insert_sorted].
      * constructor. destruct (leb_total x.1 y.1); congruence.
      * destruct (leb x.1 z.1).
        -- constructor. destruct (leb_total x.1 y.1); congruence.
        -- inversion Hhd; subst. constructor. assumption.
Qed.

Lemma sorted_sorted (l : list (K * A)) :
  Sorted (fun p q => leb p.1 q.1 = true) (sorted leb l).
Proof.
  induction l as [|x l IH]; cbn [sorted]; [constructor|].
  apply insert_sorted_sorted. exact IH.
Qed.

End SortFacts.

Section SortTheorems.
Import Pyx MainWindow.

Lemma with_keys_defined {K} (key : string -> exc + K) (k : string -> K)
    (l : list string) :
  Forall (fun x => key x = inr (k x)) l ->
  with_keys key l = inr (map (fun x => (k x, x)) l).
Proof.
  induction 1 as [|x l Hx Hl IH]; cbn [with_keys map]; [reflexivity|].
  rewrite Hx, IH. reflexivity.
Qed.

Lemma getsize_defined (w : window) (d f : string) :
  is_Some (Scanner.inodes (tree w) !! Py.os_path_join d f) ->
  getsize w (Py.os_path_join d f) = inr (Scanner.size_of (tree w) d f).
Proof.
  intros [i Hi]. unfold getsize, Scanner.os_stat_size, Scanner.size_of.
  rewrite Hi. reflexivity.
Qed.

Lemma apply_sort_step (w : window) (d : string) (names : list string)
    (sort_by : string) :
  current_directory w = Some d -> d <> "" ->
  Scanner.dirs (tree w) !! d = Some names ->
  apply_sort sort_by w =
  match (if String.eqb sort_by "name" then
           sorted_by String.leb (fun x => inr x) names
         else if String.eqb sort_by "size" then
           sorted_by Z.leb (fun x => getsize w (Py.os_path_join d x)) names
         else if String.eqb sort_by "type" then
           sorted_by String.leb (fun x => inr (splitext_ext x)) names
         else if String.eqb sort_by "date" then
           sorted_by SFleb (fun x => getmtime w (Py.os_path_join d x)) names
         else inl UnboundLocalError) with
  | inl e => (inl e, w)
  | inr sorted_files =>
      match with_keys (fun f => getsize w (Py.os_path_join d f)) sorted_files with
      | inl e => (inl e, w)
      | inr file_details =>
          display_data {| Scanner.file_names := map snd file_details;
                          Scanner.file_sizes := map fst file_details |} w
      end
  end.
Proof.
  intros Hd Hne Hl. unfold apply_sort. unfold bind at 1. cbn [get]. rewrite Hd.
  apply String.eqb_neq in Hne. rewrite Hne.
  unfold Scanner.os_listdir. rewrite Hl. unfold bind at 1. cbn [lift of_py].
  unfold bind at 1. unfold lift at 1.
  destruct (if String.eqb sort_by "name" then _ else _) as [e|sorted_files];
    [reflexivity|].
  unfold bind at 1. unfold lift at 1.
  destruct (with_keys _ sorted_files) as [e|file_details]; reflexivity.
Qed.

(** X17. [apply_sort('size')] on a directory whose entries all have
    an inode, with a theme of [theme_colors], reaches one call of
    [squarify.plot]: the rows it hands over are all the names of the
    listing, hidden files and sub-directories included, each once, in the
    order of their sizes, and each with its size. *)
Theorem apply_sort_by_size (w : window) (d : string) (names : list string)
    (theme : string) (palette : list string) :
  current_directory w = Some d -> d <> "" ->
  Scanner.dirs (tree w) !! d = Some names ->
  Forall (fun f => is_Some (Scanner.inodes (tree w) !! Py.os_path_join d f)) names ->
  color_theme (the_settings w) = Some theme ->
  lookup_key theme_colors theme = inr palette ->
  exists sorted_names,
    sorted_names ≡ₚ names /\
    Sorted Z.le (map (Scanner.size_of (tree w) d) sorted_names) /\
    apply_sort "size" w =
    (inr tt,
     draw {| labels := zip_with label_of sorted_names
                         (map (Scanner.size_of (tree w) d) sorted_names);
             sizes := map (Scanner.size_of (tree w) d) sorted_names;
             colors := map (color_at palette) (seq 0 (length names)) |} w).
Proof.
  intros Hd Hne Hl Hino Ht Hp.
  set (size := Scanner.size_of (tree w) d).
  set (keyed := sorted Z.leb (map (fun x => (size x, x)) names)).
  assert (keyed ≡ₚ map (fun x => (size x, x)) names) as Hperm by apply sorted_perm.
  assert (Forall (fun p => p.1 = size p.2) keyed) as Hkeys.
  { rewrite Hperm. apply Forall_forall. intros p Hin.
    apply list_elem_of_fmap in Hin as (x & -> & _). reflexivity. }
  assert (map snd keyed ≡ₚ names) as Hnames.
  { rewrite Hperm, map_map. cbn [snd].
    assert (map (fun x : string => x) names = names) as -> by apply List.map_id.
    reflexivity. }
  assert (map size (map snd keyed) = map fst keyed) as Hsizes.
  { clear -Hkeys. induction Hkeys as [|p l Hp _ IH]; cbn [map]; [reflexivity|].
    rewrite IH, Hp. reflexivity. }
  exists (map snd keyed). split; [exact Hnames|]. split.
  { rewrite Hsizes.
    pose proof (sorted_sorted (A := string) Z.leb
                  ltac:(intros a b; destruct (Z.leb_spec a b);
                        [left; reflexivity|right; apply Z.leb_le; lia])
                  (map (fun x => (size x, x)) names)) as Hs.
    fold keyed in Hs. clear -Hs.
    induction Hs as [|p l _ IH Hhd]; cbn [map]; constructor; [exact IH|].
    destruct Hhd as [|q l Hq]; constructor. apply Z.leb_le. exact Hq. }
  rewrite (apply_sort_step w d names "size" Hd Hne Hl).
  cbn [String.eqb Ascii.eqb Bool.eqb]. unfold sorted_by.
  rewrite (with_keys_defined _ size names).
  2:{ eapply Forall_impl; [exact Hino|]. intros f Hf. apply getsize_defined. exact Hf. }
  fold keyed.
  rewrite (with_keys_defined _ size (map snd keyed)).
  2:{ apply Forall_forall. intros f Hf. apply getsize_defined.
      rewrite Hnames in Hf. rewrite Forall_forall in Hino. apply Hino. exact Hf. }
  rewrite !map_map. cbn [fst snd].
  unfold display_data. unfold bind at 1. cbn [get]. rewrite Ht.
  unfold bind at 1. cbn [lift].
  unfold create_interactive_treemap. unfold bind at 1.
  rewrite (colors_loop w theme palette Ht Hp).
  cbn [Scanner.file_names Scanner.file_sizes app]. rewrite length_map.
  assert (length keyed = length names) as ->
    by (rewrite <- (Permutation_length Hnames), length_map; reflexivity).
  reflexivity.
Qed.

(** X18. [apply_sort] with a key that is none of ['name'], ['size'],
    ['type'], ['date'] lists the current directory and then raises
    [UnboundLocalError]; no call of [squarify.plot] is reached. *)
Theorem apply_sort_unknown_key (w : window) (d : string) (names : list string)
    (sort_by : string) :
  current_directory w = Some d -> d <> "" ->
  Scanner.dirs (tree w) !! d = Some names ->
  sort_by <> "name" -> sort_by <> "size" -> sort_by <> "type" -> sort_by <> "date" ->
  apply_sort sort_by w = (inl UnboundLocalError, w).
Proof.
  intros Hd Hne Hl H1 H2 H3 H4.
  rewrite (apply_sort_step w d names sort_by Hd Hne Hl).
  apply String.eqb_neq in H1, H2, H3, H4. rewrite H1, H2, H3, H4. reflexivity.
Qed.

End SortTheorems.

(** ** The first window *)

Section FirstWindowTheorems.
Import Pyx FirstWindow.

Lemma inner_loop_not_done (w : window) (root : string) : forall fuel i files sizes r,
  (i < length files)%nat -> inner_loop fuel w root i files sizes <> Done r.
Proof.
  induction fuel as [|fuel IH]; intros i files sizes r Hi;
    destruct (lookup_lt_is_Some_2 files i Hi) as [file Hfile];
    cbn [inner_loop]; rewrite Hfile; [discriminate|].
  destruct (of_py _) as [e|size]; [discriminate|].
  apply IH. rewrite length_app. cbn [length]. lia.
Qed.

Lemma inner_loop_nil (w : window) (root : string) (fuel : nat) (sizes : list Z) :
  inner_loop fuel w root 0 [] sizes = Done ([], sizes).
Proof. destruct fuel; reflexivity. Qed.

Lemma outer_loop_no_files (w : window) (fuel : nat) : forall walk sizes,
  Forall (fun t => t.2.2 = []) walk ->
  outer_loop fuel w walk [] sizes = Done ([], sizes).
Proof.
  induction walk as [|[root [dirs files]] rest IH]; intros sizes Hw;
    cbn [outer_loop]; [reflexivity|].
  inversion Hw as [|? ? Hhd Hrest]; subst. cbn [snd] in Hhd. subst files.
  rewrite inner_loop_nil. apply IH. exact Hrest.
Qed.

Lemma outer_loop_some_files (w : window) (fuel : nat) : forall walk files sizes r,
  Exists (fun t => t.2.2 <> []) walk ->
  outer_loop fuel w walk files sizes <> Done r.
Proof.
  induction walk as [|[root [dirs files']] rest IH]; intros files sizes r Hw;
    [inversion Hw|].
  cbn [outer_loop]. destruct files' as [|f files'].
  - rewrite inner_loop_nil. apply IH.
    inversion Hw as [? ? Hhd|? ? Hrest]; subst; [|exact Hrest].
    cbn [snd] in Hhd. congruence.
  - pose proof (inner_loop_not_done w root fuel 0 (f :: files') sizes) as Hn.
    destruct (inner_loop fuel w root 0 (f :: files') sizes) as [[fs ss]|e|];
      [|discriminate|discriminate].
    exfalso. apply (Hn (fs, ss)); [cbn [length]; lia|reflexivity].
Qed.

(** X19. [update_visualization] of the first window, with a
    directory selected, returns exactly when no directory of the walk has
    a file, and then hands the table with no row to the plotting method of
    the chosen kind, if any. If some directory of the
    walk has a file, the inner loop, which appends to the list it runs
    over, does not end normally, whatever the number of turns it is
    given: it can only stop on an exception. *)
Theorem update_visualization_returns_only_without_files (w : window) (d : string)
    (fuel : nat) :
  directory_of w = Some d ->
  (Forall (fun t => t.2.2 = []) (os_walk w d) /\
   update_visualization fuel w = Done (plot_nothing w)) \/
  (Exists (fun t => t.2.2 <> []) (os_walk w d) /\
   forall w', update_visualization fuel w <> Done w').
Proof.
  intros Hd. unfold update_visualization. rewrite Hd.
  destruct (decide (Forall (fun t => t.2.2 = []) (os_walk w d))) as [Hall|Hsome].
  - left. split; [exact Hall|].
    rewrite (outer_loop_no_files w fuel _ [] Hall). unfold plot_nothing.
    destruct (String.eqb (visualization_type w) "Matplotlib Treemap"); [reflexivity|].
    destruct (String.eqb (visualization_type w) "Plotly Treemap"); reflexivity.
  - right. apply not_Forall_Exists in Hsome; [|intros t; apply _].
    split; [exact Hsome|]. intros w'.
    pose proof (outer_loop_some_files w fuel (os_walk w d) [] []) as Hn.
    destruct (outer_loop fuel w (os_walk w d) [] []) as [[fs ss]|e|];
      [|discriminate|discriminate].
    exfalso. apply (Hn (fs, ss)); [exact Hsome|reflexivity].
Qed.

(** X20. [secure_delete] of the first window, with a directory
    selected, any of the four items of the method menu chosen and a file
    found by the walk, starts a thread on the first file of the first
    directory that has one, with the value of the spin box; the method
    name it passes is none of the names [run] knows, so the thread writes
    nothing and only removes the file. *)
Theorem secure_delete_menu_methods_only_remove
    (aes : list byte -> list byte -> list byte)
    (w : window) (d root f : string) :
  directory_of w = Some d ->
  deletion_method w ∈ deletion_methods ->
  first_with_files (os_walk w d) = Some (root, f) ->
  exists t,
    secure_delete w = (inr tt, set_secure_delete_thread t w) /\
    Eraser.file_path t = Py.os_path_join root f /\
    Eraser.passes t = passes_spinbox w /\
    forall disk, Eraser.run aes t disk = Eraser.os_remove (Py.os_path_join root f) disk.
Proof.
  intros Hd Hm Hf.
  exists {| Eraser.file_path := Py.os_path_join root f;
            Eraser.method := replace (lower (deletion_method w)) " " "_";
            Eraser.passes := passes_spinbox w |}.
  split; [|split; [reflexivity|split; [reflexivity|]]].
  - unfold secure_delete. unfold bind at 1. cbn [get]. rewrite Hd, Hf. reflexivity.
  - intros disk. unfold Eraser.run. cbn [Eraser.method Eraser.file_path].
    unfold deletion_methods in Hm.
    repeat (apply elem_of_cons in Hm as [->|Hm]);
      [| | | |apply elem_of_nil in Hm; contradiction];
      reflexivity.
Qed.

Lemma toggle_dark_mode_step (w : window) (content : string) (light : bool) :
  dark_mode_qss w = Some content ->
  styleSheet w = (if light then "" else content) ->
  toggle_dark_mode w =
  (inr tt, setStyleSheet (if negb light then "" else content) w).
Proof.
  intros Hq Hs. unfold toggle_dark_mode. unfold bind at 1. cbn [get].
  rewrite Hs, Hq. destruct light; cbn [negb]; [reflexivity|].
  destruct (String.eqb_spec content "") as [->|Hne]; reflexivity.
Qed.

Lemma toggles_from (content : string) : forall n w (light : bool),
  dark_mode_qss w = Some content ->
  styleSheet w = (if light then "" else content) ->
  exists w',
    toggles n w = (inr tt, w') /\
    dark_mode_qss w' = Some content /\
    styleSheet w' = (if (if Nat.even n then light else negb light) then "" else content).
Proof.
  induction n as [|n IH]; intros w light Hq Hs.
  - exists w. split; [reflexivity|]. split; assumption.
  - cbn [toggles]. unfold bind.
    rewrite (toggle_dark_mode_step w content light Hq Hs).
    destruct (IH (setStyleSheet (if negb light then "" else content) w) (negb light))
      as (w' & Hrun & Hq' & Hs'); [exact Hq|reflexivity|].
    exists w'. split; [exact Hrun|]. split; [exact Hq'|].
    rewrite Hs'. rewrite Nat.even_succ, <- Nat.negb_even.
    destruct (Nat.even n), light; reflexivity.
Qed.

(** X21. Starting with an empty style sheet and with
    [dark_mode.qss] present, [n] calls of [toggle_dark_mode] all end
    normally; the style sheet is then empty for an even [n] and the
    content of the file for an odd [n]. *)
Theorem toggle_dark_mode_alternates (w : window) (content : string) (n : nat) :
  styleSheet w = "" ->
  dark_mode_qss w = Some content ->
  exists w',
    toggles n w = (inr tt, w') /\
    styleSheet w' = (if Nat.even n then "" else content).
Proof.
  intros Hs Hq.
  destruct (toggles_from content n w true Hq Hs) as (w' & Hrun & _ & Hs').
  exists w'. split; [exact Hrun|].
  rewrite Hs'. destruct (Nat.even n); reflexivity.
Qed.

End FirstWindowTheorems.

(** ** The Tk window *)

Section TkTheorems.
Import Pyx TkWindow.

Lemma progress_value_set (v : Py.number) (w : window) :
  progress_value (set_progress v w) = v.
Proof. unfold progress_value, set_progress. cbn [progress]. apply last_last. Qed.

(** Adding the increment to the bar: the bar is at the integer 0 or at
    a float. *)
Lemma add_float (v : Py.number) (q x : spec_float) :
  (v = Py.PyInt 0 /\ x = S754_zero false) \/ v = Py.PyFloat x ->
  add v (Py.PyFloat q) = inr (Py.PyFloat (SFadd Py.prec Py.emax x q)).
Proof.
  intros [[-> ->]| ->]; reflexivity.
Qed.

Lemma loop_body_step (directory : string) (increment v : Py.number)
    (i : Z) (f : string) (fs : list Z) (fn : list string) (w : window) :
  add (progress_value w) increment = inr v ->
  loop_body directory increment (i, f) (fs, fn) w =
  (inr (if Scanner.os_path_isfile (tree w) (Py.os_path_join directory f)
        then (fs ++ [Scanner.size_of (tree w) directory f], fn ++ [f])
        else (fs, fn)),
   set_progress v w).
Proof.
  intros Hv. unfold loop_body. unfold bind at 1. cbn [get].
  destruct (Scanner.os_path_isfile (tree w) (Py.os_path_join directory f)) eqn:Ef.
  - rewrite (stat_of_plain (tree w) directory f Ef). cbn [of_py].
    unfold bind at 1. unfold bind at 1. cbn [lift ret].
    unfold bind at 1. rewrite Hv. reflexivity.
  - unfold bind at 1. cbn [ret]. unfold bind at 1. rewrite Hv. reflexivity.
Qed.

Lemma tk_loop (directory : string) (q : spec_float) : forall names i fs fn w x,
  (progress_value w = Py.PyInt 0 /\ x = S754_zero false) \/
  progress_value w = Py.PyFloat x ->
  exists w',
    for_each (Py.enumerate_from i names) (loop_body directory (Py.PyFloat q))
      (fs, fn) w =
    (inr (fs ++ map (Scanner.size_of (tree w) directory)
                  (regular_files (tree w) directory names),
          fn ++ regular_files (tree w) directory names), w') /\
    progress w' = progress w ++ map Py.PyFloat (steps q x (length names)) /\
    data w' = data w /\ treemaps w' = treemaps w /\ tree w' = tree w.
Proof.
  induction names as [|f names IH]; intros i fs fn w x Hv.
  - exists w. cbn. rewrite !app_nil_r. repeat split.
  - cbn [Py.enumerate_from for_each length steps map]. unfold bind at 1.
    pose proof (add_float _ q x Hv) as Hy.
    set (y := SFadd Py.prec Py.emax x q) in *.
    rewrite (loop_body_step directory _ _ i f fs fn w Hy).
    unfold regular_files. rewrite filter_cons.
    fold (regular_files (tree w) directory names).
    destruct (Scanner.os_path_isfile (tree w) (Py.os_path_join directory f)) eqn:Ef.
    + destruct (IH (i + 1) (fs ++ [Scanner.size_of (tree w) directory f]) (fn ++ [f])
                  (set_progress (Py.PyFloat y) w) y)
        as (w' & Hrun & Hpr & Hdata & Htm & Htree).
      { right. apply progress_value_set. }
      exists w'. cbn [tree set_progress] in Hrun. rewrite Hrun.
      rewrite decide_True by reflexivity. cbn [map].
      rewrite <- !app_assoc. cbn [app].
      split; [reflexivity|]. rewrite Hpr, Hdata, Htm, Htree.
      cbn [progress set_progress data treemaps tree]. rewrite <- app_assoc.
      repeat split.
    + destruct (IH (i + 1) fs fn (set_progress (Py.PyFloat y) w) y)
        as (w' & Hrun & Hpr & Hdata & Htm & Htree).
      { right. apply progress_value_set. }
      exists w'. cbn [tree set_progress] in Hrun. rewrite Hrun.
      rewrite decide_False by congruence.
      split; [reflexivity|]. rewrite Hpr, Hdata, Htm, Htree.
      cbn [progress set_progress data treemaps tree]. rewrite <- app_assoc.
      repeat split.
Qed.

(** X22. [load_data] of the Tk window on a directory with no entry
    sets the progress bar to 0 and then raises [ZeroDivisionError]: the
    division [100 / total_files] has no guard. No table is stored and no
    treemap is asked for. *)
Theorem tk_load_data_empty_directory (w : window) (directory : string) :
  directory <> "" ->
  Scanner.dirs (tree w) !! directory = Some [] ->
  load_data directory w =
  (inl (Os Py.ZeroDivisionError), set_progress (Py.PyInt 0) w).
Proof.
  intros Hne Hl. unfold load_data.
  apply String.eqb_neq in Hne. rewrite Hne.
  unfold bind at 1. cbn [modify]. unfold bind at 1. cbn [get].
  cbn [tree set_progress]. unfold Scanner.os_listdir. rewrite Hl.
  reflexivity.
Qed.

(** X23. [load_data] of the Tk window on a directory with at least
    one entry ends normally: the table holds every regular file of the
    listing, hidden files included, in the order of the listing and with
    its size; the progress bar is assigned 0 once and then, once per
    entry and whatever the entry is, the sum of its value and
    [100 / total_files]; one treemap of the table is asked for, with the
    theme ['Rainbow']; nothing else changes. *)
Theorem tk_load_data_lists_regular_files (w : window) (directory : string)
    (names : list string) :
  directory <> "" ->
  Scanner.dirs (tree w) !! directory = Some names ->
  names <> [] ->
  exists q w',
    let df := {| Scanner.file_names := regular_files (tree w) directory names;
                 Scanner.file_sizes :=
                   map (Scanner.size_of (tree w) directory)
                     (regular_files (tree w) directory names) |} in
    Py.int_truediv 100 (Z.of_nat (length names)) = inr (Py.PyFloat q) /\
    load_data directory w = (inr tt, w') /\
    data w' = Some df /\
    treemaps w' = treemaps w ++ [(df, "Rainbow")] /\
    progress w' =
      progress w ++
      Py.PyInt 0 :: map Py.PyFloat (steps q (S754_zero false) (length names)) /\
    tree w' = tree w.
Proof.
  intros Hne Hl Hnames. unfold load_data.
  apply String.eqb_neq in Hne. rewrite Hne.
  unfold bind at 1. cbn [modify]. unfold bind at 1. cbn [get].
  cbn [tree set_progress]. unfold Scanner.os_listdir. rewrite Hl.
  unfold bind at 1. cbn [lift of_py].
  destruct (int_truediv_tame 100 (Z.of_nat (length names))) as (q & Hq & _);
    [lia|destruct names; [congruence|cbn [length]; lia]|vm_compute; discriminate|].
  exists q. rewrite Hq. unfold bind at 1. cbn [lift of_py].
  unfold bind at 1. cbn [lift].
  destruct (tk_loop directory q names 0 [] [] (set_progress (Py.PyInt 0) w)
              (S754_zero false))
    as (w' & Hrun & Hpr & Hdata & Htm & Htree).
  { left. split; [apply progress_value_set|reflexivity]. }
  unfold Py.enumerate. unfold bind at 1. fold (set_progress (Py.PyInt 0) w).
  rewrite Hrun. cbn [tree set_progress app].
  eexists. cbv zeta. split; [reflexivity|]. split; [reflexivity|].
  cbn [modify data treemaps progress tree set_data request_treemap].
  rewrite Htm, Hpr, Htree. cbn [treemaps progress tree set_progress].
  rewrite <- app_assoc. repeat split.
Qed.

End TkTheorems.

(** ** The properties of the windows on the scenarios *)

Section PagingExamples.
Import Pyx Paging.

Lemma update_display_shows_page_witness :
  rows (list_widget (update_display (next_page (new five_items 2))))
    = take (Z.to_nat 2) (drop (Z.to_nat (1 * 2)) five_items) /\
  Z.of_nat (length (rows (list_widget (update_display (next_page (new five_items 2))))))
    <= 2.
Proof.
  apply (update_display_shows_page (next_page (new five_items 2)));
    vm_compute; discriminate.
Defined.

Lemma browsing_shows_every_item_witness :
  concat (browse (length five_items) (new five_items 2)) = five_items.
Proof.
  apply (browsing_shows_every_item five_items 2). reflexivity.
Defined.

Lemma presses_keep_page_in_list_witness :
  let self := fold_left press [Next; Next; Next; Previous; Next] (new five_items 2) in
  self = page_of five_items 2 (current_page self) /\
  0 <= current_page self /\
  (current_page self * 2 < Z.of_nat (length five_items) \/ current_page self = 0) /\
  (rows (list_widget self) <> [] \/ five_items = []).
Proof.
  apply (presses_keep_page_in_list five_items 2 [Next; Next; Next; Previous; Next]).
  reflexivity.
Defined.

Lemma previous_page_before_first_witness :
  current_page (previous_page (new five_items 2)) = -1 /\
  rows (list_widget (previous_page (new five_items 2))) = [] /\
  prev_button (previous_page (new five_items 2)) = false /\
  next_button (previous_page (new five_items 2)) = bool_decide (five_items <> []).
Proof.
  apply (previous_page_before_first (new five_items 2)); reflexivity.
Defined.

Lemma arrow_key_selects_a_row_witness :
  exists w',
    keyPressEvent Key_Up search_window = (inr tt, w') /\
    0 <= currentRow (list_widget (paginated_list w'))
      < count (list_widget (paginated_list search_window)) /\
    rows (list_widget (paginated_list w'))
      = rows (list_widget (paginated_list search_window)).
Proof.
  apply (arrow_key_selects_a_row search_window Key_Up).
  - right. reflexivity.
  - vm_compute. discriminate.
Defined.

Lemma down_and_up_are_inverse_witness :
  exists w1 w2 w3 w4,
    keyPressEvent Key_Down (with_row search_window 4) = (inr tt, w1) /\
    keyPressEvent Key_Up w1 = (inr tt, w2) /\
    currentRow (list_widget (paginated_list w2)) = 4 /\
    keyPressEvent Key_Up (with_row search_window 4) = (inr tt, w3) /\
    keyPressEvent Key_Down w3 = (inr tt, w4) /\
    currentRow (list_widget (paginated_list w4)) = 4.
Proof.
  apply (down_and_up_are_inverse (with_row search_window 4)).
  vm_compute. split; [discriminate|reflexivity].
Defined.

Lemma arrow_key_on_empty_list_witness :
  keyPressEvent Key_Down init = (inl (Os Py.ZeroDivisionError), init).
Proof.
  apply (arrow_key_on_empty_list init Key_Down).
  - left. reflexivity.
  - reflexivity.
Defined.

Lemma update_search_results_without_file_list_witness :
  update_search_results "a" init = (inl (Os Py.AttributeError), init).
Proof.
  apply (update_search_results_without_file_list init "a").
  - reflexivity.
  - vm_compute. discriminate.
Defined.

End PagingExamples.

Section MainWindowExamples.
Import Pyx MainWindow.

Lemma load_data_keeps_recent_scans_witness :
  exists w' l',
    load_data "/tmp/e" (main_window "Monaco") = (inr tt, w') /\
    recent_scans (the_settings w') = Some l' /\
    (length l' <= 30)%nat /\
    NoDup l' /\
    "/tmp/e" ∈ l' /\
    current_directory w' = Some "/tmp/e" /\
    file_scanner_thread w' = Some "/tmp/e" /\
    progress_bar w' = 0.
Proof.
  apply (load_data_keeps_recent_scans (main_window "Monaco") "/tmp/e" ["/tmp/d"]).
  - discriminate.
  - reflexivity.
  - apply (bool_decide_unpack _). vm_compute. exact I.
  - apply NoDup_singleton.
Defined.

Lemma load_data_puts_new_directory_first_witness :
  exists w',
    load_data "/tmp/e" (main_window "Monaco") = (inr tt, w') /\
    recent_scans (the_settings w')
      = Some (if bool_decide ("/tmp/e" ∈ ["/tmp/d"]) then ["/tmp/d"]
              else take 30 ["/tmp/e"; "/tmp/d"]) /\
    settings_json w'
      = (if bool_decide ("/tmp/e" ∈ ["/tmp/d"]) then settings_json (main_window "Monaco")
         else Some (the_settings w')).
Proof.
  apply (load_data_puts_new_directory_first (main_window "Monaco") "/tmp/e" ["/tmp/d"]).
  - discriminate.
  - reflexivity.
  - apply (bool_decide_unpack _). vm_compute. exact I.
Defined.

Lemma load_recent_scan_follows_dialog_witness :
  (exists w',
     load_recent_scan "/tmp/d" "/tmp/e" (main_window "Monaco") = (inr tt, w') /\
     load_data "/tmp/e" (main_window "Monaco") = (inr tt, w') /\
     file_scanner_thread w' = Some "/tmp/e" /\
     current_directory w' = Some "/tmp/e" /\
     progress_bar w' = 0) /\
  (exists w',
     load_recent_scan "/tmp/e" "" (main_window "Monaco") = (inr tt, w') /\
     w' = set_current_directory (Some "/tmp/e") (main_window "Monaco")).
Proof.
  split.
  - apply (load_recent_scan_follows_dialog (main_window "Monaco") "/tmp/d" "/tmp/e"
             ["/tmp/d"]).
    reflexivity.
  - apply (load_recent_scan_follows_dialog (main_window "Monaco") "/tmp/e" ""
             ["/tmp/d"]).
    reflexivity.
Defined.

Lemma treemap_colors_cycle_witness :
  exists palette,
    lookup_key theme_colors "Monaco" = inr palette /\
    create_interactive_treemap
      {| Scanner.file_names := Scanner.numbered 9; Scanner.file_sizes := replicate 9 1 |}
      "Rainbow" (main_window "Monaco") =
    (inr tt,
     draw {| labels := zip_with label_of (Scanner.numbered 9) (replicate 9 1);
             sizes := replicate 9 1;
             colors := map (color_at palette) (seq 0 (length (Scanner.numbered 9))) |}
          (main_window "Monaco")) /\
    Forall (fun c => c ∈ palette)
           (map (color_at palette) (seq 0 (length (Scanner.numbered 9)))).
Proof.
  eexists. split; [vm_compute; reflexivity|].
  apply (treemap_colors_cycle (main_window "Monaco")
           {| Scanner.file_names := Scanner.numbered 9; Scanner.file_sizes := replicate 9 1 |}
           "Rainbow" "Monaco").
  - reflexivity.
  - vm_compute. reflexivity.
Defined.

Lemma treemap_unknown_theme_witness :
  create_interactive_treemap
    {| Scanner.file_names := ["a.txt"]; Scanner.file_sizes := [10] |}
    "Rainbow" (main_window "Sepia") =
  (inl KeyError, main_window "Sepia").
Proof.
  apply (treemap_unknown_theme (main_window "Sepia")
           {| Scanner.file_names := ["a.txt"]; Scanner.file_sizes := [10] |}
           "Rainbow" "Sepia").
  - reflexivity.
  - vm_compute. reflexivity.
Defined.

Lemma delete_file_removes_selected_witness :
  exists w',
    delete_file (main_window "Monaco") = (inr tt, w') /\
    Eraser.files (disk w')
      = delete (Py.os_path_join "/tmp/d" "a.txt")
          (Eraser.files (disk (main_window "Monaco"))) /\
    Eraser.calls (disk w')
      = Eraser.calls (disk (main_window "Monaco"))
        ++ [Eraser.sys_unlink (Py.os_path_join "/tmp/d" "a.txt")] /\
    selected_file w' = selected_file (main_window "Monaco") /\
    delete_button w' = false /\ secure_delete_button w' = false /\
    informed w'
      = informed (main_window "Monaco") ++ [("Success", "Deleted " ++ "a.txt")%string].
Proof.
  apply (delete_file_removes_selected (main_window "Monaco") "a.txt" "/tmp/d" ten_bytes).
  - reflexivity.
  - reflexivity.
  - vm_compute. reflexivity.
  - apply not_elem_of_empty.
Defined.

Lemma delete_file_twice_raises_witness :
  exists w',
    delete_file (main_window "Monaco") = (inr tt, w') /\
    delete_file w' = (inl (Os Py.FileNotFoundError), w').
Proof.
  apply (delete_file_twice_raises (main_window "Monaco") "a.txt" "/tmp/d" ten_bytes).
  - reflexivity.
  - reflexivity.
  - vm_compute. reflexivity.
  - apply not_elem_of_empty.
Defined.

Lemma apply_sort_by_size_witness :
  exists palette,
    lookup_key theme_colors "Monaco" = inr palette /\
    exists sorted_names,
      sorted_names ≡ₚ listing /\
      Sorted Z.le (map (Scanner.size_of (tree (main_window "Monaco")) "/tmp/d")
                     sorted_names) /\
      apply_sort "size" (main_window "Monaco") =
      (inr tt,
       draw {| labels := zip_with label_of sorted_names
                           (map (Scanner.size_of (tree (main_window "Monaco")) "/tmp/d")
                              sorted_names);
               sizes := map (Scanner.size_of (tree (main_window "Monaco")) "/tmp/d")
                          sorted_names;
               colors := map (color_at palette) (seq 0 (length listing)) |}
            (main_window "Monaco")).
Proof.
  eexists. split; [vm_compute; reflexivity|].
  apply (apply_sort_by_size (main_window "Monaco") "/tmp/d" listing "Monaco").
  - reflexivity.
  - discriminate.
  - vm_compute. reflexivity.
  - repeat (apply Forall_cons; split; [eexists; vm_compute; reflexivity|]).
    apply Forall_nil_2.
  - reflexivity.
  - vm_compute. reflexivity.
Defined.

Lemma apply_sort_unknown_key_witness :
  apply_sort "kind" (main_window "Monaco")
    = (inl UnboundLocalError, main_window "Monaco").
Proof.
  apply (apply_sort_unknown_key (main_window "Monaco") "/tmp/d" listing "kind").
  - reflexivity.
  - discriminate.
  - vm_compute. reflexivity.
  - discriminate.
  - discriminate.
  - discriminate.
  - discriminate.
Defined.

End MainWindowExamples.

Section FirstWindowExamples.
Import Pyx FirstWindow.

Lemma update_visualization_returns_only_without_files_witness :
  ((Forall (fun t => t.2.2 = []) walk_d /\
    update_visualization 1000 (first_window "Zero Fill" walk_d)
      = Done (plot_nothing (first_window "Zero Fill" walk_d))) \/
   (Exists (fun t => t.2.2 <> []) walk_d /\
    forall w', update_visualization 1000 (first_window "Zero Fill" walk_d) <> Done w')) /\
  ((Forall (fun t => t.2.2 = []) walk_empty /\
    update_visualization 0 (first_window "Zero Fill" walk_empty)
      = Done (plot_nothing (first_window "Zero Fill" walk_empty))) \/
   (Exists (fun t => t.2.2 <> []) walk_empty /\
    forall w', update_visualization 0 (first_window "Zero Fill" walk_empty) <> Done w')).
Proof.
  split.
  - apply (update_visualization_returns_only_without_files
             (first_window "Zero Fill" walk_d) "/tmp/d" 1000).
    reflexivity.
  - apply (update_visualization_returns_only_without_files
             (first_window "Zero Fill" walk_empty) "/tmp/d" 0).
    reflexivity.
Defined.

Lemma secure_delete_menu_methods_only_remove_witness :
  exists t,
    secure_delete (first_window "DoD 5220.22-M" walk_d)
      = (inr tt, set_secure_delete_thread t (first_window "DoD 5220.22-M" walk_d)) /\
    Eraser.file_path t = Py.os_path_join "/tmp/d" ".hidden" /\
    Eraser.passes t = passes_spinbox (first_window "DoD 5220.22-M" walk_d) /\
    forall disk,
      Eraser.run xor_block t disk
        = Eraser.os_remove (Py.os_path_join "/tmp/d" ".hidden") disk.
Proof.
  apply (secure_delete_menu_methods_only_remove xor_block
           (first_window "DoD 5220.22-M" walk_d) "/tmp/d" "/tmp/d" ".hidden").
  - reflexivity.
  - apply (bool_decide_unpack _). vm_compute. exact I.
  - reflexivity.
Defined.

Lemma toggle_dark_mode_alternates_witness :
  exists w',
    toggles 3 (first_window "Zero Fill" walk_d) = (inr tt, w') /\
    styleSheet w' = (if Nat.even 3 then "" else "QWidget { color: white; }").
Proof.
  apply (toggle_dark_mode_alternates (first_window "Zero Fill" walk_d)
           "QWidget { color: white; }" 3); reflexivity.
Defined.

End FirstWindowExamples.

Section TkExamples.
Import Pyx TkWindow.

Lemma tk_load_data_empty_directory_witness :
  load_data "/tmp/d" (tk_window [])
    = (inl (Os Py.ZeroDivisionError), set_progress (Py.PyInt 0) (tk_window [])).
Proof.
  apply (tk_load_data_empty_directory (tk_window []) "/tmp/d").
  - discriminate.
  - vm_compute. reflexivity.
Defined.

Lemma tk_load_data_lists_regular_files_witness :
  exists q w',
    let df := {| Scanner.file_names := regular_files (tree (tk_window listing)) "/tmp/d" listing;
                 Scanner.file_sizes :=
                   map (Scanner.size_of (tree (tk_window listing)) "/tmp/d")
                     (regular_files (tree (tk_window listing)) "/tmp/d" listing) |} in
    Py.int_truediv 100 (Z.of_nat (length listing)) = inr (Py.PyFloat q) /\
    load_data "/tmp/d" (tk_window listing) = (inr tt, w') /\
    data w' = Some df /\
    treemaps w' = treemaps (tk_window listing) ++ [(df, "Rainbow")] /\
    progress w' =
      progress (tk_window listing) ++
      Py.PyInt 0 :: map Py.PyFloat (steps q (S754_zero false) (length listing)) /\
    tree w' = tree (tk_window listing).
Proof.
  apply (tk_load_data_lists_regular_files (tk_window listing) "/tmp/d" listing).
  - discriminate.
  - vm_compute. reflexivity.
  - discriminate.
Defined.

End TkExamples.
